(** * livekit-server: the peer-connection transport, the stream tracker manager
      and the configuration

    A shallow embedding of

    - [pkg/rtc/transport.go] ([PCTransport]: candidate buffering, the
      negotiation state machine, ICE restart after gathering, the
      transceiver codec table), in module [rtc];
    - the [sfu] package's [StreamTrackerManager] (available layers, the
      expected maximum layer, change notifications), in module [sfu];
    - the [config] package's [NewConfig], [updateFromCLI] and
      [unmarshalKeys] (defaults, the configuration document, command-line
      flags), in module [config].

    [PCTransport] and [StreamTrackerManager] each guard their fields with one
    lock that every method holds for
    the whole of its critical section, so each method is modelled as one
    atomic state transformer.  What a method does to the outside world (calls
    on the pion peer connection, offers handed to the [onOffer] handler,
    deliveries to [onAvailableLayersChanged], [Reset] calls on trackers) is
    recorded in trace fields that exist only in the model.

    The definitions come first: [webrtc], [rtc], [sfu], [cli], [yaml],
    [config].  The lemmas and theorems follow in [rtc_theory], [sfu_theory]
    and [config_theory]. *)

From Stdlib Require Import ZArith List Bool Lia.
From stdpp Require Import base option list sorting gmap strings.

Open Scope Z_scope.

(** ** 32-bit signed integers

    Go's [int32] is modelled as [Z]; [wrap32] is the wrap-around of a
    result that leaves the range. *)

Definition minInt32 : Z := - 2 ^ 31.
Definition maxInt32 : Z := 2 ^ 31 - 1.

Definition inInt32 (z : Z) : Prop := minInt32 <= z <= maxInt32.

Definition wrap32 (z : Z) : Z := (z + 2 ^ 31) mod 2 ^ 32 - 2 ^ 31.

(** ** The part of pion/webrtc that [transport.go] touches *)

Module webrtc.

Definition error := string.

Inductive SDPType := SDPTypeOffer | SDPTypePranswer | SDPTypeAnswer | SDPTypeRollback.

Record SessionDescription := mkSessionDescription {
  Type_ : SDPType;
  SDP : string
}.

Record ICECandidateInit := mkICECandidateInit {
  Candidate : string
}.

Record OfferOptions := mkOfferOptions {
  ICERestart : bool
}.

Inductive PeerConnectionState :=
| PeerConnectionStateNew
| PeerConnectionStateConnecting
| PeerConnectionStateConnected
| PeerConnectionStateDisconnected
| PeerConnectionStateFailed
| PeerConnectionStateClosed.

Inductive ICEGatheringState :=
| ICEGatheringStateNew
| ICEGatheringStateGathering
| ICEGatheringStateComplete.

Inductive ICEGathererState :=
| ICEGathererStateNew
| ICEGathererStateGathering
| ICEGathererStateComplete
| ICEGathererStateClosed.

Inductive RTPCodecType := RTPCodecTypeAudio | RTPCodecTypeVideo.

Record RTPCodecCapability := mkRTPCodecCapability {
  MimeType : string;
  ClockRate : Z;
  Channels : Z;
  SDPFmtpLine : string
}.

Record RTPCodecParameters := mkRTPCodecParameters {
  Capability : RTPCodecCapability;
  PayloadType : Z
}.

Record TrackLocal := mkTrackLocal {
  TrackID : string;
  TrackKind : RTPCodecType
}.

(** A sender carries at most one track; [Codecs] is [GetParameters().Codecs]. *)
Record RTPSender := mkRTPSender {
  Track : option TrackLocal;
  Codecs : list RTPCodecParameters
}.

Record RTPTransceiver := mkRTPTransceiver {
  Mid : string;
  Kind : RTPCodecType;
  Sender : option RTPSender
}.

#[global] Instance SDPType_eq_dec : EqDecision SDPType.
Proof. solve_decision. Defined.
#[global] Instance PeerConnectionState_eq_dec : EqDecision PeerConnectionState.
Proof. solve_decision. Defined.
#[global] Instance ICEGatheringState_eq_dec : EqDecision ICEGatheringState.
Proof. solve_decision. Defined.
#[global] Instance ICEGathererState_eq_dec : EqDecision ICEGathererState.
Proof. solve_decision. Defined.
#[global] Instance RTPCodecType_eq_dec : EqDecision RTPCodecType.
Proof. solve_decision. Defined.
#[global] Instance SessionDescription_eq_dec : EqDecision SessionDescription.
Proof. solve_decision. Defined.
#[global] Instance ICECandidateInit_eq_dec : EqDecision ICECandidateInit.
Proof. solve_decision. Defined.

(** The peer connection itself belongs to pion, not to this repository: it
    is an interface here.  Queries read the state; the four fallible calls
    return their result together with the peer connection's next state. *)
Class PeerConnection (PC : Type) := {
  RemoteDescription : PC -> option SessionDescription;
  CurrentRemoteDescription : PC -> option SessionDescription;
  ConnectionState : PC -> PeerConnectionState;
  ICEGatheringState_ : PC -> ICEGatheringState;
  GetTransceivers : PC -> list RTPTransceiver;
  pc_AddICECandidate : ICECandidateInit -> PC -> option error * PC;
  pc_SetRemoteDescription : SessionDescription -> PC -> option error * PC;
  pc_CreateOffer : option OfferOptions -> PC -> (error + SessionDescription) * PC;
  pc_SetLocalDescription : SessionDescription -> PC -> option error * PC
}.

End webrtc.

(** ** Package rtc: [PCTransport] *)

Module rtc.
Import webrtc.

Inductive NegotiationState :=
| negotiationStateNone
| negotiationStateClient   (* waiting for client answer *)
| negotiationRetry.        (* need to Negotiate again *)

#[global] Instance NegotiationState_eq_dec : EqDecision NegotiationState.
Proof. solve_decision. Defined.

(** A call made on the peer connection, and a call with its outcome
    ([None] is a nil error). *)
Inductive PCCall :=
| CallSetRemoteDescription (sd : SessionDescription)
| CallAddICECandidate (c : ICECandidateInit)
| CallCreateOffer (options : option OfferOptions)
| CallSetLocalDescription (sd : SessionDescription).

Definition PCEvent : Type := PCCall * option error.

(** The handler registered with [OnOffer] is a function value in Go; the
    transport only tests it against nil and calls it. *)
Definition OfferHandler := nat.

Section Transport.
Context {PC : Type} `{PeerConnection PC}.

(** [pcTrace] and [offersSent] are the model's trace fields: the calls made
    on [pc] so far, and the offers passed to [go t.onOffer(offer)].  The
    debouncer ([debouncedNegotiate]) is a timer and stays outside the
    model, as do [me] and [lock]. *)
Record PCTransport := mkPCTransport {
  pc : PC;
  transceiverCodecs : gmap string (list RTPCodecCapability);
  pendingCandidates : list ICECandidateInit;
  onOffer : option OfferHandler;
  restartAfterGathering : bool;
  negotiationState : NegotiationState;
  pcTrace : list PCEvent;
  offersSent : list SessionDescription
}.

Definition set_pc (p : PC) (t : PCTransport) : PCTransport :=
  mkPCTransport p (transceiverCodecs t) (pendingCandidates t) (onOffer t)
    (restartAfterGathering t) (negotiationState t) (pcTrace t) (offersSent t).

Definition set_transceiverCodecs (m : gmap string (list RTPCodecCapability))
    (t : PCTransport) : PCTransport :=
  mkPCTransport (pc t) m (pendingCandidates t) (onOffer t)
    (restartAfterGathering t) (negotiationState t) (pcTrace t) (offersSent t).

Definition set_pendingCandidates (cs : list ICECandidateInit) (t : PCTransport) : PCTransport :=
  mkPCTransport (pc t) (transceiverCodecs t) cs (onOffer t)
    (restartAfterGathering t) (negotiationState t) (pcTrace t) (offersSent t).

Definition set_onOffer (f : option OfferHandler) (t : PCTransport) : PCTransport :=
  mkPCTransport (pc t) (transceiverCodecs t) (pendingCandidates t) f
    (restartAfterGathering t) (negotiationState t) (pcTrace t) (offersSent t).

Definition set_restartAfterGathering (b : bool) (t : PCTransport) : PCTransport :=
  mkPCTransport (pc t) (transceiverCodecs t) (pendingCandidates t) (onOffer t)
    b (negotiationState t) (pcTrace t) (offersSent t).

Definition set_negotiationState (s : NegotiationState) (t : PCTransport) : PCTransport :=
  mkPCTransport (pc t) (transceiverCodecs t) (pendingCandidates t) (onOffer t)
    (restartAfterGathering t) s (pcTrace t) (offersSent t).

Definition logCall (p : PC) (ev : PCEvent) (t : PCTransport) : PCTransport :=
  mkPCTransport p (transceiverCodecs t) (pendingCandidates t) (onOffer t)
    (restartAfterGathering t) (negotiationState t) (pcTrace t ++ [ev]) (offersSent t).

Definition sendOffer (offer : SessionDescription) (t : PCTransport) : PCTransport :=
  mkPCTransport (pc t) (transceiverCodecs t) (pendingCandidates t) (onOffer t)
    (restartAfterGathering t) (negotiationState t) (pcTrace t) (offersSent t ++ [offer]).

(** *** Calls on [t.pc], each leaving its entry in the trace *)

Definition call_AddICECandidate (c : ICECandidateInit) (t : PCTransport)
    : option error * PCTransport :=
  let '(r, p) := pc_AddICECandidate c (pc t) in
  (r, logCall p (CallAddICECandidate c, r) t).

Definition call_SetRemoteDescription (sd : SessionDescription) (t : PCTransport)
    : option error * PCTransport :=
  let '(r, p) := pc_SetRemoteDescription sd (pc t) in
  (r, logCall p (CallSetRemoteDescription sd, r) t).

Definition call_CreateOffer (options : option OfferOptions) (t : PCTransport)
    : (error + SessionDescription) * PCTransport :=
  let '(r, p) := pc_CreateOffer options (pc t) in
  (r, logCall p (CallCreateOffer options,
                 match r with inl e => Some e | inr _ => None end) t).

Definition call_SetLocalDescription (sd : SessionDescription) (t : PCTransport)
    : option error * PCTransport :=
  let '(r, p) := pc_SetLocalDescription sd (pc t) in
  (r, logCall p (CallSetLocalDescription sd, r) t).

(** *** NewPCTransport, OnOffer

    [NewPCTransport] over the peer connection that [newPeerConnection]
    returned. *)
Definition NewPCTransport (p : PC) : PCTransport :=
  mkPCTransport p ∅ [] None false negotiationStateNone [] [].

Definition OnOffer (f : option OfferHandler) (t : PCTransport) : PCTransport :=
  set_onOffer f t.

(** *** AddICECandidate *)

Definition AddICECandidate (candidate : ICECandidateInit) (t : PCTransport)
    : option error * PCTransport :=
  match RemoteDescription (pc t) with
  | None => (None, set_pendingCandidates (pendingCandidates t ++ [candidate]) t)
  | Some _ => call_AddICECandidate candidate t
  end.

(** *** GetTransceiverForSending *)

(** The inner loop over [t.transceiverCodecs[transceiver.Mid()]]. *)
Fixpoint codecMatches (codec : RTPCodecCapability) (params : list RTPCodecCapability) : bool :=
  match params with
  | [] => false
  | p :: rest =>
      if bool_decide (MimeType p = MimeType codec) then true
      else codecMatches codec rest
  end.

(** Indexing a Go map at a missing key yields the nil slice. *)
Definition codecsOfMid (mid : string) (t : PCTransport) : list RTPCodecCapability :=
  default [] (transceiverCodecs t !! mid).

Fixpoint firstTransceiverForSending (track : TrackLocal) (codec : RTPCodecCapability)
    (t : PCTransport) (transceivers : list RTPTransceiver) : option RTPTransceiver :=
  match transceivers with
  | [] => None
  | transceiver :: rest =>
      if bool_decide (Kind transceiver ≠ TrackKind track) then
        firstTransceiverForSending track codec t rest
      else
        match Sender transceiver with
        | None => firstTransceiverForSending track codec t rest
        | Some sender =>
            match Track sender with
            | Some _ => firstTransceiverForSending track codec t rest
            | None =>
                if codecMatches codec (codecsOfMid (Mid transceiver) t)
                then Some transceiver
                else firstTransceiverForSending track codec t rest
            end
        end
  end.

Definition GetTransceiverForSending (track : TrackLocal) (codec : RTPCodecCapability)
    (t : PCTransport) : option RTPTransceiver :=
  firstTransceiverForSending track codec t (GetTransceivers (pc t)).

(** *** createAndSendOffer *)

(** The loop that records, after an offer, the codecs of every transceiver
    whose sender has a track. *)
Fixpoint recordTransceiverCodecs (transceivers : list RTPTransceiver)
    (m : gmap string (list RTPCodecCapability)) : gmap string (list RTPCodecCapability) :=
  match transceivers with
  | [] => m
  | transceiver :: rest =>
      match Sender transceiver with
      | None => recordTransceiverCodecs rest m
      | Some sender =>
          match Track sender with
          | None => recordTransceiverCodecs rest m
          | Some _ =>
              recordTransceiverCodecs rest
                (<[Mid transceiver := map Capability (Codecs sender)]> m)
          end
      end
  end.

(** From [t.pc.CreateOffer(options)] to the end of the function. *)
Definition createOfferAndSend (options : option OfferOptions) (t : PCTransport)
    : option error * PCTransport :=
  match call_CreateOffer options t with
  | (inl err, t1) => (Some err, t1)
  | (inr offer, t1) =>
      match call_SetLocalDescription offer t1 with
      | (Some err, t2) => (Some err, t2)
      | (None, t2) =>
          let t3 := set_negotiationState negotiationStateClient t2 in
          let t4 := set_restartAfterGathering false t3 in
          let t5 := set_transceiverCodecs
                      (recordTransceiverCodecs (GetTransceivers (pc t4))
                         (transceiverCodecs t4)) t4 in
          (None, sendOffer offer t5)
      end
  end.

Definition isICERestart (options : option OfferOptions) : bool :=
  match options with
  | Some o => ICERestart o
  | None => false
  end.

Definition createAndSendOffer (options : option OfferOptions) (t : PCTransport)
    : option error * PCTransport :=
  match onOffer t with
  | None => (None, t)
  | Some _ =>
      if bool_decide (ConnectionState (pc t) = PeerConnectionStateClosed) then (None, t)
      else
        let iceRestart := isICERestart options in
        if iceRestart && bool_decide (ICEGatheringState_ (pc t) = ICEGatheringStateGathering)
        then (None, set_restartAfterGathering true t)
        else
          match negotiationState t with
          | negotiationStateClient =>
              match iceRestart, CurrentRemoteDescription (pc t) with
              | true, Some currentSD =>
                  match call_SetRemoteDescription currentSD t with
                  | (Some err, t1) => (Some err, t1)
                  | (None, t1) => createOfferAndSend options t1
                  end
              | _, _ => (None, set_negotiationState negotiationRetry t)
              end
          | negotiationRetry => (None, t)
          | negotiationStateNone => createOfferAndSend options t
          end
  end.

Definition CreateAndSendOffer (options : option OfferOptions) (t : PCTransport)
    : option error * PCTransport :=
  createAndSendOffer options t.

(** The handler that [NewPCTransport] installs with
    [OnICEGatheringStateChange]; the error of the offer is only logged. *)
Definition onICEGatheringStateChange (state : ICEGathererState) (t : PCTransport)
    : PCTransport :=
  if bool_decide (state = ICEGathererStateComplete) then
    if restartAfterGathering t then
      snd (createAndSendOffer (Some (mkOfferOptions true)) t)
    else t
  else t.

(** *** SetRemoteDescription *)

(** The loop over [t.pendingCandidates]: the first error leaves the loop
    and the function. *)
Fixpoint applyPending (cs : list ICECandidateInit) (t : PCTransport)
    : option error * PCTransport :=
  match cs with
  | [] => (None, t)
  | c :: rest =>
      match call_AddICECandidate c t with
      | (Some err, t1) => (Some err, t1)
      | (None, t1) => applyPending rest t1
      end
  end.

Definition SetRemoteDescription (sd : SessionDescription) (t : PCTransport)
    : option error * PCTransport :=
  match call_SetRemoteDescription sd t with
  | (Some err, t1) => (Some err, t1)
  | (None, t1) =>
      let lastState := negotiationState t1 in
      let t2 := set_negotiationState negotiationStateNone t1 in
      match applyPending (pendingCandidates t2) t2 with
      | (Some err, t3) => (Some err, t3)
      | (None, t3) =>
          let t4 := set_pendingCandidates [] t3 in
          if bool_decide (lastState = negotiationRetry)
             && bool_decide (Type_ sd = SDPTypeAnswer)
          then (None, snd (createAndSendOffer None t4))
          else (None, t4)
      end
  end.

(** *** Signalling runs: interleavings of the two inbound calls *)

Inductive SignalCall :=
| SigAddICECandidate (c : ICECandidateInit)
| SigSetRemoteDescription (sd : SessionDescription).

Definition signal (call : SignalCall) (t : PCTransport) : option error * PCTransport :=
  match call with
  | SigAddICECandidate c => AddICECandidate c t
  | SigSetRemoteDescription sd => SetRemoteDescription sd t
  end.

Fixpoint signals (calls : list SignalCall) (t : PCTransport)
    : list (option error) * PCTransport :=
  match calls with
  | [] => ([], t)
  | call :: rest =>
      let '(r, t1) := signal call t in
      let '(rs, t2) := signals rest t1 in
      (r :: rs, t2)
  end.

(** The candidates handed to [AddICECandidate], in submission order. *)
Definition submitted (calls : list SignalCall) : list ICECandidateInit :=
  omap (fun call => match call with
                    | SigAddICECandidate c => Some c
                    | SigSetRemoteDescription _ => None
                    end) calls.

(** What the peer connection saw: the candidates it was asked to add, the
    candidates it added, the remote descriptions it accepted, and whether it
    was asked for an offer. *)
Definition attempted (trace : list PCEvent) : list ICECandidateInit :=
  omap (fun ev => match ev with
                  | (CallAddICECandidate c, _) => Some c
                  | _ => None
                  end) trace.

Definition applied (trace : list PCEvent) : list ICECandidateInit :=
  omap (fun ev => match ev with
                  | (CallAddICECandidate c, None) => Some c
                  | _ => None
                  end) trace.

Definition accepted (trace : list PCEvent) : list SessionDescription :=
  omap (fun ev => match ev with
                  | (CallSetRemoteDescription sd, None) => Some sd
                  | _ => None
                  end) trace.

Definition offersRequested (trace : list PCEvent) : list (option OfferOptions) :=
  omap (fun ev => match ev with
                  | (CallCreateOffer options, _) => Some options
                  | _ => None
                  end) trace.

Definition appliedOk (c : ICECandidateInit) : PCEvent := (CallAddICECandidate c, None).

(** Two transports that differ at most in the peer connection and in the
    trace of calls made on it. *)
Definition sameFields (t t' : PCTransport) : Prop :=
  transceiverCodecs t' = transceiverCodecs t
  /\ pendingCandidates t' = pendingCandidates t
  /\ onOffer t' = onOffer t
  /\ restartAfterGathering t' = restartAfterGathering t
  /\ negotiationState t' = negotiationState t
  /\ offersSent t' = offersSent t.

(** The first-match reading of [GetTransceiverForSending]. *)
Definition usableForSending (track : TrackLocal) (codec : RTPCodecCapability)
    (t : PCTransport) (transceiver : RTPTransceiver) : Prop :=
  Kind transceiver = TrackKind track
  /\ (exists sender, Sender transceiver = Some sender /\ Track sender = None)
  /\ (exists params, params ∈ codecsOfMid (Mid transceiver) t
                     /\ MimeType params = MimeType codec).

(** *** createAndSendOffer: guards, demotion, failure *)

Definition isOfferCall (call : PCCall) : Prop :=
  match call with
  | CallCreateOffer _ | CallSetLocalDescription _ => True
  | _ => False
  end.

(** Every way [createAndSendOffer] can end, with what it did to the peer
    connection's trace. *)
Inductive OfferOutcome (options : option OfferOptions) (t : PCTransport)
    : option error -> PCTransport -> Prop :=
| OfferSkipped :
    onOffer t = None
    \/ ConnectionState (pc t) = PeerConnectionStateClosed
    \/ negotiationState t = negotiationRetry ->
    OfferOutcome options t None t
| OfferDeferred :
    onOffer t <> None ->
    ConnectionState (pc t) <> PeerConnectionStateClosed ->
    isICERestart options = true ->
    ICEGatheringState_ (pc t) = ICEGatheringStateGathering ->
    OfferOutcome options t None (set_restartAfterGathering true t)
| OfferDemoted :
    onOffer t <> None ->
    ConnectionState (pc t) <> PeerConnectionStateClosed ->
    negotiationState t = negotiationStateClient ->
    ~ (isICERestart options = true /\ CurrentRemoteDescription (pc t) <> None) ->
    OfferOutcome options t None (set_negotiationState negotiationRetry t)
| OfferRecoveryFailed currentSD err t1 :
    negotiationState t = negotiationStateClient ->
    isICERestart options = true ->
    CurrentRemoteDescription (pc t) = Some currentSD ->
    call_SetRemoteDescription currentSD t = (Some err, t1) ->
    OfferOutcome options t (Some err) t1
| OfferAfterRecovery currentSD t1 r t' :
    negotiationState t = negotiationStateClient ->
    isICERestart options = true ->
    CurrentRemoteDescription (pc t) = Some currentSD ->
    call_SetRemoteDescription currentSD t = (None, t1) ->
    createOfferAndSend options t1 = (r, t') ->
    OfferOutcome options t r t'
| OfferFromIdle r t' :
    onOffer t <> None ->
    ConnectionState (pc t) <> PeerConnectionStateClosed ->
    negotiationState t = negotiationStateNone ->
    createOfferAndSend options t = (r, t') ->
    OfferOutcome options t r t'.

(** The sentences of the specification on the offer path, worded as they
    stand, for every transport and every request. *)

(** "If createAndSendOffer runs while the state is AwaitingClient and the
    request is not an ICE restart with a current remote description, no
    offer is emitted and the state becomes RetryPending." *)
Definition demotedWhileAwaitingClient (options : option OfferOptions) (t : PCTransport) : Prop :=
  negotiationState t = negotiationStateClient ->
  ~ (isICERestart options = true /\ CurrentRemoteDescription (pc t) <> None) ->
  offersSent (createAndSendOffer options t).2 = offersSent t
  /\ negotiationState (createAndSendOffer options t).2 = negotiationRetry.

(** "If an ICE-restart offer is requested while ICE gathering is in
    progress, no offer is emitted and restart_after_gathering is set to
    true." *)
Definition restartDeferredWhileGathering (options : option OfferOptions) (t : PCTransport) : Prop :=
  isICERestart options = true ->
  ICEGatheringState_ (pc t) = ICEGatheringStateGathering ->
  offersSent (createAndSendOffer options t).2 = offersSent t
  /\ restartAfterGathering (createAndSendOffer options t).2 = true.

(** *** SetRemoteDescription *)

(** The three ways [SetRemoteDescription] can end: the peer connection
    rejects the description; it accepts it and a pending candidate fails;
    it accepts it and the queue drains. *)
Inductive RemoteOutcome (sd : SessionDescription) (t : PCTransport)
    : option error -> PCTransport -> Prop :=
| RemoteRejected err t' :
    (Some err, pc t') = pc_SetRemoteDescription sd (pc t) ->
    pcTrace t' = pcTrace t ++ [(CallSetRemoteDescription sd, Some err)] ->
    sameFields t t' ->
    RemoteOutcome sd t (Some err) t'
| RemoteDrainFailed err t' done c rest :
    (pc_SetRemoteDescription sd (pc t)).1 = None ->
    pendingCandidates t = done ++ c :: rest ->
    pcTrace t' = pcTrace t ++ (CallSetRemoteDescription sd, None)
                   :: map appliedOk done ++ [(CallAddICECandidate c, Some err)] ->
    pendingCandidates t' = pendingCandidates t ->
    negotiationState t' = negotiationStateNone ->
    offersSent t' = offersSent t ->
    RemoteOutcome sd t (Some err) t'
| RemoteDrained t1 t' :
    (pc_SetRemoteDescription sd (pc t)).1 = None ->
    pcTrace t1 = pcTrace t ++ (CallSetRemoteDescription sd, None)
                   :: map appliedOk (pendingCandidates t) ->
    pendingCandidates t1 = [] ->
    negotiationState t1 = negotiationStateNone ->
    offersSent t1 = offersSent t ->
    onOffer t1 = onOffer t ->
    restartAfterGathering t1 = restartAfterGathering t ->
    transceiverCodecs t1 = transceiverCodecs t ->
    t' = (if bool_decide (negotiationState t = negotiationRetry)
             && bool_decide (Type_ sd = SDPTypeAnswer)
          then (createAndSendOffer None t1).2 else t1) ->
    RemoteOutcome sd t None t'.

(** *** Candidates: buffered, then drained *)

(** The calls a method made on the peer connection: what [t'] has in its
    trace beyond [t]. *)
Definition during (t t' : PCTransport) : list PCEvent :=
  drop (length (pcTrace t)) (pcTrace t').

(** "For any interleaving of add_ice_candidate and set_remote_description,
    every candidate submitted before the first successful
    set_remote_description is applied to the peer connection exactly once,
    in submission order", and that "during the drain performed by
    SetRemoteDescription": on a fresh transport, when [sd] is the first
    description whose [SetRemoteDescription] returns nil, the candidates
    the peer connection has added by then are the submitted ones, once each
    and in order, and it added them during that call. *)
Definition NoLostCandidates (p : PC) (before : list SignalCall) (sd : SessionDescription)
    : Prop :=
  RemoteDescription p = None ->
  (forall (i : nat) sd0,
     before !! i = Some (SigSetRemoteDescription sd0) ->
     (signals before (NewPCTransport p)).1 !! i <> Some None) ->
  (SetRemoteDescription sd (signals before (NewPCTransport p)).2).1 = None ->
  applied (pcTrace (SetRemoteDescription sd (signals before (NewPCTransport p)).2).2)
  = submitted before
  /\ applied (during (signals before (NewPCTransport p)).2
                (SetRemoteDescription sd (signals before (NewPCTransport p)).2).2)
     = submitted before.

(** The results of the [AddICECandidate] calls of a run are all nil. *)
Definition addsSucceeded (calls : list SignalCall) (rs : list (option error)) : Prop :=
  Forall2 (fun call r => match call with
                         | SigAddICECandidate _ => r = None
                         | SigSetRemoteDescription _ => True
                         end) calls rs.

(** *** Runs over the whole surface of the transport *)

Inductive TransportCall :=
| DoOnOffer (f : option OfferHandler)
| DoAddICECandidate (c : ICECandidateInit)
| DoSetRemoteDescription (sd : SessionDescription)
| DoCreateAndSendOffer (options : option OfferOptions)
| DoICEGatheringStateChange (state : ICEGathererState).

Definition perform (t : PCTransport) (call : TransportCall) : PCTransport :=
  match call with
  | DoOnOffer f => OnOffer f t
  | DoAddICECandidate c => (AddICECandidate c t).2
  | DoSetRemoteDescription sd => (SetRemoteDescription sd t).2
  | DoCreateAndSendOffer options => (CreateAndSendOffer options t).2
  | DoICEGatheringStateChange state => onICEGatheringStateChange state t
  end.

Definition performAll (calls : list TransportCall) (t : PCTransport) : PCTransport :=
  foldl perform t calls.

(** The offers the peer connection took as its local description. *)
Definition localDescriptions (trace : list PCEvent) : list SessionDescription :=
  omap (fun ev => match ev with
                  | (CallSetLocalDescription offer, None) => Some offer
                  | _ => None
                  end) trace.

(** A transceiver that an offer records: its sender has a track. *)
Definition carriesTrack (transceiver : RTPTransceiver) : Prop :=
  exists sender track, Sender transceiver = Some sender /\ Track sender = Some track.


(** One step of a run: at most one offer goes out, it goes out exactly when
    the peer connection took it as local description, and the state leaves
    None only with an offer. *)
Definition sendsAtMostOne (t t' : PCTransport) : Prop :=
  exists new,
    offersSent t' = offersSent t ++ new
    /\ localDescriptions (pcTrace t') = localDescriptions (pcTrace t) ++ new
    /\ (length new <= 1)%nat
    /\ (negotiationState t' <> negotiationStateNone ->
        negotiationState t <> negotiationStateNone \/ new <> []).

End Transport.

Arguments PCTransport : clear implicits.

(** *** A scripted peer connection

    A peer connection for running the transport on concrete inputs.  Each
    fallible call takes its outcome from the head of [script] (nil once the
    script is used up).  An accepted remote description becomes the remote
    description, and the current one when it is an answer. *)

Module Scripted.

Record PC := mkPC {
  remote : option SessionDescription;
  currentRemote : option SessionDescription;
  connection : PeerConnectionState;
  gathering : ICEGatheringState;
  transceivers : list RTPTransceiver;
  script : list (option error)
}.

Definition next (p : PC) : option error * PC :=
  match script p with
  | [] => (None, p)
  | r :: rest =>
      (r, mkPC (remote p) (currentRemote p) (connection p) (gathering p)
            (transceivers p) rest)
  end.

Definition addICECandidate (c : ICECandidateInit) (p : PC) : option error * PC :=
  next p.

Definition setRemoteDescription (sd : SessionDescription) (p : PC) : option error * PC :=
  match next p with
  | (Some err, p1) => (Some err, p1)
  | (None, p1) =>
      (None, mkPC (Some sd)
               (if bool_decide (Type_ sd = SDPTypeAnswer) then Some sd else currentRemote p1)
               (connection p1) (gathering p1) (transceivers p1) (script p1))
  end.

Definition createOffer (options : option OfferOptions) (p : PC)
    : (error + SessionDescription) * PC :=
  match next p with
  | (Some err, p1) => (inl err, p1)
  | (None, p1) => (inr (mkSessionDescription SDPTypeOffer "offer"), p1)
  end.

Definition setLocalDescription (sd : SessionDescription) (p : PC) : option error * PC :=
  next p.

#[global] Instance peerConnection : PeerConnection PC := {
  RemoteDescription := remote;
  CurrentRemoteDescription := currentRemote;
  ConnectionState := connection;
  ICEGatheringState_ := gathering;
  GetTransceivers := transceivers;
  pc_AddICECandidate := addICECandidate;
  pc_SetRemoteDescription := setRemoteDescription;
  pc_CreateOffer := createOffer;
  pc_SetLocalDescription := setLocalDescription
}.

End Scripted.

(** *** Scenarios *)

Definition c1 : ICECandidateInit := mkICECandidateInit "candidate:1".
Definition c2 : ICECandidateInit := mkICECandidateInit "candidate:2".
Definition c3 : ICECandidateInit := mkICECandidateInit "candidate:3".
Definition remoteOffer : SessionDescription := mkSessionDescription SDPTypeOffer "remote offer".
Definition remoteAnswer : SessionDescription := mkSessionDescription SDPTypeAnswer "remote answer".
Definition iceRestartOptions : option OfferOptions := Some (mkOfferOptions true).

Definition opusCodec : RTPCodecCapability := mkRTPCodecCapability "audio/opus" 48000 2 "".
Definition vp8Codec : RTPCodecCapability := mkRTPCodecCapability "video/VP8" 90000 0 "".

(** A new peer connection on which every call succeeds. *)
Definition freshPC : Scripted.PC :=
  Scripted.mkPC None None PeerConnectionStateNew ICEGatheringStateNew [] [].

(** A new peer connection that rejects the third call made on it. *)
Definition thirdCallFails : Scripted.PC :=
  Scripted.mkPC None None PeerConnectionStateNew ICEGatheringStateNew []
    [None; None; Some "rejected"].

Definition firstCallFails : Scripted.PC :=
  Scripted.mkPC None None PeerConnectionStateNew ICEGatheringStateNew []
    [Some "rejected"].

Definition gatheringPC : Scripted.PC :=
  Scripted.mkPC None None PeerConnectionStateConnected ICEGatheringStateGathering [] [].

Definition closedPC : Scripted.PC :=
  Scripted.mkPC None None PeerConnectionStateClosed ICEGatheringStateComplete [] [].

(** A transport in RetryPending: an offer is out, and a second negotiation
    was asked for before the answer. *)
Definition retryPending : PCTransport Scripted.PC :=
  (createAndSendOffer None
     (createAndSendOffer None (OnOffer (Some 0%nat) (NewPCTransport freshPC))).2).2.

(** A transport in AwaitingClient whose peer connection is still gathering. *)
Definition awaitingWhileGathering : PCTransport Scripted.PC :=
  (createAndSendOffer None (OnOffer (Some 0%nat) (NewPCTransport gatheringPC))).2.

Definition audioTrack : TrackLocal := mkTrackLocal "audio" RTPCodecTypeAudio.
Definition videoTrack : TrackLocal := mkTrackLocal "video" RTPCodecTypeVideo.

Definition audioTransceiver : RTPTransceiver :=
  mkRTPTransceiver "0" RTPCodecTypeAudio
    (Some (mkRTPSender (Some audioTrack) [mkRTPCodecParameters opusCodec 111])).

Definition receiveOnlyTransceiver : RTPTransceiver :=
  mkRTPTransceiver "1" RTPCodecTypeVideo None.

Definition videoTransceiver (track : option TrackLocal) : RTPTransceiver :=
  mkRTPTransceiver "2" RTPCodecTypeVideo
    (Some (mkRTPSender track [mkRTPCodecParameters vp8Codec 96])).

(** A subscriber whose video track was taken off its sender after the
    last offer: the audio transceiver still carries a track, the first
    video transceiver has no sender, the second one is free and was
    recorded with VP8. *)
Definition withFreeVideoSlot : PCTransport Scripted.PC :=
  let publishing :=
    Scripted.mkPC None None PeerConnectionStateConnected ICEGatheringStateComplete
      [audioTransceiver; receiveOnlyTransceiver; videoTransceiver (Some videoTrack)] [] in
  let t := (createAndSendOffer None (OnOffer (Some 0%nat) (NewPCTransport publishing))).2 in
  set_pc (Scripted.mkPC None None PeerConnectionStateConnected ICEGatheringStateComplete
            [audioTransceiver; receiveOnlyTransceiver; videoTransceiver None] []) t.

(** More scenarios. *)

(** A new peer connection that rejects the fourth call made on it. *)
Definition fourthCallFails : Scripted.PC :=
  Scripted.mkPC None None PeerConnectionStateNew ICEGatheringStateNew []
    [None; None; None; Some "rejected"].

(** RetryPending on a peer connection that will accept the answer and then
    refuse to create the next offer. *)
Definition retryPendingThenRefused : PCTransport Scripted.PC :=
  (createAndSendOffer None
     (createAndSendOffer None (OnOffer (Some 0%nat) (NewPCTransport fourthCallFails))).2).2.

(** AwaitingClient for the second time: a first offer was answered, a
    second one is out. *)
Definition awaitingSecondAnswer : PCTransport Scripted.PC :=
  let t1 := (createAndSendOffer None (OnOffer (Some 0%nat) (NewPCTransport freshPC))).2 in
  let t2 := (SetRemoteDescription remoteAnswer t1).2 in
  (createAndSendOffer None t2).2.

(** A subscriber that publishes an audio and a video track and has not
    sent an offer yet. *)
Definition beforeFirstOffer : PCTransport Scripted.PC :=
  OnOffer (Some 0%nat)
    (NewPCTransport
       (Scripted.mkPC None None PeerConnectionStateConnected ICEGatheringStateComplete
          [audioTransceiver; receiveOnlyTransceiver; videoTransceiver (Some videoTrack)] [])).

Definition mixedCalls : list TransportCall :=
  [DoAddICECandidate c1; DoCreateAndSendOffer None; DoOnOffer (Some 0%nat);
   DoCreateAndSendOffer None; DoCreateAndSendOffer iceRestartOptions;
   DoSetRemoteDescription remoteAnswer; DoICEGatheringStateChange ICEGathererStateComplete;
   DoCreateAndSendOffer None].


End rtc.

(** ** Package sfu: [StreamTrackerManager] *)

Module sfu.

(** How a call ends.  Go panics on an array index out of range.  A loop
    counter that passes [maxInt32] wraps to [minInt32] and the loop goes
    on; the model stops there and says so. *)
Inductive Outcome (A : Type) :=
| Returned (a : A)
| Panicked
| CounterWrapped.
Arguments Returned {A} a.
Arguments Panicked {A}.
Arguments CounterWrapped {A}.

(** Modelled from the spec: the status a tracker reports to its
    [OnStatusChanged] callback; the type is declared with [StreamTracker],
    whose file is not among the sources.  The specification gives a tracker
    the statuses New, Active and Stopped. *)
Inductive StreamStatus := StreamStatusNew | StreamStatusActive | StreamStatusStopped.

#[global] Instance StreamStatus_eq_dec : EqDecision StreamStatus.
Proof. solve_decision. Defined.

(** The handler registered with [OnAvailableLayersChanged]: tested against
    nil and called, nothing else. *)
Definition LayersHandler := nat.

(** *** sort.Slice

    [sort.Slice(x, less)] on a slice of [int32] with [less] a strict total
    order has one possible result, the ascending arrangement; insertion
    computes it. *)
Fixpoint insertBy (less : Z -> Z -> bool) (x : Z) (l : list Z) : list Z :=
  match l with
  | [] => [x]
  | y :: rest => if less x y then x :: y :: rest else y :: insertBy less x rest
  end.

Definition sortSlice (less : Z -> Z -> bool) (l : list Z) : list Z :=
  foldr (insertBy less) [] l.

Section Manager.

(** [StreamTracker] and the constant [DefaultMaxLayerSpatial] are declared
    elsewhere in the package. *)
Context {StreamTracker : Type}.
Variable DefaultMaxLayerSpatial : Z.

(** [delivered] and [resets] are the model's trace fields: the slices
    passed to [onAvailableLayersChanged], by value at the time of the call,
    and the trackers on which [Reset] was called. *)
Record StreamTrackerManager := mkStreamTrackerManager {
  trackers : list (option StreamTracker);
  availableLayers : list Z;
  maxExpectedLayer : Z;
  onAvailableLayersChanged : option LayersHandler;
  delivered : list (list Z);
  resets : list StreamTracker
}.

Definition set_trackers (ts : list (option StreamTracker)) (s : StreamTrackerManager)
    : StreamTrackerManager :=
  mkStreamTrackerManager ts (availableLayers s) (maxExpectedLayer s)
    (onAvailableLayersChanged s) (delivered s) (resets s).

Definition set_availableLayers (layers : list Z) (s : StreamTrackerManager)
    : StreamTrackerManager :=
  mkStreamTrackerManager (trackers s) layers (maxExpectedLayer s)
    (onAvailableLayersChanged s) (delivered s) (resets s).

Definition set_maxExpectedLayer (layer : Z) (s : StreamTrackerManager)
    : StreamTrackerManager :=
  mkStreamTrackerManager (trackers s) (availableLayers s) layer
    (onAvailableLayersChanged s) (delivered s) (resets s).

Definition deliver (layers : list Z) (s : StreamTrackerManager) : StreamTrackerManager :=
  mkStreamTrackerManager (trackers s) (availableLayers s) (maxExpectedLayer s)
    (onAvailableLayersChanged s) (delivered s ++ [layers]) (resets s).

Definition resetAll (ts : list StreamTracker) (s : StreamTrackerManager)
    : StreamTrackerManager :=
  mkStreamTrackerManager (trackers s) (availableLayers s) (maxExpectedLayer s)
    (onAvailableLayersChanged s) (delivered s) (resets s ++ ts).

Definition NewStreamTrackerManager : StreamTrackerManager :=
  mkStreamTrackerManager (replicate (Z.to_nat (DefaultMaxLayerSpatial + 1)) None)
    [] DefaultMaxLayerSpatial None [] [].

Definition OnAvailableLayersChanged (f : option LayersHandler) (s : StreamTrackerManager)
    : StreamTrackerManager :=
  mkStreamTrackerManager (trackers s) (availableLayers s) (maxExpectedLayer s)
    f (delivered s) (resets s).

(** [s.trackers[layer]], read and written. *)
Definition trackerAt (layer : Z) (s : StreamTrackerManager) : Outcome (option StreamTracker) :=
  if (layer <? 0) || (Z.of_nat (length (trackers s)) <=? layer) then Panicked
  else Returned (default None (trackers s !! Z.to_nat layer)).

(** [AddTracker] and [RemoveTracker], as far as the slot goes: the tracker
    that [NewStreamTracker] built is a parameter, and starting and stopping
    it is the tracker's business. *)
Definition AddTracker (layer : Z) (tracker : StreamTracker) (s : StreamTrackerManager)
    : Outcome StreamTrackerManager :=
  if (layer <? 0) || (Z.of_nat (length (trackers s)) <=? layer) then Panicked
  else Returned (set_trackers (<[Z.to_nat layer := Some tracker]> (trackers s)) s).

Definition RemoveTracker (layer : Z) (s : StreamTrackerManager)
    : Outcome StreamTrackerManager :=
  if (layer <? 0) || (Z.of_nat (length (trackers s)) <=? layer) then Panicked
  else Returned (set_trackers (<[Z.to_nat layer := None]> (trackers s)) s).

Fixpoint hasLayer (layer : Z) (layers : list Z) : bool :=
  match layers with
  | [] => false
  | l :: rest => if l =? layer then true else hasLayer layer rest
  end.

Definition hasSpatialLayerLocked (layer : Z) (s : StreamTrackerManager) : bool :=
  hasLayer layer (availableLayers s).

Definition HasSpatialLayer (layer : Z) (s : StreamTrackerManager) : bool :=
  hasSpatialLayerLocked layer s.

Definition GetAvailableLayers (s : StreamTrackerManager) : list Z :=
  availableLayers s.

(** The body of the loop of [SetMaxExpectedSpatialLayer], over the values
    the counter takes. *)
Fixpoint collectTrackersToReset (s : StreamTrackerManager) (layers : list Z)
    (trackersToReset : list StreamTracker) : Outcome (list StreamTracker) :=
  match layers with
  | [] => Returned trackersToReset
  | l :: rest =>
      if hasSpatialLayerLocked l s then collectTrackersToReset s rest trackersToReset
      else
        match trackerAt l s with
        | Returned (Some tracker) =>
            collectTrackersToReset s rest (trackersToReset ++ [tracker])
        | Returned None => collectTrackersToReset s rest trackersToReset
        | Panicked => Panicked
        | CounterWrapped => CounterWrapped
        end
  end.

(** The counter runs from [maxExpectedLayer + 1] up to [layer].  When
    [layer] is [maxInt32] the increment after the last iteration wraps. *)
Definition SetMaxExpectedSpatialLayer (layer : Z) (s : StreamTrackerManager)
    : Outcome StreamTrackerManager :=
  if layer <=? maxExpectedLayer s then
    Returned (set_maxExpectedLayer layer s)
  else
    let first := wrap32 (maxExpectedLayer s + 1) in
    match collectTrackersToReset s (seqZ first (layer - first + 1)) [] with
    | Returned trackersToReset =>
        if layer =? maxInt32 then CounterWrapped
        else Returned (resetAll trackersToReset (set_maxExpectedLayer layer s))
    | Panicked => Panicked
    | CounterWrapped => CounterWrapped
    end.

Definition IsReducedQuality (s : StreamTrackerManager) : bool :=
  wrap32 (Z.of_nat (length (availableLayers s))) <? wrap32 (maxExpectedLayer s + 1).

Definition addAvailableLayer (layer : Z) (s : StreamTrackerManager) : StreamTrackerManager :=
  if hasLayer layer (availableLayers s) then s
  else
    let layers := sortSlice Z.ltb (availableLayers s ++ [layer]) in
    let s1 := set_availableLayers layers s in
    match onAvailableLayersChanged s1 with
    | Some _ => deliver layers s1
    | None => s1
    end.

Definition removeAvailableLayer (layer : Z) (s : StreamTrackerManager) : StreamTrackerManager :=
  let newLayers :=
    sortSlice Z.ltb (filter (fun l => l <> layer) (availableLayers s)) in
  let s1 := set_availableLayers newLayers s in
  match onAvailableLayersChanged s1 with
  | Some _ => deliver newLayers s1
  | None => s1
  end.

(** The callback that [AddTracker] hands to the tracker of [layer]. *)
Definition statusChanged (layer : Z) (status : StreamStatus) (s : StreamTrackerManager)
    : StreamTrackerManager :=
  if bool_decide (status = StreamStatusStopped) then removeAvailableLayer layer s
  else addAvailableLayer layer s.

(** *** Runs of a manager *)

Inductive ManagerCall :=
| StatusChanged (layer : Z) (status : StreamStatus)
| SetMaxExpected (layer : Z).

Fixpoint run (calls : list ManagerCall) (s : StreamTrackerManager)
    : Outcome StreamTrackerManager :=
  match calls with
  | [] => Returned s
  | StatusChanged layer status :: rest => run rest (statusChanged layer status s)
  | SetMaxExpected layer :: rest =>
      match SetMaxExpectedSpatialLayer layer s with
      | Returned s1 => run rest s1
      | Panicked => Panicked
      | CounterWrapped => CounterWrapped
      end
  end.

(** The status most recently reported for [layer] in a run, if any. *)
Fixpoint lastStatus (calls : list ManagerCall) (layer : Z) : option StreamStatus :=
  match calls with
  | [] => None
  | call :: rest =>
      match lastStatus rest layer with
      | Some status => Some status
      | None =>
          match call with
          | StatusChanged l status => if l =? layer then Some status else None
          | SetMaxExpected _ => None
          end
      end
  end.

(** A status comes from a tracker, and a tracker sits in a slot; an
    expected layer is any [int32]. *)
Definition validCall (call : ManagerCall) : Prop :=
  match call with
  | StatusChanged layer _ => 0 <= layer <= DefaultMaxLayerSpatial
  | SetMaxExpected layer => inInt32 layer
  end.

Definition onlyStatusChanges (calls : list ManagerCall) : Prop :=
  Forall (fun call => match call with
                      | StatusChanged _ _ => True
                      | SetMaxExpected _ => False
                      end) calls.

(** *** The slots *)

Definition GetTracker (layer : Z) (s : StreamTrackerManager) : Outcome (option StreamTracker) :=
  trackerAt layer s.

(** [RemoveAllTrackers]: the copy of the array taken under the lock, the
    loop that sets every slot to nil, and the trackers on which [Stop] is
    then called, in slot order. *)
Definition RemoveAllTrackers (s : StreamTrackerManager)
    : StreamTrackerManager * list StreamTracker :=
  let copy := trackers s in
  let cleared :=
    foldl (fun ts layer => <[layer := None]> ts) (trackers s)
      (seq 0 (length (trackers s))) in
  (set_trackers cleared s, omap id copy).

(** The layers between two bounds that are all available. *)
Definition allAvailable (lo hi : Z) (s : StreamTrackerManager) : Prop :=
  forall l, lo <= l <= hi -> l ∈ availableLayers s.

(** C6 as worded, for one manager and one new bound: a bound that is not
    above the current one is stored and no tracker is reset; a bound above
    it is stored, the trackers reset are those of the layers in (old, new]
    that are not available and whose slot is not nil, and availableLayers
    is unchanged. *)
Definition resetsUnavailableLayers (layer : Z) (s : StreamTrackerManager) : Prop :=
  (layer <= maxExpectedLayer s ->
   exists s',
     SetMaxExpectedSpatialLayer layer s = Returned s'
     /\ maxExpectedLayer s' = layer
     /\ resets s' = resets s)
  /\ (maxExpectedLayer s < layer ->
      exists s' (newly : list StreamTracker),
        SetMaxExpectedSpatialLayer layer s = Returned s'
        /\ resets s' = resets s ++ newly
        /\ (forall tracker,
              tracker ∈ newly
              <-> exists l, maxExpectedLayer s < l <= layer
                            /\ (l ∉ availableLayers s)
                            /\ trackerAt l s = Returned (Some tracker))
        /\ maxExpectedLayer s' = layer
        /\ availableLayers s' = availableLayers s).


End Manager.

Arguments StreamTrackerManager : clear implicits.

(** *** Scenarios: three slots, trackers named by strings *)

Definition returned {A : Type} (o : Outcome A) (otherwise : A) : A :=
  match o with
  | Returned a => a
  | _ => otherwise
  end.

(** S3: layer 0 is active, layer 1 has a tracker that is not active, layer
    2 has no tracker, and the expected layer is 0. *)
Definition threeSlots : StreamTrackerManager string :=
  let s0 := OnAvailableLayersChanged (Some 0%nat) (NewStreamTrackerManager 2) in
  let s1 := returned (AddTracker 0 "tracker 0" s0) s0 in
  let s2 := returned (AddTracker 1 "tracker 1" s1) s1 in
  let s3 := statusChanged 0 StreamStatusActive s2 in
  returned (SetMaxExpectedSpatialLayer 0 s3) s3.

Definition fiveCalls : list ManagerCall :=
  [StatusChanged 2 StreamStatusActive; StatusChanged 0 StreamStatusActive;
   StatusChanged 1 StreamStatusActive; StatusChanged 2 StreamStatusStopped;
   SetMaxExpected 1].

End sfu.

(** ** The configuration: package [config] *)

(** The part of urfave/cli's [Context] that [updateFromCLI] reads. *)
Module cli.

Record Context := mkContext {
  IsSet : string -> bool;
  Bool : string -> bool;
  String : string -> string;
  Int : string -> Z
}.

End cli.

(** What [yaml.Unmarshal] stores in an [interface{}]. *)
Module yaml.

#[warnings="-register-all"]
Inductive Value :=
| VNull
| VBool (b : bool)
| VInt (z : Z)
| VFloat (bits : Z)
| VString (s : string)
| VSeq (items : list Value)
| VMap (entries : list (string * Value)).

End yaml.

Module config.

Definition error := string.

(** [uint32(x)] of an [int]. *)
Definition uint32 (z : Z) : Z := z mod 2 ^ 32.

(** [float32] and [float64] values are kept as their IEEE 754 bit
    patterns, [time.Duration] as nanoseconds. *)
Definition float32 := Z.
Definition float64 := Z.

Definition Millisecond : Z := 1000000.
Definition Second : Z := 1000 * Millisecond.

Definition CongestionControlProbeModePadding : string := "padding".
Definition CongestionControlProbeModeMedia : string := "media".

(** pion's [webrtc.MimeTypeOpus], [MimeTypeVP8] and [MimeTypeH264]. *)
Definition MimeTypeOpus : string := "audio/opus".
Definition MimeTypeVP8 : string := "video/VP8".
Definition MimeTypeH264 : string := "video/H264".

(** Each struct has a module of its own, so that the fields keep their
    names ([RTCConfig.UDPPort], [TURNConfig.UDPPort]). *)

Module TURNServer.
Record t := mk {
  Host : string;
  Port : Z;
  Protocol : string;
  Username : string;
  Credential : string
}.
End TURNServer.

Module PLIThrottleConfig.
Record t := mk {
  LowQuality : Z;
  MidQuality : Z;
  HighQuality : Z
}.
End PLIThrottleConfig.

Module CongestionControlConfig.
Record t := mk {
  Enabled : bool;
  AllowPause : bool;
  UseSendSideBWE : bool;
  ProbeMode : string
}.
End CongestionControlConfig.

Module RTCConfig.
Record t := mk {
  UDPPort : Z;
  TCPPort : Z;
  ICEPortRangeStart : Z;
  ICEPortRangeEnd : Z;
  NodeIP : string;
  STUNServers : list string;
  TURNServers : list TURNServer.t;
  UseExternalIP : bool;
  UseICELite : bool;
  PacketBufferSize : Z;
  MaxBitrate : Z;
  PLIThrottle : PLIThrottleConfig.t;
  CongestionControl : CongestionControlConfig.t;
  ForceTCP : bool
}.

Definition set_UDPPort (port : Z) (r : t) : t :=
  mk port (TCPPort r) (ICEPortRangeStart r) (ICEPortRangeEnd r) (NodeIP r)
    (STUNServers r) (TURNServers r) (UseExternalIP r) (UseICELite r)
    (PacketBufferSize r) (MaxBitrate r) (PLIThrottle r) (CongestionControl r)
    (ForceTCP r).

Definition set_ICEPortRangeStart (port : Z) (r : t) : t :=
  mk (UDPPort r) (TCPPort r) port (ICEPortRangeEnd r) (NodeIP r)
    (STUNServers r) (TURNServers r) (UseExternalIP r) (UseICELite r)
    (PacketBufferSize r) (MaxBitrate r) (PLIThrottle r) (CongestionControl r)
    (ForceTCP r).

Definition set_ICEPortRangeEnd (port : Z) (r : t) : t :=
  mk (UDPPort r) (TCPPort r) (ICEPortRangeStart r) port (NodeIP r)
    (STUNServers r) (TURNServers r) (UseExternalIP r) (UseICELite r)
    (PacketBufferSize r) (MaxBitrate r) (PLIThrottle r) (CongestionControl r)
    (ForceTCP r).

Definition set_NodeIP (ip : string) (r : t) : t :=
  mk (UDPPort r) (TCPPort r) (ICEPortRangeStart r) (ICEPortRangeEnd r) ip
    (STUNServers r) (TURNServers r) (UseExternalIP r) (UseICELite r)
    (PacketBufferSize r) (MaxBitrate r) (PLIThrottle r) (CongestionControl r)
    (ForceTCP r).
End RTCConfig.

Module AudioConfig.
Record t := mk {
  ActiveLevel : Z;
  MinPercentile : Z;
  UpdateInterval : Z;
  SmoothIntervals : Z
}.
End AudioConfig.

Module RedisConfig.
Record t := mk {
  Address : string;
  Username : string;
  Password : string;
  DB : Z;
  UseTLS : bool
}.

Definition set_Address (address : string) (r : t) : t :=
  mk address (Username r) (Password r) (DB r) (UseTLS r).

Definition set_Password (password : string) (r : t) : t :=
  mk (Address r) (Username r) password (DB r) (UseTLS r).
End RedisConfig.

Module CodecSpec.
Record t := mk {
  Mime : string;
  FmtpLine : string
}.
End CodecSpec.

Module RoomConfig.
Record t := mk {
  AutoCreate : bool;
  EnabledCodecs : list CodecSpec.t;
  MaxParticipants : Z;
  EmptyTimeout : Z;
  EnableRemoteUnmute : bool
}.
End RoomConfig.

Module LoggingConfig.
Record t := mk {
  JSON : bool;
  Level : string;
  Sample : bool;
  PionLevel : string
}.

Definition set_Level (level : string) (l : t) : t :=
  mk (JSON l) level (Sample l) (PionLevel l).
End LoggingConfig.

Module TURNConfig.
Record t := mk {
  Enabled : bool;
  Domain : string;
  CertFile : string;
  KeyFile : string;
  TLSPort : Z;
  UDPPort : Z;
  ExternalTLS : bool
}.

Definition set_CertFile (file : string) (c : t) : t :=
  mk (Enabled c) (Domain c) file (KeyFile c) (TLSPort c) (UDPPort c) (ExternalTLS c).

Definition set_KeyFile (file : string) (c : t) : t :=
  mk (Enabled c) (Domain c) (CertFile c) file (TLSPort c) (UDPPort c) (ExternalTLS c).
End TURNConfig.

Module WebHookConfig.
Record t := mk {
  URLs : list string;
  APIKey : string
}.
End WebHookConfig.

Module RegionConfig.
Record t := mk {
  Name : string;
  Lat : float64;
  Lon : float64
}.
End RegionConfig.

Module NodeSelectorConfig.
Record t := mk {
  Kind : string;
  SysloadLimit : float32;
  Regions : list RegionConfig.t
}.
End NodeSelectorConfig.

Module LimitConfig.
Record t := mk {
  NumTracks : Z;
  BytesPerSec : float32
}.
End LimitConfig.

Module Config.
Record t := mk {
  Port : Z;
  PrometheusPort : Z;
  RTC : RTCConfig.t;
  Redis : RedisConfig.t;
  Audio : AudioConfig.t;
  Room : RoomConfig.t;
  TURN : TURNConfig.t;
  WebHook : WebHookConfig.t;
  NodeSelector : NodeSelectorConfig.t;
  KeyFile : string;
  Keys : gmap string string;
  Region : string;
  LogLevel : string;
  Logging : LoggingConfig.t;
  Limit : LimitConfig.t;
  Development : bool
}.

Definition set_RTC (rtc : RTCConfig.t) (c : t) : t :=
  mk (Port c) (PrometheusPort c) rtc (Redis c) (Audio c) (Room c) (TURN c)
    (WebHook c) (NodeSelector c) (KeyFile c) (Keys c) (Region c) (LogLevel c)
    (Logging c) (Limit c) (Development c).

Definition set_Redis (redis : RedisConfig.t) (c : t) : t :=
  mk (Port c) (PrometheusPort c) (RTC c) redis (Audio c) (Room c) (TURN c)
    (WebHook c) (NodeSelector c) (KeyFile c) (Keys c) (Region c) (LogLevel c)
    (Logging c) (Limit c) (Development c).

Definition set_TURN (turn : TURNConfig.t) (c : t) : t :=
  mk (Port c) (PrometheusPort c) (RTC c) (Redis c) (Audio c) (Room c) turn
    (WebHook c) (NodeSelector c) (KeyFile c) (Keys c) (Region c) (LogLevel c)
    (Logging c) (Limit c) (Development c).

Definition set_KeyFile (file : string) (c : t) : t :=
  mk (Port c) (PrometheusPort c) (RTC c) (Redis c) (Audio c) (Room c) (TURN c)
    (WebHook c) (NodeSelector c) file (Keys c) (Region c) (LogLevel c)
    (Logging c) (Limit c) (Development c).

Definition set_Keys (keys : gmap string string) (c : t) : t :=
  mk (Port c) (PrometheusPort c) (RTC c) (Redis c) (Audio c) (Room c) (TURN c)
    (WebHook c) (NodeSelector c) (KeyFile c) keys (Region c) (LogLevel c)
    (Logging c) (Limit c) (Development c).

Definition set_Region (region : string) (c : t) : t :=
  mk (Port c) (PrometheusPort c) (RTC c) (Redis c) (Audio c) (Room c) (TURN c)
    (WebHook c) (NodeSelector c) (KeyFile c) (Keys c) region (LogLevel c)
    (Logging c) (Limit c) (Development c).

Definition set_Logging (logging : LoggingConfig.t) (c : t) : t :=
  mk (Port c) (PrometheusPort c) (RTC c) (Redis c) (Audio c) (Room c) (TURN c)
    (WebHook c) (NodeSelector c) (KeyFile c) (Keys c) (Region c) (LogLevel c)
    logging (Limit c) (Development c).

Definition set_Development (dev : bool) (c : t) : t :=
  mk (Port c) (PrometheusPort c) (RTC c) (Redis c) (Audio c) (Room c) (TURN c)
    (WebHook c) (NodeSelector c) (KeyFile c) (Keys c) (Region c) (LogLevel c)
    (Logging c) (Limit c) dev.
End Config.

(** The literal [NewConfig] starts from; fields it does not name have
    their zero value.  [0.9] as a [float32] is [0x3f666666]. *)
Definition defaults : Config.t :=
  Config.mk
    7880
    0
    (RTCConfig.mk 0 7881 0 0 "" [] [] false false
       500
       (10 * 1024 * 1024)
       (PLIThrottleConfig.mk (500 * Millisecond) Second Second)
       (CongestionControlConfig.mk true true false CongestionControlProbeModePadding)
       false)
    (RedisConfig.mk "" "" "" 0 false)
    (AudioConfig.mk 35 40 400 2)
    (RoomConfig.mk true
       [CodecSpec.mk MimeTypeOpus ""; CodecSpec.mk MimeTypeVP8 "";
        CodecSpec.mk MimeTypeH264 ""]
       0 (5 * 60) false)
    (TURNConfig.mk false "" "" "" 0 0 false)
    (WebHookConfig.mk [] "")
    (NodeSelectorConfig.mk "random" 0x3f666666 [])
    ""
    ∅
    ""
    ""
    (LoggingConfig.mk false "" false "error")
    (LimitConfig.mk 0 0)
    false.

Definition HasRedis (conf : Config.t) : bool :=
  bool_decide (RedisConfig.Address (Config.Redis conf) <> "").

(** The message of [updateFromCLI] has the words key: secret in double
    quotes. *)
Definition doubleQuote : string := String (Ascii.ascii_of_nat 34) EmptyString.

Definition keysMessage : string :=
  "Could not parse keys, it needs to be exactly, " +:+ doubleQuote +:+ "key: secret"
  +:+ doubleQuote +:+ ", including the space".

Section NewConfig.

(** What the package calls outside itself: [yaml.Unmarshal] into a
    [*Config] (the fields the document names are overwritten, the others
    kept) and into an empty [map[string]interface{}], [os.ExpandEnv],
    [homedir.Expand], and the method [determineIP], which is declared in
    another file of the package. *)
Variable yamlUnmarshalConfig : string -> Config.t -> error + Config.t.
Variable yamlUnmarshalMap : string -> error + gmap string yaml.Value.
Variable ExpandEnv : string -> string.
Variable homedirExpand : string -> error + string.
Variable determineIP : Config.t -> error + string.

(** The loop over [temp] puts each entry under a key of its own, so the
    order in which Go walks the map does not show. *)
Definition unmarshalKeys (keys : string) (conf : Config.t) : option error * Config.t :=
  match yamlUnmarshalMap keys with
  | inl err => (Some err, conf)
  | inr temp =>
      let collected :=
        map_fold (fun key val (acc : gmap string string) =>
                    match val with
                    | yaml.VString secret => <[key := secret]> acc
                    | _ => acc
                    end) ∅ temp in
      (None, Config.set_Keys collected conf)
  end.

Definition updateFromCLI (c : cli.Context) (conf : Config.t) : option error * Config.t :=
  let conf :=
    if cli.IsSet c "dev" then Config.set_Development (cli.Bool c "dev") conf else conf in
  let conf :=
    if cli.IsSet c "key-file" then Config.set_KeyFile (cli.String c "key-file") conf
    else conf in
  let '(err, conf) :=
    if cli.IsSet c "keys" then unmarshalKeys (cli.String c "keys") conf
    else (None, conf) in
  match err with
  | Some _ => (Some keysMessage, conf)
  | None =>
      let conf :=
        if cli.IsSet c "region" then Config.set_Region (cli.String c "region") conf
        else conf in
      let conf :=
        if cli.IsSet c "redis-host"
        then Config.set_Redis
               (RedisConfig.set_Address (cli.String c "redis-host") (Config.Redis conf)) conf
        else conf in
      let conf :=
        if cli.IsSet c "redis-password"
        then Config.set_Redis
               (RedisConfig.set_Password (cli.String c "redis-password") (Config.Redis conf))
               conf
        else conf in
      let conf :=
        if cli.IsSet c "turn-cert"
        then Config.set_TURN
               (TURNConfig.set_CertFile (cli.String c "turn-cert") (Config.TURN conf)) conf
        else conf in
      let conf :=
        if cli.IsSet c "turn-key"
        then Config.set_TURN
               (TURNConfig.set_KeyFile (cli.String c "turn-key") (Config.TURN conf)) conf
        else conf in
      let conf :=
        if cli.IsSet c "node-ip"
        then Config.set_RTC
               (RTCConfig.set_NodeIP (cli.String c "node-ip") (Config.RTC conf)) conf
        else conf in
      let conf :=
        if cli.IsSet c "udp-port"
        then Config.set_RTC
               (RTCConfig.set_UDPPort (uint32 (cli.Int c "udp-port")) (Config.RTC conf)) conf
        else conf in
      (None, conf)
  end.

(** [nil, err] is [inl err]. *)
Definition NewConfig (confString : string) (c : option cli.Context) : error + Config.t :=
  let conf := defaults in
  let parsed :=
    if bool_decide (confString <> "") then yamlUnmarshalConfig confString conf
    else inr conf in
  match parsed with
  | inl err => inl ("could not parse config: " +:+ err)
  | inr conf =>
      let '(err, conf) :=
        match c with
        | Some c => updateFromCLI c conf
        | None => (None, conf)
        end in
      match err with
      | Some err => inl err
      | None =>
          match homedirExpand (ExpandEnv (Config.KeyFile conf)) with
          | inl err => inl err
          | inr file =>
              let conf := Config.set_KeyFile file conf in
              let conf :=
                if (RTCConfig.UDPPort (Config.RTC conf) =? 0)
                   && (RTCConfig.ICEPortRangeStart (Config.RTC conf) =? 0)
                then
                  if Config.Development conf
                  then Config.set_RTC (RTCConfig.set_UDPPort 7882 (Config.RTC conf)) conf
                  else Config.set_RTC
                         (RTCConfig.set_ICEPortRangeEnd 60000
                            (RTCConfig.set_ICEPortRangeStart 50000 (Config.RTC conf)))
                         conf
                else conf in
              let located :=
                if bool_decide (RTCConfig.NodeIP (Config.RTC conf) = "")
                then
                  match determineIP conf with
                  | inl err => inl err
                  | inr ip => inr (Config.set_RTC (RTCConfig.set_NodeIP ip (Config.RTC conf)) conf)
                  end
                else inr conf in
              match located with
              | inl err => inl err
              | inr conf =>
                  let conf :=
                    if bool_decide (Config.LogLevel conf <> "")
                    then Config.set_Logging
                           (LoggingConfig.set_Level (Config.LogLevel conf) (Config.Logging conf))
                           conf
                    else conf in
                  let conf :=
                    if bool_decide (LoggingConfig.Level (Config.Logging conf) = "")
                       && Config.Development conf
                    then Config.set_Logging
                           (LoggingConfig.set_Level "debug" (Config.Logging conf)) conf
                    else conf in
                  inr conf
              end
          end
      end
  end.

End NewConfig.

(** *** Scenarios: a parser that knows three documents *)

Definition devDocument : string := "development: true".
Definition fileKeysDocument : string := "keys: {file: secret}".
Definition cliKeysDocument : string := "cli: s3cret".

Definition knownDocuments (doc : string) (conf : Config.t) : error + Config.t :=
  if bool_decide (doc = devDocument) then inr (Config.set_Development true conf)
  else if bool_decide (doc = fileKeysDocument)
       then inr (Config.set_Keys {[ "file" := "secret" ]} conf)
       else inl "yaml: unknown document".

Definition knownMaps (doc : string) : error + gmap string yaml.Value :=
  if bool_decide (doc = cliKeysDocument)
  then inr {[ "cli" := yaml.VString "s3cret"; "port" := yaml.VInt 7880 ]}
  else inl "yaml: unknown document".

Definition noEnvironment (s : string) : string := s.
Definition noHome (s : string) : error + string := inr s.
Definition localhost (conf : Config.t) : error + string := inr "127.0.0.1".

Definition sampleNewConfig : string -> option cli.Context -> error + Config.t :=
  NewConfig knownDocuments knownMaps noEnvironment noHome localhost.

(** [--keys "cli: s3cret" --region eu --udp-port 4294967296] *)
Definition sampleFlags : cli.Context :=
  cli.mkContext
    (fun name => bool_decide (name ∈ ["keys"; "region"; "udp-port"]))
    (fun _ => false)
    (fun name => if bool_decide (name = "keys") then cliKeysDocument
                 else if bool_decide (name = "region") then "eu" else "")
    (fun name => if bool_decide (name = "udp-port") then 4294967296 else 0).

(** [--node-ip ""] *)
Definition emptyNodeIPFlags : cli.Context :=
  cli.mkContext (fun name => bool_decide (name = "node-ip")) (fun _ => false)
    (fun _ => "") (fun _ => 0).

(** What [sampleNewConfig] returns for the development document alone,
    for the document with keys together with the sample flags, and for an
    empty node address on the command line. *)
Definition devConfig : Config.t :=
  Eval vm_compute in
    match sampleNewConfig devDocument None with
    | inr conf => conf
    | inl _ => defaults
    end.

Definition flagsConfig : Config.t :=
  Eval vm_compute in
    match sampleNewConfig fileKeysDocument (Some sampleFlags) with
    | inr conf => conf
    | inl _ => defaults
    end.

Definition detectedConfig : Config.t :=
  Eval vm_compute in
    match sampleNewConfig "" (Some emptyNodeIPFlags) with
    | inr conf => conf
    | inl _ => defaults
    end.

End config.


(** * Lemmas and theorems *)

Lemma wrap32_id z : inInt32 z -> wrap32 z = z.
Proof.
  unfold inInt32, minInt32, maxInt32, wrap32. intros Hz.
  rewrite Z.mod_small; lia.
Qed.

Lemma wrap32_range z : inInt32 (wrap32 z).
Proof.
  unfold inInt32, minInt32, maxInt32, wrap32.
  pose proof (Z.mod_pos_bound (z + 2 ^ 31) (2 ^ 32) ltac:(lia)). lia.
Qed.

(** ** The transport *)

Module rtc_theory.
Import webrtc rtc.

Section Transport.
Context {PC : Type} `{PeerConnection PC}.
Implicit Types t : PCTransport PC.

(** *** Lemmas: what each step does to the trace and to the fields *)

Lemma sameFields_refl t : sameFields t t.
Proof. repeat split. Qed.

Lemma sameFields_trans t1 t2 t3 : sameFields t1 t2 -> sameFields t2 t3 -> sameFields t1 t3.
Proof. unfold sameFields. intuition congruence. Qed.

Lemma sameFields_logCall p ev t : sameFields t (logCall p ev t).
Proof. repeat split. Qed.

Lemma call_AddICECandidate_trace c t r t' :
  call_AddICECandidate c t = (r, t') ->
  pcTrace t' = pcTrace t ++ [(CallAddICECandidate c, r)] /\ sameFields t t'.
Proof.
  unfold call_AddICECandidate. destruct (pc_AddICECandidate c (pc t)) as [r0 p].
  intros [= <- <-]. split; [done | apply sameFields_logCall].
Qed.

Lemma call_SetRemoteDescription_trace sd t r t' :
  call_SetRemoteDescription sd t = (r, t') ->
  pcTrace t' = pcTrace t ++ [(CallSetRemoteDescription sd, r)]
  /\ sameFields t t'
  /\ (r, pc t') = pc_SetRemoteDescription sd (pc t).
Proof.
  unfold call_SetRemoteDescription. destruct (pc_SetRemoteDescription sd (pc t)) as [r0 p].
  intros [= <- <-]. split; [done | split; [apply sameFields_logCall | done]].
Qed.

Lemma applyPending_trace cs : forall t r t',
  applyPending cs t = (r, t') ->
  sameFields t t'
  /\ match r with
     | None => pcTrace t' = pcTrace t ++ map appliedOk cs
     | Some err =>
         exists done c rest,
           cs = done ++ c :: rest
           /\ pcTrace t' = pcTrace t ++ map appliedOk done ++ [(CallAddICECandidate c, Some err)]
     end.
Proof.
  induction cs as [|c cs IH]; intros t r t' Hrun; simpl in Hrun.
  - injection Hrun as <- <-. split; [apply sameFields_refl | by rewrite app_nil_r].
  - destruct (call_AddICECandidate c t) as [[err|] t1] eqn:Hcall;
      apply call_AddICECandidate_trace in Hcall as [Htr Hsame].
    + injection Hrun as <- <-. split; [done|].
      exists [], c, cs. by rewrite Htr.
    + apply IH in Hrun as [Hsame' Hr]. split; [by eapply sameFields_trans|].
      destruct r as [err|].
      * destruct Hr as (done & c' & rest & -> & ->).
        exists (c :: done), c', rest. split; [done|].
        rewrite Htr. by rewrite <- !app_assoc.
      * rewrite Hr, Htr. by rewrite <- app_assoc.
Qed.

(** The four ways [createOfferAndSend] can end. *)
Lemma createOfferAndSend_cases options t r t' :
  createOfferAndSend options t = (r, t') ->
  (exists err, r = Some err
     /\ pcTrace t' = pcTrace t ++ [(CallCreateOffer options, Some err)]
     /\ sameFields t t')
  \/ (exists offer err, r = Some err
     /\ pcTrace t' = pcTrace t ++ [(CallCreateOffer options, None);
                                   (CallSetLocalDescription offer, Some err)]
     /\ sameFields t t')
  \/ (exists offer, r = None
     /\ pcTrace t' = pcTrace t ++ [(CallCreateOffer options, None);
                                   (CallSetLocalDescription offer, None)]
     /\ offersSent t' = offersSent t ++ [offer]
     /\ negotiationState t' = negotiationStateClient
     /\ restartAfterGathering t' = false
     /\ transceiverCodecs t' =
          recordTransceiverCodecs (GetTransceivers (pc t')) (transceiverCodecs t)
     /\ pendingCandidates t' = pendingCandidates t
     /\ onOffer t' = onOffer t).
Proof.
  unfold createOfferAndSend, call_CreateOffer, call_SetLocalDescription.
  destruct (pc_CreateOffer options (pc t)) as [[err|offer] p1]; simpl.
  - intros [= <- <-]. left. exists err. repeat split.
  - destruct (pc_SetLocalDescription offer p1) as [[err|] p2]; simpl.
    + intros [= <- <-]. right; left. exists offer, err. simpl.
      repeat split. by rewrite <- app_assoc.
    + intros [= <- <-]. right; right. exists offer. simpl.
      repeat split. by rewrite <- app_assoc.
Qed.

Lemma createAndSendOffer_outcome options t r t' :
  createAndSendOffer options t = (r, t') -> OfferOutcome options t r t'.
Proof.
  unfold createAndSendOffer.
  destruct (onOffer t) as [f|] eqn:Hf; [|intros [= <- <-]; constructor; auto].
  case_bool_decide as Hclosed; [intros [= <- <-]; constructor; auto|].
  destruct (isICERestart options) eqn:Hrestart; simpl.
  - case_bool_decide as Hgather.
    + intros [= <- <-]. apply OfferDeferred; congruence.
    + destruct (negotiationState t) eqn:Hstate.
      * intros Hrun. eapply OfferFromIdle; eauto. congruence.
      * destruct (CurrentRemoteDescription (pc t)) as [currentSD|] eqn:Hcur.
        -- destruct (call_SetRemoteDescription currentSD t) as [[err|] t1] eqn:Hcall.
           ++ intros [= <- <-]. eapply OfferRecoveryFailed; eauto.
           ++ intros Hrun. eapply OfferAfterRecovery; eauto.
        -- intros [= <- <-]. apply OfferDemoted; try congruence.
           intros [_ Hne]. congruence.
      * intros [= <- <-]. constructor; auto.
  - destruct (negotiationState t) eqn:Hstate.
    + intros Hrun. eapply OfferFromIdle; eauto. congruence.
    + intros [= <- <-]. apply OfferDemoted; try congruence.
      intros [Hr _]. congruence.
    + intros [= <- <-]. constructor; auto.
Qed.

(** The trace only grows, and an offer goes out only at the end of a
    [createOfferAndSend] that succeeded. *)
Lemma createAndSendOffer_trace options t r t' :
  createAndSendOffer options t = (r, t') ->
  exists evs, pcTrace t' = pcTrace t ++ evs
    /\ attempted evs = []
    /\ pendingCandidates t' = pendingCandidates t
    /\ onOffer t' = onOffer t.
Proof.
  intros Hrun. apply createAndSendOffer_outcome in Hrun.
  destruct Hrun as [ | | | sd err t1 _ _ _ Hcall | sd t1 r t' _ _ _ Hcall Hoffer
                     | r t' _ _ _ Hoffer ].
  - exists []. by rewrite app_nil_r.
  - exists []. by rewrite app_nil_r.
  - exists []. by rewrite app_nil_r.
  - apply call_SetRemoteDescription_trace in Hcall as (Htr & Hsame & _).
    eexists. split; [exact Htr|]. unfold sameFields in Hsame. by intuition.
  - apply call_SetRemoteDescription_trace in Hcall as (Htr & Hsame & _).
    unfold sameFields in Hsame.
    apply createOfferAndSend_cases in Hoffer
      as [(e & _ & Htr' & Hs)|[(o & e & _ & Htr' & Hs)|(o & _ & Htr' & _ & _ & _ & _ & Hp & Ho)]];
      try unfold sameFields in Hs;
      (eexists; split; [rewrite Htr', Htr, <- app_assoc; reflexivity|]);
      split; try done; split; intuition congruence.
  - apply createOfferAndSend_cases in Hoffer
      as [(e & _ & Htr' & Hs)|[(o & e & _ & Htr' & Hs)|(o & _ & Htr' & _ & _ & _ & _ & Hp & Ho)]];
      try unfold sameFields in Hs;
      (eexists; split; [exact Htr'|]);
      split; try done; split; intuition congruence.
Qed.

(** An offer that went out left the state at [negotiationStateClient] and
    the restart flag cleared. *)
Lemma offer_sent_state options t r t' :
  createAndSendOffer options t = (r, t') ->
  offersSent t' <> offersSent t ->
  r = None
  /\ negotiationState t' = negotiationStateClient
  /\ restartAfterGathering t' = false
  /\ (exists offer, offersSent t' = offersSent t ++ [offer])
  /\ (negotiationState t = negotiationStateClient ->
      isICERestart options = true /\ CurrentRemoteDescription (pc t) <> None).
Proof.
  intros Hrun Hsent. apply createAndSendOffer_outcome in Hrun.
  destruct Hrun as [ | | | sd err t1 _ _ _ Hcall | sd t1 r t' Hst Hre Hcur Hcall Hoffer
                     | r t' _ _ Hst Hoffer ]; try done.
  - apply call_SetRemoteDescription_trace in Hcall as (_ & Hsame & _).
    unfold sameFields in Hsame. destruct Hsent. by intuition.
  - apply call_SetRemoteDescription_trace in Hcall as (_ & Hsame & _).
    unfold sameFields in Hsame.
    apply createOfferAndSend_cases in Hoffer
      as [(e & _ & _ & Hs)|[(o & e & _ & _ & Hs)|(o & -> & _ & Ho & Hn & Hf & _)]].
    + unfold sameFields in Hs. destruct Hsent. intuition congruence.
    + unfold sameFields in Hs. destruct Hsent. intuition congruence.
    + repeat split; try done.
      * exists o. rewrite Ho. intuition congruence.
      * congruence.
  - apply createOfferAndSend_cases in Hoffer
      as [(e & _ & _ & Hs)|[(o & e & _ & _ & Hs)|(o & -> & _ & Ho & Hn & Hf & _)]].
    + unfold sameFields in Hs. destruct Hsent. by intuition.
    + unfold sameFields in Hs. destruct Hsent. by intuition.
    + repeat split; try done; [by exists o | congruence | congruence].
Qed.

Lemma createOfferAndSend_trace options t r t' :
  createOfferAndSend options t = (r, t') ->
  exists evs, pcTrace t' = pcTrace t ++ evs.
Proof.
  intros Hoffer.
  apply createOfferAndSend_cases in Hoffer
    as [(e & _ & Htr & _)|[(o & e & _ & Htr & _)|(o & _ & Htr & _)]];
    eexists; exact Htr.
Qed.

(** C9.  On a transport whose peer connection is Closed, every
    negotiation attempt returns success and leaves the transport as it was:
    no offer goes out, no call reaches the peer connection, and neither the
    negotiation state nor any other field changes. *)
Theorem closed_transport_offer_is_noop (options : option OfferOptions) (t : PCTransport PC) :
  ConnectionState (pc t) = PeerConnectionStateClosed ->
  createAndSendOffer options t = (None, t).
Proof.
  intros Hclosed. unfold createAndSendOffer.
  destruct (onOffer t) as [handler|]; [|reflexivity].
  rewrite bool_decide_eq_true_2 by exact Hclosed.
  reflexivity.
Qed.

(** C8.  When CreateOffer or SetLocalDescription fails inside
    createAndSendOffer, that error is what the call returns, and the
    negotiation state, the restart-after-gathering flag and the offers
    sent are what they were before the call. *)
Theorem offer_failure_keeps_state (options : option OfferOptions) (t t' : PCTransport PC)
    (r : option error) (evs : list PCEvent) (call : PCCall) (err : error) :
  createAndSendOffer options t = (r, t') ->
  pcTrace t' = pcTrace t ++ evs ->
  isOfferCall call ->
  (call, Some err) ∈ evs ->
  r = Some err
  /\ negotiationState t' = negotiationState t
  /\ restartAfterGathering t' = restartAfterGathering t
  /\ offersSent t' = offersSent t.
Proof.
  intros Hrun Htrace Hcall Hin. apply createAndSendOffer_outcome in Hrun.
  assert (Hfail : forall t0 r0 t0' evs0,
             createOfferAndSend options t0 = (r0, t0') ->
             pcTrace t0' = pcTrace t0 ++ evs0 ->
             (call, Some err) ∈ evs0 ->
             r0 = Some err /\ sameFields t0 t0').
  { intros t0 r0 t0' evs0 Hoffer Htr0 Hin0.
    apply createOfferAndSend_cases in Hoffer
      as [(e & -> & Htr' & Hs)|[(o & e & -> & Htr' & Hs)|(o & -> & Htr' & _)]];
      rewrite Htr0 in Htr'; apply app_inv_head in Htr'; subst evs0;
      repeat (apply elem_of_cons in Hin0 as [Hin0|Hin0]; [simplify_eq|]);
      try (by apply elem_of_nil in Hin0); done. }
  destruct Hrun as [ | | | sd e t1 _ _ _ Hsrd | sd t1 r t' _ _ _ Hsrd Hoffer
                     | r t' _ _ _ Hoffer ].
  - rewrite <- (app_nil_r (pcTrace t)) in Htrace at 1.
    apply app_inv_head in Htrace. subst evs. by apply elem_of_nil in Hin.
  - simpl in Htrace. rewrite <- (app_nil_r (pcTrace t)) in Htrace at 1.
    apply app_inv_head in Htrace. subst evs. by apply elem_of_nil in Hin.
  - simpl in Htrace. rewrite <- (app_nil_r (pcTrace t)) in Htrace at 1.
    apply app_inv_head in Htrace. subst evs. by apply elem_of_nil in Hin.
  - apply call_SetRemoteDescription_trace in Hsrd as (Htr & _ & _).
    rewrite Htrace in Htr. apply app_inv_head in Htr. subst evs.
    apply list_elem_of_singleton in Hin. injection Hin as -> _. destruct Hcall.
  - apply call_SetRemoteDescription_trace in Hsrd as (Htr & Hsame & _).
    destruct (createOfferAndSend_trace options t1 r t' Hoffer) as [evs1 Htr1].
    rewrite Htr1, Htr, <- app_assoc in Htrace. apply app_inv_head in Htrace. subst evs.
    simpl in Hin. apply elem_of_cons in Hin as [Hin|Hin].
    { injection Hin as -> _. destruct Hcall. }
    destruct (Hfail _ _ _ _ Hoffer Htr1 Hin) as [-> Hsame1].
    pose proof (sameFields_trans _ _ _ Hsame Hsame1) as Hs.
    unfold sameFields in Hs. by intuition.
  - destruct (Hfail _ _ _ _ Hoffer Htrace Hin) as [-> Hs].
    unfold sameFields in Hs. by intuition.
Qed.

(** C3 (amended).  While the state is AwaitingClient an offer goes out
    only through the ICE-restart override (an ICE restart with a current
    remote description).  On a transport with an offer handler whose peer
    connection is not Closed, and for a request that is not an ICE restart
    made while ICE gathering is in progress: in AwaitingClient, unless the
    request is an ICE restart with a current remote description, no offer
    is emitted, nothing is called on the peer connection and the state
    becomes RetryPending (so also for an ICE restart without a current
    remote description).  In RetryPending the attempt returns success with
    the negotiation state, the offers and the trace unchanged, and with the
    whole transport unchanged unless it is an ICE restart during gathering. *)
Theorem awaiting_client_offer_is_demoted (options : option OfferOptions) (t : PCTransport PC) :
  (negotiationState t = negotiationStateClient ->
   offersSent (createAndSendOffer options t).2 <> offersSent t ->
   isICERestart options = true /\ CurrentRemoteDescription (pc t) <> None)
  /\ (onOffer t <> None ->
      ConnectionState (pc t) <> PeerConnectionStateClosed ->
      ~ (isICERestart options = true
         /\ ICEGatheringState_ (pc t) = ICEGatheringStateGathering) ->
      negotiationState t = negotiationStateClient ->
      ~ (isICERestart options = true /\ CurrentRemoteDescription (pc t) <> None) ->
      createAndSendOffer options t = (None, set_negotiationState negotiationRetry t))
  /\ (negotiationState t = negotiationRetry ->
      exists t', createAndSendOffer options t = (None, t')
        /\ negotiationState t' = negotiationRetry
        /\ offersSent t' = offersSent t
        /\ pcTrace t' = pcTrace t
        /\ (~ (isICERestart options = true
               /\ ICEGatheringState_ (pc t) = ICEGatheringStateGathering) -> t' = t)).
Proof.
  split; [|split].
  - intros Hstate Hsent.
    destruct (createAndSendOffer options t) as [r t'] eqn:Hrun.
    by apply (offer_sent_state _ _ _ _ Hrun Hsent).
  - intros Hhandler Hopen Hnodefer Hstate Hnooverride.
    destruct (createAndSendOffer options t) as [r t'] eqn:Hrun.
    apply createAndSendOffer_outcome in Hrun.
    destruct Hrun as [ [?|[?|?]] | | | sd err t1 _ Hre Hcur | sd t1 r t' _ Hre Hcur
                       | r t' _ _ Hst ]; try congruence.
    + destruct Hnodefer. by split.
    + destruct Hnooverride. split; [done | congruence].
    + destruct Hnooverride. split; [done | congruence].
  - intros Hstate. unfold createAndSendOffer.
    destruct (onOffer t) as [handler|]; [|by exists t; repeat split].
    case_bool_decide; [by exists t; repeat split|].
    destruct (isICERestart options) eqn:Hre; simpl.
    + case_bool_decide as Hg.
      * exists (set_restartAfterGathering true t). repeat split; try done.
        intros Hno. destruct Hno. by split.
      * rewrite Hstate. by exists t; repeat split.
    + rewrite Hstate. by exists t; repeat split.
Qed.

(** C4 (amended).  An ICE-restart request made while ICE gathering is in
    progress never emits an offer; on a transport with an offer handler
    whose peer connection is not Closed it sets restart_after_gathering and
    changes nothing else.  When the peer connection signals gathering
    complete and the flag is set, the offer path runs with ICERestart true.
    Every offer that is emitted leaves the flag cleared. *)
Theorem ice_restart_waits_for_gathering (options : option OfferOptions) (t : PCTransport PC) :
  (isICERestart options = true ->
   ICEGatheringState_ (pc t) = ICEGatheringStateGathering ->
   offersSent (createAndSendOffer options t).2 = offersSent t)
  /\ (onOffer t <> None ->
      ConnectionState (pc t) <> PeerConnectionStateClosed ->
      isICERestart options = true ->
      ICEGatheringState_ (pc t) = ICEGatheringStateGathering ->
      createAndSendOffer options t = (None, set_restartAfterGathering true t))
  /\ (restartAfterGathering t = true ->
      onICEGatheringStateChange ICEGathererStateComplete t
      = (createAndSendOffer (Some (mkOfferOptions true)) t).2)
  /\ (offersSent (createAndSendOffer options t).2 <> offersSent t ->
      restartAfterGathering (createAndSendOffer options t).2 = false).
Proof.
  assert (Hdefer : isICERestart options = true ->
                   ICEGatheringState_ (pc t) = ICEGatheringStateGathering ->
                   createAndSendOffer options t = (None, t)
                   \/ (onOffer t <> None
                       /\ ConnectionState (pc t) <> PeerConnectionStateClosed
                       /\ createAndSendOffer options t
                          = (None, set_restartAfterGathering true t))).
  { intros Hre Hg. unfold createAndSendOffer.
    destruct (onOffer t) as [handler|]; [|by left].
    case_bool_decide as Hclosed; [by left|].
    rewrite Hre, bool_decide_eq_true_2 by exact Hg. right. by repeat split. }
  split; [|split; [|split]].
  - intros Hre Hg. by destruct (Hdefer Hre Hg) as [->|(_ & _ & ->)].
  - intros Hhandler Hopen Hre Hg. unfold createAndSendOffer.
    destruct (onOffer t) as [handler|]; [|done].
    rewrite bool_decide_eq_false_2 by exact Hopen.
    by rewrite Hre, bool_decide_eq_true_2 by exact Hg.
  - intros Hflag. unfold onICEGatheringStateChange.
    rewrite bool_decide_eq_true_2 by reflexivity. by rewrite Hflag.
  - intros Hsent.
    destruct (createAndSendOffer options t) as [r t'] eqn:Hrun.
    by apply (offer_sent_state _ _ _ _ Hrun Hsent).
Qed.

(** *** GetTransceiverForSending *)

(** What an offer records for a mid: the codecs of the last transceiver
    with that mid whose sender has a track; a mid without such a
    transceiver keeps what was recorded before. *)
Lemma recordTransceiverCodecs_other transceivers : forall m mid,
  Forall (fun tr => Mid tr = mid ->
                    forall sender, Sender tr = Some sender -> Track sender = None)
    transceivers ->
  recordTransceiverCodecs transceivers m !! mid = m !! mid.
Proof.
  induction transceivers as [|tr rest IH]; intros m mid Hnone; simpl; [done|].
  apply Forall_cons in Hnone as [Htr Hrest].
  destruct (Sender tr) as [sender|] eqn:Hsender; [|by apply IH].
  destruct (Track sender) as [track|] eqn:Htrack; [|by apply IH].
  rewrite IH by done. apply lookup_insert_ne. intros Hmid.
  specialize (Htr Hmid sender eq_refl). congruence.
Qed.

Lemma recordTransceiverCodecs_last before : forall m tr sender track after,
  Sender tr = Some sender ->
  Track sender = Some track ->
  Forall (fun tr' => Mid tr' = Mid tr ->
                     forall s, Sender tr' = Some s -> Track s = None) after ->
  recordTransceiverCodecs (before ++ tr :: after) m !! Mid tr
  = Some (map Capability (Codecs sender)).
Proof.
  induction before as [|tr0 before IH]; intros m tr sender track after Hsender Htrack Hafter;
    simpl.
  - rewrite Hsender, Htrack, recordTransceiverCodecs_other by done.
    apply lookup_insert_eq.
  - destruct (Sender tr0) as [s0|]; [|by eapply IH].
    destruct (Track s0); by eapply IH.
Qed.


Lemma codecMatches_spec codec params :
  codecMatches codec params = true
  <-> exists p, p ∈ params /\ MimeType p = MimeType codec.
Proof.
  induction params as [|p params IH]; simpl.
  - split; [done | intros (p & Hp & _); by apply elem_of_nil in Hp].
  - case_bool_decide as Hmime.
    + split; [|done]. intros _. exists p. split; [left | done].
    + rewrite IH. split.
      * intros (q & Hq & Hm). exists q. split; [by right | done].
      * intros (q & Hq & Hm). apply elem_of_cons in Hq as [->|Hq]; [done|].
        by exists q.
Qed.

Lemma usableForSending_dec track codec t transceiver :
  usableForSending track codec t transceiver
  <-> Kind transceiver = TrackKind track
      /\ (exists sender, Sender transceiver = Some sender /\ Track sender = None)
      /\ codecMatches codec (codecsOfMid (Mid transceiver) t) = true.
Proof. unfold usableForSending. by rewrite codecMatches_spec. Qed.

Lemma firstTransceiverForSending_spec track codec t transceivers :
  match firstTransceiverForSending track codec t transceivers with
  | Some found =>
      exists before after,
        transceivers = before ++ found :: after
        /\ usableForSending track codec t found
        /\ Forall (fun x => ~ usableForSending track codec t x) before
  | None => Forall (fun x => ~ usableForSending track codec t x) transceivers
  end.
Proof.
  induction transceivers as [|tr rest IH]; simpl; [by constructor|].
  assert (Hskip : ~ usableForSending track codec t tr ->
    match firstTransceiverForSending track codec t rest with
    | Some found =>
        exists before after,
          tr :: rest = before ++ found :: after
          /\ usableForSending track codec t found
          /\ Forall (fun x => ~ usableForSending track codec t x) before
    | None => Forall (fun x => ~ usableForSending track codec t x) (tr :: rest)
    end).
  { intros Hno. destruct (firstTransceiverForSending track codec t rest) as [found|].
    - destruct IH as (before & after & -> & Hok & Hbefore).
      exists (tr :: before), after. split; [done|]. split; [done | by constructor].
    - by constructor. }
  case_bool_decide as Hkind.
  { apply Hskip. rewrite usableForSending_dec. intros [Hk _]. done. }
  destruct (Sender tr) as [sender|] eqn:Hsender.
  2:{ apply Hskip. rewrite usableForSending_dec.
      intros (_ & (s & Hs & _) & _). congruence. }
  destruct (Track sender) as [carried|] eqn:Htrack.
  { apply Hskip. rewrite usableForSending_dec.
    intros (_ & (s & Hs & Hnone) & _). congruence. }
  destruct (codecMatches codec (codecsOfMid (Mid tr) t)) eqn:Hcodec.
  - exists [], rest. split; [done|]. split; [|by constructor].
    rewrite usableForSending_dec. split; [|split; [by exists sender | done]].
    by destruct (decide (Kind tr = TrackKind track)).
  - apply Hskip. rewrite usableForSending_dec. intros (_ & _ & Hm). congruence.
Qed.

(** C5.  GetTransceiverForSending returns the first transceiver, in the
    peer connection's order, whose kind is the track's kind, whose sender
    exists and carries no track, and whose recorded codec list for its mid
    has an entry with the wanted MimeType; every transceiver before it fails
    one of the three conditions; when no transceiver meets all three the
    result is nil. *)
Theorem GetTransceiverForSending_first_match (track : TrackLocal)
    (codec : RTPCodecCapability) (t : PCTransport PC) :
  match GetTransceiverForSending track codec t with
  | Some found =>
      exists before after,
        GetTransceivers (pc t) = before ++ found :: after
        /\ usableForSending track codec t found
        /\ Forall (fun x => ~ usableForSending track codec t x) before
  | None =>
      Forall (fun x => ~ usableForSending track codec t x) (GetTransceivers (pc t))
  end.
Proof.
  unfold GetTransceiverForSending.
  pose proof (firstTransceiverForSending_spec track codec t (GetTransceivers (pc t))) as Hspec.
  destruct (firstTransceiverForSending track codec t (GetTransceivers (pc t))); exact Hspec.
Qed.

Lemma SetRemoteDescription_outcome sd t r t' :
  SetRemoteDescription sd t = (r, t') -> RemoteOutcome sd t r t'.
Proof.
  unfold SetRemoteDescription.
  destruct (call_SetRemoteDescription sd t) as [[err|] t1] eqn:Hcall;
    apply call_SetRemoteDescription_trace in Hcall as (Htr & Hsame & Hpc).
  - intros [= <- <-]. by constructor.
  - assert (Haccept : (pc_SetRemoteDescription sd (pc t)).1 = None) by by rewrite <- Hpc.
    unfold sameFields in Hsame. destruct Hsame as (Hc & Hp & Ho & Hf & Hn & Hs).
    destruct (applyPending (pendingCandidates (set_negotiationState negotiationStateNone t1))
                (set_negotiationState negotiationStateNone t1)) as [[err|] t3] eqn:Hdrain;
      apply applyPending_trace in Hdrain as [Hsame3 Hr]; simpl in *;
      unfold sameFields in Hsame3; simpl in Hsame3;
      destruct Hsame3 as (Hc3 & Hp3 & Ho3 & Hf3 & Hn3 & Hs3).
    + intros [= <- <-]. destruct Hr as (done & c & rest & Hsplit & Htr3).
      eapply RemoteDrainFailed; try done.
      * by rewrite <- Hp, Hsplit.
      * by rewrite Htr3, Htr, <- app_assoc.
      * congruence.
      * congruence.
    + intros Hend.
      assert (r = None) as -> by (by destruct (_ && _); injection Hend as <-).
      eapply (RemoteDrained sd t (set_pendingCandidates [] t3)); simpl; try congruence.
      * by rewrite Hr, Htr, <- app_assoc, Hp.
      * rewrite <- Hn. by destruct (_ && _); injection Hend as <-.
Qed.


Lemma attempted_appliedOk cs : attempted (map appliedOk cs) = cs.
Proof. induction cs as [|c cs IH]; simpl; [done | by rewrite IH]. Qed.

Lemma applied_appliedOk cs : applied (map appliedOk cs) = cs.
Proof. induction cs as [|c cs IH]; simpl; [done | by rewrite IH]. Qed.

Lemma accepted_appliedOk cs : accepted (map appliedOk cs) = [].
Proof. induction cs as [|c cs IH]; simpl; done. Qed.

Lemma applied_no_attempt evs : attempted evs = [] -> applied evs = [].
Proof.
  induction evs as [|[call r] evs IH]; [done|].
  destruct call; simpl; [exact IH | discriminate | exact IH | exact IH].
Qed.

Lemma accepted_grows trace sd rest :
  accepted (trace ++ (CallSetRemoteDescription sd, None) :: rest) <> accepted trace.
Proof.
  intros Heq. apply (f_equal length) in Heq.
  unfold accepted in Heq. rewrite omap_app, length_app in Heq. simpl in Heq. lia.
Qed.

Lemma AddICECandidate_buffers c t :
  RemoteDescription (pc t) = None ->
  AddICECandidate c t = (None, set_pendingCandidates (pendingCandidates t ++ [c]) t).
Proof. intros Hnone. unfold AddICECandidate. by rewrite Hnone. Qed.

Lemma SetRemoteDescription_trace sd t r t' :
  SetRemoteDescription sd t = (r, t') ->
  exists evs, pcTrace t' = pcTrace t ++ evs.
Proof.
  intros Hrun. apply SetRemoteDescription_outcome in Hrun.
  destruct Hrun as [ err t' _ Htr _ | err t' done c rest _ _ Htr _ _ _
                     | t1 t' _ Htr _ _ _ _ _ _ Hend ].
  - eexists. exact Htr.
  - eexists. exact Htr.
  - destruct (_ && _) in Hend; subst t'; [|eexists; exact Htr].
    destruct (createAndSendOffer None t1) as [r2 t2] eqn:Hoffer.
    apply createAndSendOffer_trace in Hoffer as (evs & Htr2 & _). simpl.
    eexists. by rewrite Htr2, Htr, <- app_assoc.
Qed.

Lemma signals_trace calls : forall t rs t',
  signals calls t = (rs, t') -> exists evs, pcTrace t' = pcTrace t ++ evs.
Proof.
  induction calls as [|call calls IH]; intros t rs t' Hrun; simpl in Hrun.
  - injection Hrun as <- <-. exists []. by rewrite app_nil_r.
  - destruct (signal call t) as [r t1] eqn:Hstep.
    destruct (signals calls t1) as [rs1 t2] eqn:Hrest.
    injection Hrun as <- <-.
    apply IH in Hrest as [evs2 Htr2].
    assert (exists evs1, pcTrace t1 = pcTrace t ++ evs1) as [evs1 Htr1].
    { destruct call as [c|sd]; simpl in Hstep.
      - unfold AddICECandidate in Hstep. destruct (RemoteDescription (pc t)).
        + apply call_AddICECandidate_trace in Hstep as [Htr _]. eexists. exact Htr.
        + injection Hstep as <- <-. exists []. simpl. by rewrite app_nil_r.
      - by eapply SetRemoteDescription_trace. }
    eexists. by rewrite Htr2, Htr1, <- app_assoc.
Qed.

(** Until the peer connection accepts a description, every submitted
    candidate sits in the queue and none has reached the peer connection. *)
Lemma signals_before_first_accept
    (Hrejects : forall sd p err p',
       RemoteDescription p = None ->
       pc_SetRemoteDescription sd p = (Some err, p') ->
       RemoteDescription p' = None)
    calls : forall t rs t',
  RemoteDescription (pc t) = None ->
  signals calls t = (rs, t') ->
  accepted (pcTrace t') = accepted (pcTrace t) ->
  RemoteDescription (pc t') = None
  /\ pendingCandidates t' = pendingCandidates t ++ submitted calls
  /\ attempted (pcTrace t') = attempted (pcTrace t)
  /\ addsSucceeded calls rs.
Proof.
  induction calls as [|call calls IH]; intros t rs t' Hnone Hrun Hacc; simpl in Hrun.
  - injection Hrun as <- <-. rewrite app_nil_r. repeat split; try done. constructor.
  - destruct (signal call t) as [r t1] eqn:Hstep.
    destruct (signals calls t1) as [rs1 t2] eqn:Hrest.
    injection Hrun as <- <-.
    destruct (signals_trace _ _ _ _ Hrest) as [evs2 Htr2].
    destruct call as [c|sd]; simpl in Hstep.
    + rewrite AddICECandidate_buffers in Hstep by done.
      injection Hstep as <- <-.
      destruct (IH (set_pendingCandidates (pendingCandidates t ++ [c]) t) _ _ Hnone Hrest Hacc)
        as (Hn & Hp & Ha & Hr).
      simpl in *. repeat split; try done.
      * by rewrite Hp, <- app_assoc.
      * by constructor.
    + apply SetRemoteDescription_outcome in Hstep.
      destruct Hstep as [ err t1 Hpc Htr Hsame | err t1 done c rest _ _ Htr _ _ _
                          | t0 t1 _ Htr _ _ _ _ _ _ Hend ].
      * assert (Hnone1 : RemoteDescription (pc t1) = None)
          by (eapply Hrejects; [exact Hnone | by rewrite <- Hpc]).
        assert (Hacc1 : accepted (pcTrace t1) = accepted (pcTrace t)).
        { unfold accepted. rewrite Htr, omap_app. simpl. by rewrite app_nil_r. }
        rewrite <- Hacc1 in Hacc.
        destruct (IH _ _ _ Hnone1 Hrest Hacc) as (Hn & Hp & Ha & Hr).
        unfold sameFields in Hsame. destruct Hsame as (_ & Hp1 & _).
        repeat split; try done.
        -- simpl. by rewrite Hp, Hp1.
        -- rewrite Ha. unfold attempted. rewrite Htr, omap_app. simpl.
           by rewrite app_nil_r.
        -- by constructor.
      * exfalso. rewrite Htr2, Htr, <- app_assoc in Hacc. simpl in Hacc.
        by apply accepted_grows in Hacc.
      * exfalso.
        assert (exists evs, pcTrace t1 = pcTrace t0 ++ evs) as [evs1 Htr1].
        { destruct (_ && _) in Hend; subst t1; [|exists []; by rewrite app_nil_r].
          destruct (createAndSendOffer None t0) as [r2 t3] eqn:Hoffer.
          apply createAndSendOffer_trace in Hoffer as (evs & Htr3 & _).
          by exists evs. }
        rewrite Htr2, Htr1, Htr, <- !app_assoc in Hacc. simpl in Hacc.
        by apply accepted_grows in Hacc.
Qed.

(** C1 (amended).  A candidate submitted while the peer connection has no
    remote description is appended to the queue and AddICECandidate returns
    nil without calling the peer connection.  On a fresh transport, up to
    the first SetRemoteDescription whose description the peer connection
    accepts, every submitted candidate is in the queue, in submission
    order, and none has reached the peer connection.  That call applies
    them right after the description, in submission order.  If it returns
    nil, each was applied exactly once and the queue is empty.  If applying
    one fails, that error is returned, the candidates before it were applied
    once each, and the ones after it are not attempted in that call. *)
Theorem candidates_buffered_then_drained (p : PC) (before : list SignalCall)
    (sd : SessionDescription) (r : option error) (t2 : PCTransport PC) :
  (forall sd0 p0 err p1,
     RemoteDescription p0 = None ->
     pc_SetRemoteDescription sd0 p0 = (Some err, p1) ->
     RemoteDescription p1 = None) ->
  RemoteDescription p = None ->
  accepted (pcTrace (signals before (NewPCTransport p)).2) = [] ->
  (pc_SetRemoteDescription sd (pc (signals before (NewPCTransport p)).2)).1 = None ->
  SetRemoteDescription sd (signals before (NewPCTransport p)).2 = (r, t2) ->
  (forall c t, RemoteDescription (pc t) = None ->
     AddICECandidate c t = (None, set_pendingCandidates (pendingCandidates t ++ [c]) t))
  /\ addsSucceeded before (signals before (NewPCTransport p)).1
  /\ pendingCandidates (signals before (NewPCTransport p)).2 = submitted before
  /\ attempted (pcTrace (signals before (NewPCTransport p)).2) = []
  /\ match r with
     | None =>
         (exists later,
            pcTrace t2 = pcTrace (signals before (NewPCTransport p)).2
                           ++ (CallSetRemoteDescription sd, None)
                           :: map appliedOk (submitted before) ++ later
            /\ attempted later = [])
         /\ applied (pcTrace t2) = submitted before
         /\ attempted (pcTrace t2) = submitted before
         /\ pendingCandidates t2 = []
     | Some err =>
         exists done c rest,
           submitted before = done ++ c :: rest
           /\ pcTrace t2 = pcTrace (signals before (NewPCTransport p)).2
                             ++ (CallSetRemoteDescription sd, None)
                             :: map appliedOk done ++ [(CallAddICECandidate c, Some err)]
           /\ applied (pcTrace t2) = done
     end.
Proof.
  intros Hrejects Hnone Hacc Haccept Hrun.
  destruct (signals before (NewPCTransport p)) as [rs t1] eqn:Hbefore. simpl in *.
  destruct (signals_before_first_accept Hrejects before (NewPCTransport p) _ _
              Hnone Hbefore Hacc)
    as (Hnone1 & Hpend & Hatt & Hadds).
  simpl in Hpend, Hatt.
  split; [exact AddICECandidate_buffers|]. do 3 (split; [done|]).
  assert (Happ1 : applied (pcTrace t1) = []) by by apply applied_no_attempt.
  apply SetRemoteDescription_outcome in Hrun.
  destruct Hrun as [ err t2 Hpc _ _ | err t2 done c rest _ Hsplit Htr _ _ _
                     | t0 t2 _ Htr Hp0 _ _ _ _ _ Hend ].
  - rewrite <- Hpc in Haccept. done.
  - exists done, c, rest. rewrite <- Hpend. split; [done|]. split; [done|].
    rewrite Htr. unfold applied. rewrite omap_app. fold (applied (pcTrace t1)).
    rewrite Happ1. simpl. rewrite omap_app. fold (applied (map appliedOk done)).
    rewrite applied_appliedOk. simpl. by rewrite app_nil_r.
  - assert (exists later, pcTrace t2 = pcTrace t0 ++ later /\ attempted later = []
                          /\ pendingCandidates t2 = pendingCandidates t0)
      as (later & Htr2 & Hlater & Hp2).
    { destruct (_ && _) in Hend; subst t2; [|exists []; by rewrite app_nil_r].
      destruct (createAndSendOffer None t0) as [r2 t3] eqn:Hoffer.
      apply createAndSendOffer_trace in Hoffer as (evs & Htr3 & Hno & Hp3 & _).
      by exists evs. }
    rewrite Hpend in Htr.
    assert (Hshape : pcTrace t2 = pcTrace t1 ++ (CallSetRemoteDescription sd, None)
                                    :: map appliedOk (submitted before) ++ later)
      by (by rewrite Htr2, Htr, <- app_assoc).
    split; [by exists later|]. split; [|split].
    + rewrite Hshape. unfold applied. rewrite omap_app. fold (applied (pcTrace t1)).
      rewrite Happ1. simpl. rewrite omap_app.
      fold (applied (map appliedOk (submitted before))). fold (applied later).
      by rewrite applied_appliedOk, (applied_no_attempt _ Hlater), app_nil_r.
    + rewrite Hshape. unfold attempted. rewrite omap_app. fold (attempted (pcTrace t1)).
      rewrite Hatt. simpl. rewrite omap_app.
      fold (attempted (map appliedOk (submitted before))). fold (attempted later).
      by rewrite attempted_appliedOk, Hlater, app_nil_r.
    + congruence.
Qed.

(** *** Further properties of the transport *)

Lemma localDescriptions_app trace evs :
  localDescriptions (trace ++ evs) = localDescriptions trace ++ localDescriptions evs.
Proof. unfold localDescriptions. apply omap_app. Qed.

Lemma during_app t t' evs : pcTrace t' = pcTrace t ++ evs -> during t t' = evs.
Proof. intros Htr. unfold during. rewrite Htr. apply drop_app_length. Qed.

Lemma not_carriesTrack transceiver :
  ~ carriesTrack transceiver
  <-> forall sender, Sender transceiver = Some sender -> Track sender = None.
Proof.
  unfold carriesTrack. split.
  - intros Hno sender Hsender. destruct (Track sender) as [track|] eqn:Htrack; [|done].
    destruct Hno. by exists sender, track.
  - intros Hnone (sender & track & Hsender & Htrack).
    specialize (Hnone sender Hsender). congruence.
Qed.

Lemma sends_nothing t t' :
  offersSent t' = offersSent t ->
  localDescriptions (pcTrace t') = localDescriptions (pcTrace t) ->
  (negotiationState t' <> negotiationStateNone ->
   negotiationState t <> negotiationStateNone) ->
  sendsAtMostOne t t'.
Proof.
  intros Ho Hl Hn. exists []. rewrite !app_nil_r.
  split; [done|]. split; [done|]. split; [simpl; lia|].
  intros Hne. left. by apply Hn.
Qed.

Lemma sends_nothing_same t t' evs :
  sameFields t t' ->
  pcTrace t' = pcTrace t ++ evs ->
  localDescriptions evs = [] ->
  sendsAtMostOne t t'.
Proof.
  intros Hs Htr Hevs. unfold sameFields in Hs. apply sends_nothing.
  - by intuition.
  - by rewrite Htr, localDescriptions_app, Hevs, app_nil_r.
  - intuition congruence.
Qed.

Lemma createOfferAndSend_sends options t r t' :
  createOfferAndSend options t = (r, t') ->
  negotiationState t = negotiationStateNone \/ negotiationState t = negotiationStateClient ->
  sendsAtMostOne t t'.
Proof.
  intros Hoffer Hstate.
  apply createOfferAndSend_cases in Hoffer
    as [(e & -> & Htr & Hs)|[(o & e & -> & Htr & Hs)|(o & -> & Htr & Ho & Hn & _)]].
  - by eapply sends_nothing_same.
  - by eapply sends_nothing_same.
  - exists [o]. rewrite Htr, localDescriptions_app. simpl.
    split; [done|]. split; [done|]. split; [lia|]. intros _. by right.
Qed.

Lemma createAndSendOffer_sends options t r t' :
  createAndSendOffer options t = (r, t') -> sendsAtMostOne t t'.
Proof.
  intros Hrun. apply createAndSendOffer_outcome in Hrun.
  destruct Hrun as [ | | _ _ Hst _ | sd err t1 Hst _ _ Hcall | sd t1 r t' Hst _ _ Hcall Hoffer
                     | r t' _ _ Hst Hoffer ].
  - by apply sends_nothing.
  - by apply sends_nothing.
  - apply sends_nothing; simpl; [done | done |]. intros _. congruence.
  - apply call_SetRemoteDescription_trace in Hcall as (Htr & Hsame & _).
    by eapply sends_nothing_same.
  - apply call_SetRemoteDescription_trace in Hcall as (Htr & Hsame & _).
    unfold sameFields in Hsame.
    destruct (createOfferAndSend_sends _ _ _ _ Hoffer) as (new & Ho & Hl & Hlen & _).
    { right. intuition congruence. }
    exists new. rewrite Hl, Ho, Htr, localDescriptions_app. simpl. rewrite app_nil_r.
    split; [by intuition congruence|]. split; [done|]. split; [done|].
    intros _. left. congruence.
  - eapply createOfferAndSend_sends; [done | by left].
Qed.

Lemma localDescriptions_appliedOk cs : localDescriptions (map appliedOk cs) = [].
Proof. induction cs as [|c cs IH]; simpl; done. Qed.

Lemma SetRemoteDescription_sends sd t r t' :
  SetRemoteDescription sd t = (r, t') -> sendsAtMostOne t t'.
Proof.
  intros Hrun. apply SetRemoteDescription_outcome in Hrun.
  destruct Hrun as [ err t' _ Htr Hsame | err t' done c rest _ _ Htr _ Hst Hsent
                     | t1 t' _ Htr _ Hst Hsent _ _ _ Hend ].
  - by eapply sends_nothing_same.
  - apply sends_nothing; [done | | congruence].
    rewrite Htr, localDescriptions_app. simpl.
    by rewrite localDescriptions_app, localDescriptions_appliedOk, !app_nil_r.
  - assert (Hl1 : localDescriptions (pcTrace t1) = localDescriptions (pcTrace t)).
    { rewrite Htr, localDescriptions_app. simpl.
      by rewrite localDescriptions_appliedOk, app_nil_r. }
    destruct (_ && _) in Hend; subst t'.
    + destruct (createAndSendOffer None t1) as [r2 t2] eqn:Hoffer. simpl.
      destruct (createAndSendOffer_sends _ _ _ _ Hoffer) as (new & Ho & Hl & Hlen & Hstate).
      exists new. rewrite Ho, Hl, Hsent, Hl1.
      split; [done|]. split; [done|]. split; [done|].
      intros Hne. right. destruct (Hstate Hne) as [?|?]; [congruence | done].
    + apply sends_nothing; [done | done | congruence].
Qed.

Lemma perform_sends t call : sendsAtMostOne t (perform t call).
Proof.
  destruct call as [f|c|sd|options|state]; simpl.
  - by apply sends_nothing.
  - unfold AddICECandidate. destruct (RemoteDescription (pc t)); [|by apply sends_nothing].
    destruct (call_AddICECandidate c t) as [r t'] eqn:Hcall.
    apply call_AddICECandidate_trace in Hcall as [Htr Hs].
    by eapply sends_nothing_same.
  - destruct (SetRemoteDescription sd t) as [r t'] eqn:Hrun.
    by eapply SetRemoteDescription_sends.
  - unfold CreateAndSendOffer.
    destruct (createAndSendOffer options t) as [r t'] eqn:Hrun.
    by eapply createAndSendOffer_sends.
  - unfold onICEGatheringStateChange. case_bool_decide; [|by apply sends_nothing].
    destruct (restartAfterGathering t); [|by apply sends_nothing].
    destruct (createAndSendOffer (Some (mkOfferOptions true)) t) as [r t'] eqn:Hrun.
    by eapply createAndSendOffer_sends.
Qed.

(** X1.  Whatever is called on a new transport, in whatever order
    (OnOffer, AddICECandidate, SetRemoteDescription, CreateAndSendOffer,
    the gathering callback): the offers handed to the onOffer handler are
    exactly the offers the peer connection accepted as local description,
    in that order, and the negotiation state is other than None only if an
    offer has been sent. *)
Theorem offers_sent_are_local_descriptions (p : PC) (calls : list TransportCall) :
  offersSent (performAll calls (NewPCTransport p))
  = localDescriptions (pcTrace (performAll calls (NewPCTransport p)))
  /\ (negotiationState (performAll calls (NewPCTransport p)) <> negotiationStateNone ->
      offersSent (performAll calls (NewPCTransport p)) <> []).
Proof.
  assert (Hinv : forall calls t,
    offersSent t = localDescriptions (pcTrace t) ->
    (negotiationState t <> negotiationStateNone -> offersSent t <> []) ->
    offersSent (performAll calls t) = localDescriptions (pcTrace (performAll calls t))
    /\ (negotiationState (performAll calls t) <> negotiationStateNone ->
        offersSent (performAll calls t) <> [])).
  { clear calls. induction calls as [|call calls IH]; intros t Hsent Hstate; [done|].
    simpl. destruct (perform_sends t call) as (new & Ho & Hl & _ & Hn).
    apply IH.
    - by rewrite Ho, Hl, Hsent.
    - intros Hne. rewrite Ho. destruct (Hn Hne) as [Hold|Hnew].
      + specialize (Hstate Hold). by destruct (offersSent t).
      + destruct new; [done|]. by destruct (offersSent t). }
  by apply Hinv.
Qed.


Lemma offersRequested_appliedOk cs : offersRequested (map appliedOk cs) = [].
Proof. induction cs as [|c cs IH]; simpl; done. Qed.

(** X2.  When SetRemoteDescription returns an error, no offer was asked
    for or sent and the pending queue, the restart flag, the codec records
    and the handler are as before.  Either the peer connection rejected the
    description, nothing else was called on it and the negotiation state is
    unchanged; or it accepted the description, the state is already reset to
    None, and the error is that of the first pending candidate that
    failed, the ones before it having been applied and the queue kept
    whole. *)
Theorem SetRemoteDescription_error_leaves (sd : SessionDescription) (t t' : PCTransport PC)
    (err : error) :
  SetRemoteDescription sd t = (Some err, t') ->
  offersSent t' = offersSent t
  /\ pendingCandidates t' = pendingCandidates t
  /\ restartAfterGathering t' = restartAfterGathering t
  /\ transceiverCodecs t' = transceiverCodecs t
  /\ onOffer t' = onOffer t
  /\ offersRequested (during t t') = []
  /\ ((during t t' = [(CallSetRemoteDescription sd, Some err)]
       /\ negotiationState t' = negotiationState t)
      \/ (exists done c rest,
            pendingCandidates t = done ++ c :: rest
            /\ during t t' = (CallSetRemoteDescription sd, None)
                               :: map appliedOk done ++ [(CallAddICECandidate c, Some err)]
            /\ negotiationState t' = negotiationStateNone)).
Proof.
  unfold SetRemoteDescription.
  destruct (call_SetRemoteDescription sd t) as [[e|] t1] eqn:Hcall;
    apply call_SetRemoteDescription_trace in Hcall as (Htr & Hsame & _);
    unfold sameFields in Hsame; destruct Hsame as (Hc & Hp & Ho & Hf & Hn & Hs).
  - intros [= <- <-]. rewrite (during_app _ _ _ Htr).
    do 5 (split; [done|]). split; [done|]. left. by split.
  - destruct (applyPending (pendingCandidates (set_negotiationState negotiationStateNone t1))
                (set_negotiationState negotiationStateNone t1)) as [[e|] t3] eqn:Hdrain;
      [|by destruct (_ && _)].
    apply applyPending_trace in Hdrain as [Hsame3 Hr]. simpl in Hsame3, Hr.
    unfold sameFields in Hsame3. simpl in Hsame3.
    destruct Hsame3 as (Hc3 & Hp3 & Ho3 & Hf3 & Hn3 & Hs3).
    destruct Hr as (done & c & rest & Hsplit & Htr3).
    intros [= <- <-].
    assert (Hduring : during t t3 = (CallSetRemoteDescription sd, None)
                        :: map appliedOk done ++ [(CallAddICECandidate c, Some e)]).
    { apply during_app. by rewrite Htr3, Htr, <- app_assoc. }
    rewrite Hduring.
    split; [congruence|]. split; [congruence|]. split; [congruence|].
    split; [congruence|]. split; [congruence|]. split.
    + unfold offersRequested. simpl. rewrite omap_app.
      fold (offersRequested (map appliedOk done)).
      by rewrite offersRequested_appliedOk.
    + right. exists done, c, rest. split; [congruence|]. by split.
Qed.

(** X3.  An error of the follow-up offer is not returned: once
    SetRemoteDescription has asked the peer connection for an offer, it
    returns nil, whether or not that offer could be created; it gets there
    only from RetryPending with an answer, after the queue was drained. *)
Theorem follow_up_offer_error_is_dropped (sd : SessionDescription) (t t' : PCTransport PC)
    (r : option error) :
  SetRemoteDescription sd t = (r, t') ->
  offersRequested (during t t') <> [] ->
  r = None
  /\ negotiationState t = negotiationRetry
  /\ Type_ sd = SDPTypeAnswer
  /\ pendingCandidates t' = []
  /\ applied (during t t') = pendingCandidates t.
Proof.
  intros Hrun Hasked. destruct r as [err|].
  { apply SetRemoteDescription_error_leaves in Hrun. by intuition. }
  apply SetRemoteDescription_outcome in Hrun.
  inversion Hrun as [ | | t1 t0 _ Htr Hp1 _ _ _ _ _ Hend ]; subst.
  assert (Hasked1 : offersRequested (during t t1) = []).
  { rewrite (during_app _ _ _ Htr). unfold offersRequested. simpl.
    fold (offersRequested (map appliedOk (pendingCandidates t))).
    apply offersRequested_appliedOk. }
  destruct (decide (negotiationState t = negotiationRetry)) as [Hretry|Hno];
    [destruct (decide (Type_ sd = SDPTypeAnswer)) as [Hanswer|Hno]|].
  - rewrite !bool_decide_eq_true_2 by done. simpl.
    destruct (createAndSendOffer None t1) as [r2 t2] eqn:Hoffer. simpl.
    apply createAndSendOffer_trace in Hoffer as (evs & Htr2 & Hatt & Hp2 & _).
    do 3 (split; [done|]). split; [congruence|].
    rewrite (during_app t t2 ((CallSetRemoteDescription sd, None)
                                :: map appliedOk (pendingCandidates t) ++ evs))
      by (by rewrite Htr2, Htr, <- app_assoc).
    unfold applied. simpl. rewrite omap_app.
    fold (applied (map appliedOk (pendingCandidates t))). fold (applied evs).
    by rewrite applied_appliedOk, (applied_no_attempt _ Hatt), app_nil_r.
  - rewrite (bool_decide_eq_false_2 _ Hno), andb_false_r in Hasked. done.
  - rewrite (bool_decide_eq_false_2 _ Hno) in Hasked. done.
Qed.


(** X4.  Requests made while an offer is out collapse: on a transport with
    a handler whose peer connection is not Closed and whose state is
    AwaitingClient, one or more requests that are not ICE restarts leave
    the transport as a single one does, in RetryPending, with nothing
    called on the peer connection and no offer sent. *)
Theorem requests_while_awaiting_collapse (t : PCTransport PC)
    (options : option OfferOptions) (more : list (option OfferOptions)) :
  onOffer t <> None ->
  ConnectionState (pc t) <> PeerConnectionStateClosed ->
  negotiationState t = negotiationStateClient ->
  Forall (fun o => isICERestart o = false) (options :: more) ->
  foldl (fun t o => (createAndSendOffer o t).2) t (options :: more)
  = set_negotiationState negotiationRetry t.
Proof.
  intros Hhandler Hopen Hstate Hplain.
  apply Forall_cons in Hplain as [Hfirst Hmore]. simpl.
  assert (Hone : createAndSendOffer options t
                 = (None, set_negotiationState negotiationRetry t)).
  { unfold createAndSendOffer. destruct (onOffer t); [|done].
    rewrite bool_decide_eq_false_2 by done. by rewrite Hfirst, Hstate. }
  rewrite Hone. simpl.
  induction more as [|o more IH]; [done|].
  apply Forall_cons in Hmore as [Ho Hmore]. simpl.
  assert (Hagain : createAndSendOffer o (set_negotiationState negotiationRetry t)
                   = (None, set_negotiationState negotiationRetry t)).
  { unfold createAndSendOffer. simpl. destruct (onOffer t); [|done].
    rewrite bool_decide_eq_false_2 by done. by rewrite Ho. }
  rewrite Hagain. by apply IH.
Qed.

(** X5.  GetTransceiverForSending hands out only transceivers of the
    peer connection whose mid has a codec record, so on a transport that
    has not sent an offer yet it finds none, whatever the peer connection
    holds. *)
Theorem unrecorded_transceivers_are_not_reused (track : TrackLocal)
    (codec : RTPCodecCapability) (t : PCTransport PC) :
  (forall found, GetTransceiverForSending track codec t = Some found ->
     found ∈ GetTransceivers (pc t) /\ is_Some (transceiverCodecs t !! Mid found))
  /\ (transceiverCodecs t = ∅ -> GetTransceiverForSending track codec t = None).
Proof.
  unfold GetTransceiverForSending.
  pose proof (firstTransceiverForSending_spec track codec t (GetTransceivers (pc t))) as Hspec.
  assert (Hrecorded : forall found, usableForSending track codec t found ->
                                    is_Some (transceiverCodecs t !! Mid found)).
  { intros found (_ & _ & params & Hin & _). unfold codecsOfMid in Hin.
    destruct (transceiverCodecs t !! Mid found); [done|].
    by apply elem_of_nil in Hin. }
  split.
  - intros found Hfound. rewrite Hfound in Hspec.
    destruct Hspec as (before & after & Hsplit & Husable & _).
    split; [|by apply Hrecorded].
    rewrite Hsplit. apply elem_of_app. right. left.
  - intros Hempty.
    destruct (firstTransceiverForSending track codec t (GetTransceivers (pc t)))
      as [found|]; [|done].
    destruct Hspec as (before & after & _ & Husable & _).
    apply Hrecorded in Husable as [codecs Hsome].
    by rewrite Hempty, lookup_empty in Hsome.
Qed.

Lemma recorded_after_offer options t r t' :
  createAndSendOffer options t = (r, t') ->
  offersSent t' <> offersSent t ->
  transceiverCodecs t'
  = recordTransceiverCodecs (GetTransceivers (pc t')) (transceiverCodecs t).
Proof.
  intros Hrun Hsent. apply createAndSendOffer_outcome in Hrun.
  assert (Hoffer : forall t0 r0 t0',
    createOfferAndSend options t0 = (r0, t0') ->
    offersSent t0' <> offersSent t0 ->
    transceiverCodecs t0'
    = recordTransceiverCodecs (GetTransceivers (pc t0')) (transceiverCodecs t0)).
  { intros t0 r0 t0' Hoffer Hne.
    apply createOfferAndSend_cases in Hoffer
      as [(e & _ & _ & Hs)|[(o & e & _ & _ & Hs)|(o & _ & _ & _ & _ & _ & Hrec & _)]];
      [| |done]; unfold sameFields in Hs; destruct Hne; by intuition. }
  destruct Hrun as [ | | | sd err t1 _ _ _ Hcall | sd t1 r t' _ _ _ Hcall Hrest
                     | r t' _ _ _ Hrest ]; try done.
  - apply call_SetRemoteDescription_trace in Hcall as (_ & Hsame & _).
    unfold sameFields in Hsame. destruct Hsent. by intuition.
  - apply call_SetRemoteDescription_trace in Hcall as (_ & Hsame & _).
    unfold sameFields in Hsame. destruct Hsame as (Hc & _ & _ & _ & _ & Hs).
    rewrite <- Hc. apply (Hoffer _ _ _ Hrest). congruence.
  - by apply (Hoffer _ _ _ Hrest).
Qed.

(** X6.  What an offer records is what GetTransceiverForSending later
    consults.  After a createAndSendOffer that sent an offer, the record of
    a mid is the codec list of the last transceiver with that mid whose
    sender has a track, so each of that sender's codecs matches the
    record; and a mid that no track-carrying transceiver has keeps the
    record it had. *)
Theorem offer_records_sender_codecs (options : option OfferOptions) (t t' : PCTransport PC)
    (r : option error) :
  createAndSendOffer options t = (r, t') ->
  offersSent t' <> offersSent t ->
  (forall before transceiver sender track after,
     GetTransceivers (pc t') = before ++ transceiver :: after ->
     Sender transceiver = Some sender ->
     Track sender = Some track ->
     Forall (fun other => Mid other = Mid transceiver -> ~ carriesTrack other) after ->
     codecsOfMid (Mid transceiver) t' = map Capability (Codecs sender)
     /\ forall params, params ∈ Codecs sender ->
          codecMatches (Capability params) (codecsOfMid (Mid transceiver) t') = true)
  /\ (forall mid,
        Forall (fun other => Mid other = mid -> ~ carriesTrack other)
          (GetTransceivers (pc t')) ->
        codecsOfMid mid t' = codecsOfMid mid t).
Proof.
  intros Hrun Hsent. pose proof (recorded_after_offer _ _ _ _ Hrun Hsent) as Hrec.
  split.
  - intros before tr sender track after Hsplit Hsender Htrack Hafter.
    assert (Hlookup : codecsOfMid (Mid tr) t' = map Capability (Codecs sender)).
    { unfold codecsOfMid. rewrite Hrec, Hsplit.
      erewrite recordTransceiverCodecs_last; [done | done | done |].
      eapply Forall_impl; [exact Hafter|]. intros other Hother Hmid.
      by apply not_carriesTrack, Hother. }
    split; [done|]. intros params Hin. rewrite Hlookup.
    apply codecMatches_spec. exists (Capability params). split; [|done].
    apply list_elem_of_fmap. by exists params.
  - intros mid Hnone. unfold codecsOfMid. rewrite Hrec.
    rewrite recordTransceiverCodecs_other; [done|].
    eapply Forall_impl; [exact Hnone|]. intros other Hother Hmid.
    by apply not_carriesTrack, Hother.
Qed.

(** X7.  The ICE-restart override.  In AwaitingClient, on a transport with
    a handler whose peer connection is not Closed and not gathering, an
    ICE restart with a current remote description first sets that
    description on the peer connection again.  If the peer connection
    rejects it, the error is returned, no offer is asked for and nothing
    else changes.  If it accepts it, the peer connection is asked for one
    offer with the same options, and either the offer is sent, leaving the
    state AwaitingClient and the restart flag cleared, or the error of the
    offer is returned and the state stays AwaitingClient. *)
Theorem ice_restart_overrides_pending_offer (options : option OfferOptions)
    (t t' : PCTransport PC) (r : option error) (currentSD : SessionDescription) :
  onOffer t <> None ->
  ConnectionState (pc t) <> PeerConnectionStateClosed ->
  ICEGatheringState_ (pc t) <> ICEGatheringStateGathering ->
  negotiationState t = negotiationStateClient ->
  isICERestart options = true ->
  CurrentRemoteDescription (pc t) = Some currentSD ->
  createAndSendOffer options t = (r, t') ->
  exists rest,
    during t t' = (CallSetRemoteDescription currentSD,
                   (pc_SetRemoteDescription currentSD (pc t)).1) :: rest
    /\ negotiationState t' = negotiationStateClient
    /\ match (pc_SetRemoteDescription currentSD (pc t)).1 with
       | Some err => r = Some err /\ rest = [] /\ sameFields t t'
       | None =>
           offersRequested rest = [options]
           /\ match r with
              | None => (exists offer, offersSent t' = offersSent t ++ [offer])
                        /\ restartAfterGathering t' = false
              | Some err => sameFields t t'
              end
       end.
Proof.
  intros Hhandler Hopen Hgather Hstate Hrestart Hcur Hrun.
  unfold createAndSendOffer in Hrun.
  destruct (onOffer t) as [handler|]; [|done].
  rewrite bool_decide_eq_false_2 in Hrun by done.
  rewrite Hrestart, (bool_decide_eq_false_2 _ Hgather), Hstate, Hcur in Hrun.
  simpl in Hrun.
  destruct (call_SetRemoteDescription currentSD t) as [res t1] eqn:Hcall.
  apply call_SetRemoteDescription_trace in Hcall as (Htr & Hsame & Hpc).
  rewrite <- Hpc. simpl. destruct res as [err|].
  - injection Hrun as <- <-. exists []. rewrite (during_app _ _ _ Htr).
    unfold sameFields in Hsame. split; [done|]. split; [by intuition congruence|].
    by repeat split; intuition.
  - apply createOfferAndSend_cases in Hrun
      as [(e & -> & Htr' & Hs)|[(o & e & -> & Htr' & Hs)|(o & -> & Htr' & Ho & Hn & Hf & _)]].
    + eexists. rewrite (during_app t t' ([(CallSetRemoteDescription currentSD, None)]
                          ++ [(CallCreateOffer options, Some e)]))
        by (by rewrite Htr', Htr, <- app_assoc).
      pose proof (sameFields_trans _ _ _ Hsame Hs) as Hall.
      split; [done|]. unfold sameFields in Hall. split; [intuition congruence|].
      by split.
    + eexists. rewrite (during_app t t' ([(CallSetRemoteDescription currentSD, None)]
                          ++ [(CallCreateOffer options, None);
                              (CallSetLocalDescription o, Some e)]))
        by (by rewrite Htr', Htr, <- app_assoc).
      pose proof (sameFields_trans _ _ _ Hsame Hs) as Hall.
      split; [done|]. unfold sameFields in Hall. split; [intuition congruence|].
      by split.
    + eexists. rewrite (during_app t t' ([(CallSetRemoteDescription currentSD, None)]
                          ++ [(CallCreateOffer options, None);
                              (CallSetLocalDescription o, None)]))
        by (by rewrite Htr', Htr, <- app_assoc).
      unfold sameFields in Hsame.
      split; [done|]. split; [done|]. split; [done|]. split; [|done].
      exists o. rewrite Ho. by intuition congruence.
Qed.


End Transport.

(** *** Scenarios on the scripted peer connection *)

Lemma scripted_rejected_description_not_set sd (p : Scripted.PC) err p' :
  RemoteDescription p = None ->
  pc_SetRemoteDescription sd p = (Some err, p') ->
  RemoteDescription p' = None.
Proof.
  simpl. unfold Scripted.setRemoteDescription, Scripted.next. intros Hnone.
  destruct (Scripted.script p) as [|[e|] rest]; simpl; intros [= <- <-]; exact Hnone.
Qed.

(** S4: two candidates, then the remote offer. *)
Example candidate_buffering :
  pcTrace (signals [SigAddICECandidate c1; SigAddICECandidate c2;
                    SigSetRemoteDescription remoteOffer] (NewPCTransport freshPC)).2
  = [(CallSetRemoteDescription remoteOffer, None);
     (CallAddICECandidate c1, None); (CallAddICECandidate c2, None)].
Proof. reflexivity. Qed.

(** S5: the answer that arrives in RetryPending is followed by a second
    offer, and the state is AwaitingClient again. *)
Example retry_after_answer :
  negotiationState retryPending = negotiationRetry
  /\ length (offersSent retryPending) = 1%nat
  /\ negotiationState (SetRemoteDescription remoteAnswer retryPending).2
     = negotiationStateClient
  /\ length (offersSent (SetRemoteDescription remoteAnswer retryPending).2) = 2%nat.
Proof. repeat split. Qed.

(** S6: an ICE restart asked for during gathering waits; gathering
    complete sends it and clears the flag. *)
Example ice_restart_during_gathering :
  let t0 := OnOffer (Some 0%nat) (NewPCTransport gatheringPC) in
  let t1 := (createAndSendOffer iceRestartOptions t0).2 in
  let t2 := set_pc (Scripted.mkPC None None PeerConnectionStateConnected
                      ICEGatheringStateComplete [] []) t1 in
  let t3 := onICEGatheringStateChange ICEGathererStateComplete t2 in
  offersSent t1 = [] /\ restartAfterGathering t1 = true
  /\ length (offersSent t3) = 1%nat /\ restartAfterGathering t3 = false
  /\ offersRequested (pcTrace t3) = [iceRestartOptions].
Proof. repeat split. Qed.

(** The amended C1 on S4: both candidates reach the peer connection once,
    in order, inside the call that sets the remote offer. *)
Lemma candidates_buffered_then_drained_witness :
  let before := [SigAddICECandidate c1; SigAddICECandidate c2] in
  let t1 := (signals before (NewPCTransport freshPC)).2 in
  pendingCandidates t1 = [c1; c2]
  /\ attempted (pcTrace t1) = []
  /\ applied (pcTrace (SetRemoteDescription remoteOffer t1).2) = [c1; c2]
  /\ pendingCandidates (SetRemoteDescription remoteOffer t1).2 = [].
Proof.
  pose proof (candidates_buffered_then_drained freshPC
                [SigAddICECandidate c1; SigAddICECandidate c2] remoteOffer None
                (SetRemoteDescription remoteOffer
                   (signals [SigAddICECandidate c1; SigAddICECandidate c2]
                      (NewPCTransport freshPC)).2).2
                scripted_rejected_description_not_set
                eq_refl eq_refl eq_refl eq_refl)
    as (_ & _ & Hpending & Hnone & _ & Happlied & _ & Hempty).
  exact (conj Hpending (conj Hnone (conj Happlied Hempty))).
Defined.

(** C1 as worded fails when a drain stops part-way.  The queue is kept
    whole while the peer connection now has a remote description: [c3],
    submitted next, goes straight to the peer connection, and the
    SetRemoteDescription that succeeds applies [c1] a second time. *)
Lemma candidate_applied_twice_after_failed_drain :
  ~ NoLostCandidates thirdCallFails
      [SigAddICECandidate c1; SigAddICECandidate c2;
       SigSetRemoteDescription remoteOffer; SigAddICECandidate c3]
      remoteOffer.
Proof.
  intros Hclaim. unfold NoLostCandidates in Hclaim.
  specialize (Hclaim eq_refl).
  assert (Hfirst : forall (i : nat) sd0,
    [SigAddICECandidate c1; SigAddICECandidate c2;
     SigSetRemoteDescription remoteOffer; SigAddICECandidate c3] !! i
      = Some (SigSetRemoteDescription sd0) ->
    (signals [SigAddICECandidate c1; SigAddICECandidate c2;
              SigSetRemoteDescription remoteOffer; SigAddICECandidate c3]
       (NewPCTransport thirdCallFails)).1 !! i
      <> Some None).
  { intros [|[|[|[|i]]]] sd0 Hi; simpl in Hi; discriminate. }
  destruct (Hclaim Hfirst eq_refl) as [Honce _].
  vm_compute in Honce. discriminate Honce.
Qed.

Example failed_drain_then_second_description :
  let before := [SigAddICECandidate c1; SigAddICECandidate c2;
                 SigSetRemoteDescription remoteOffer; SigAddICECandidate c3] in
  let t1 := (signals before (NewPCTransport thirdCallFails)).2 in
  let t2 := (SetRemoteDescription remoteOffer t1).2 in
  (signals before (NewPCTransport thirdCallFails)).1 = [None; None; Some "rejected"; None]
  /\ (SetRemoteDescription remoteOffer t1).1 = None
  /\ submitted before = [c1; c2; c3]
  /\ applied (pcTrace t2) = [c1; c3; c1; c2]
  /\ applied (during t1 t2) = [c1; c2].
Proof. repeat split. Qed.


(** C3 as worded fails for an ICE restart asked for during gathering: the
    request is parked in the restart flag and the state stays
    AwaitingClient. *)
Lemma restart_while_gathering_is_not_demoted :
  ~ demotedWhileAwaitingClient iceRestartOptions awaitingWhileGathering.
Proof.
  intros Hclaim. unfold demotedWhileAwaitingClient in Hclaim.
  assert (Hnooverride :
    ~ (isICERestart iceRestartOptions = true
       /\ CurrentRemoteDescription (pc awaitingWhileGathering) <> None)).
  { intros [_ Hcur]. by apply Hcur. }
  destruct (Hclaim eq_refl Hnooverride) as [_ Hstate].
  vm_compute in Hstate. discriminate Hstate.
Qed.

(** C4 as worded fails on a transport without an offer handler: the
    request is dropped and the flag stays false. *)
Lemma restart_without_handler_is_dropped :
  ~ restartDeferredWhileGathering iceRestartOptions (NewPCTransport gatheringPC).
Proof.
  intros Hclaim. unfold restartDeferredWhileGathering in Hclaim.
  destruct (Hclaim eq_refl eq_refl) as [_ Hflag].
  vm_compute in Hflag. discriminate Hflag.
Qed.

(** C8 when CreateOffer fails on an idle transport. *)
Lemma offer_failure_keeps_state_witness :
  let t := OnOffer (Some 0%nat) (NewPCTransport firstCallFails) in
  (createAndSendOffer None t).1 = Some "rejected"
  /\ negotiationState (createAndSendOffer None t).2 = negotiationStateNone
  /\ restartAfterGathering (createAndSendOffer None t).2 = false
  /\ offersSent (createAndSendOffer None t).2 = [].
Proof.
  assert (Hfails : createAndSendOffer None
                     (OnOffer (Some 0%nat) (NewPCTransport firstCallFails))
                   = (Some "rejected",
                      (createAndSendOffer None
                         (OnOffer (Some 0%nat) (NewPCTransport firstCallFails))).2))
    by reflexivity.
  pose proof (offer_failure_keeps_state None
                (OnOffer (Some 0%nat) (NewPCTransport firstCallFails))
                (createAndSendOffer None
                   (OnOffer (Some 0%nat) (NewPCTransport firstCallFails))).2
                (Some "rejected") [(CallCreateOffer None, Some "rejected")]
                (CallCreateOffer None) "rejected"
                Hfails eq_refl I) as Hkeep.
  destruct Hkeep as (Hr & Hstate & Hflag & Hsent); [by left|].
  split; [reflexivity|]. split; [exact Hstate|]. split; [exact Hflag | exact Hsent].
Defined.

(** C9 on a closed peer connection, for a plain request. *)
Lemma closed_transport_offer_is_noop_witness :
  createAndSendOffer iceRestartOptions (OnOffer (Some 0%nat) (NewPCTransport closedPC))
  = (None, OnOffer (Some 0%nat) (NewPCTransport closedPC)).
Proof.
  apply (closed_transport_offer_is_noop iceRestartOptions
           (OnOffer (Some 0%nat) (NewPCTransport closedPC))).
  reflexivity.
Defined.

(** The amended C3 on a transport that awaits the answer to its first
    offer: a second plain request is demoted to RetryPending. *)
Lemma awaiting_client_offer_is_demoted_witness :
  let t := (createAndSendOffer None (OnOffer (Some 0%nat) (NewPCTransport freshPC))).2 in
  negotiationState t = negotiationStateClient
  /\ createAndSendOffer None t = (None, set_negotiationState negotiationRetry t).
Proof.
  destruct (awaiting_client_offer_is_demoted None
              (createAndSendOffer None (OnOffer (Some 0%nat) (NewPCTransport freshPC))).2)
    as (_ & Hdemoted & _).
  split; [reflexivity|].
  apply Hdemoted; [discriminate | discriminate | | reflexivity |];
    intros [Hrestart _]; discriminate Hrestart.
Defined.

(** The amended C4 on a transport with a handler whose peer connection is
    gathering. *)
Lemma ice_restart_waits_for_gathering_witness :
  let t := OnOffer (Some 0%nat) (NewPCTransport gatheringPC) in
  createAndSendOffer iceRestartOptions t = (None, set_restartAfterGathering true t)
  /\ onICEGatheringStateChange ICEGathererStateComplete (set_restartAfterGathering true t)
     = (createAndSendOffer iceRestartOptions (set_restartAfterGathering true t)).2.
Proof.
  destruct (ice_restart_waits_for_gathering iceRestartOptions
              (OnOffer (Some 0%nat) (NewPCTransport gatheringPC)))
    as (_ & Hdeferred & _).
  destruct (ice_restart_waits_for_gathering iceRestartOptions
              (set_restartAfterGathering true
                 (OnOffer (Some 0%nat) (NewPCTransport gatheringPC))))
    as (_ & _ & Hcomplete & _).
  split.
  - apply Hdeferred; [discriminate | discriminate | reflexivity | reflexivity].
  - apply Hcomplete. reflexivity.
Defined.

Example codecs_recorded_with_offer :
  codecsOfMid "0" withFreeVideoSlot = [opusCodec]
  /\ codecsOfMid "1" withFreeVideoSlot = []
  /\ codecsOfMid "2" withFreeVideoSlot = [vp8Codec].
Proof. repeat split. Qed.

Example no_transceiver_for_other_codec :
  GetTransceiverForSending videoTrack
    (mkRTPCodecCapability "video/H264" 90000 0 "") withFreeVideoSlot = None.
Proof. reflexivity. Qed.

(** C5 on that transport: the free video transceiver is found behind the
    two that do not qualify. *)
Lemma GetTransceiverForSending_first_match_witness :
  exists before after,
    GetTransceivers (pc withFreeVideoSlot) = before ++ videoTransceiver None :: after
    /\ usableForSending videoTrack vp8Codec withFreeVideoSlot (videoTransceiver None)
    /\ Forall (fun x => ~ usableForSending videoTrack vp8Codec withFreeVideoSlot x) before.
Proof.
  exact (GetTransceiverForSending_first_match videoTrack vp8Codec withFreeVideoSlot).
Defined.

(** X1 on a run that mixes all five calls. *)
Lemma offers_sent_are_local_descriptions_witness :
  offersSent (performAll mixedCalls (NewPCTransport freshPC))
  = localDescriptions (pcTrace (performAll mixedCalls (NewPCTransport freshPC)))
  /\ length (offersSent (performAll mixedCalls (NewPCTransport freshPC))) = 2%nat.
Proof.
  destruct (offers_sent_are_local_descriptions freshPC mixedCalls) as [Hsame _].
  split; [exact Hsame | reflexivity].
Defined.

(** X2 when the second pending candidate fails. *)
Lemma SetRemoteDescription_error_leaves_witness :
  let t := (signals [SigAddICECandidate c1; SigAddICECandidate c2]
              (NewPCTransport thirdCallFails)).2 in
  (SetRemoteDescription remoteOffer t).1 = Some "rejected"
  /\ pendingCandidates (SetRemoteDescription remoteOffer t).2 = [c1; c2]
  /\ offersSent (SetRemoteDescription remoteOffer t).2 = [].
Proof.
  assert (Hfails :
    SetRemoteDescription remoteOffer
      (signals [SigAddICECandidate c1; SigAddICECandidate c2]
         (NewPCTransport thirdCallFails)).2
    = (Some "rejected",
       (SetRemoteDescription remoteOffer
          (signals [SigAddICECandidate c1; SigAddICECandidate c2]
             (NewPCTransport thirdCallFails)).2).2)) by reflexivity.
  destruct (SetRemoteDescription_error_leaves _ _ _ _ Hfails) as (Hsent & Hpending & _).
  split; [reflexivity|]. split; [exact Hpending | exact Hsent].
Defined.

(** X3 when the peer connection refuses the follow-up offer. *)
Lemma follow_up_offer_error_is_dropped_witness :
  (SetRemoteDescription remoteAnswer retryPendingThenRefused).1 = None
  /\ (CallCreateOffer None, Some "rejected")
     ∈ pcTrace (SetRemoteDescription remoteAnswer retryPendingThenRefused).2.
Proof.
  assert (Hrun :
    SetRemoteDescription remoteAnswer retryPendingThenRefused
    = ((SetRemoteDescription remoteAnswer retryPendingThenRefused).1,
       (SetRemoteDescription remoteAnswer retryPendingThenRefused).2)) by reflexivity.
  destruct (follow_up_offer_error_is_dropped _ _ _ _ Hrun) as (Hnil & _);
    [discriminate|].
  split; [exact Hnil|]. vm_compute. do 3 right. left.
Defined.

(** X4 with three requests after the first offer. *)
Lemma requests_while_awaiting_collapse_witness :
  let t := (createAndSendOffer None (OnOffer (Some 0%nat) (NewPCTransport freshPC))).2 in
  foldl (fun t o => (createAndSendOffer o t).2) t [None; None; None]
  = set_negotiationState negotiationRetry t.
Proof.
  apply (requests_while_awaiting_collapse
           (createAndSendOffer None (OnOffer (Some 0%nat) (NewPCTransport freshPC))).2
           None [None; None]);
    [discriminate | discriminate | reflexivity | by repeat constructor].
Defined.

(** X5 before the first offer, and after it. *)
Lemma unrecorded_transceivers_are_not_reused_witness :
  GetTransceiverForSending videoTrack vp8Codec beforeFirstOffer = None
  /\ is_Some (transceiverCodecs withFreeVideoSlot !! "2").
Proof.
  destruct (unrecorded_transceivers_are_not_reused videoTrack vp8Codec beforeFirstOffer)
    as [_ Hnone].
  destruct (unrecorded_transceivers_are_not_reused videoTrack vp8Codec withFreeVideoSlot)
    as [Hfound _].
  split; [by apply Hnone|].
  by apply (Hfound (videoTransceiver None)).
Defined.

(** X6 on the first offer of a subscriber with an audio and a video track. *)
Lemma offer_records_sender_codecs_witness :
  codecsOfMid "2" (createAndSendOffer None beforeFirstOffer).2 = [vp8Codec]
  /\ codecsOfMid "1" (createAndSendOffer None beforeFirstOffer).2 = [].
Proof.
  assert (Hrun : createAndSendOffer None beforeFirstOffer
                 = (None, (createAndSendOffer None beforeFirstOffer).2)) by reflexivity.
  destruct (offer_records_sender_codecs None beforeFirstOffer _ None Hrun) as [Hlast Hother];
    [discriminate|].
  split.
  - apply (Hlast [audioTransceiver; receiveOnlyTransceiver]
             (videoTransceiver (Some videoTrack))
             (mkRTPSender (Some videoTrack) [mkRTPCodecParameters vp8Codec 96])
             videoTrack []); [reflexivity | reflexivity | reflexivity | constructor].
  - rewrite (Hother "1"); [reflexivity|].
    repeat constructor; intros Hmid; try discriminate Hmid.
    intros (sender & track & Hsender & _). discriminate Hsender.
Defined.

(** X7 on an ICE restart asked for while the second offer is out. *)
Lemma ice_restart_overrides_pending_offer_witness :
  exists rest,
    during awaitingSecondAnswer (createAndSendOffer iceRestartOptions awaitingSecondAnswer).2
    = (CallSetRemoteDescription remoteAnswer, None) :: rest
    /\ offersRequested rest = [iceRestartOptions]
    /\ length (offersSent (createAndSendOffer iceRestartOptions awaitingSecondAnswer).2)
       = 3%nat.
Proof.
  assert (Hrun : createAndSendOffer iceRestartOptions awaitingSecondAnswer
                 = (None, (createAndSendOffer iceRestartOptions awaitingSecondAnswer).2))
    by reflexivity.
  destruct (ice_restart_overrides_pending_offer iceRestartOptions awaitingSecondAnswer
              (createAndSendOffer iceRestartOptions awaitingSecondAnswer).2 None
              remoteAnswer) as (rest & Hduring & _ & Hasked & _);
    [discriminate | discriminate | discriminate | reflexivity | reflexivity | reflexivity
     | exact Hrun |].
  exists rest. split; [exact Hduring|]. split; [exact Hasked | reflexivity].
Defined.


End rtc_theory.

(** ** The stream tracker manager *)

Module sfu_theory.
Import sfu.

(** *** sort.Slice *)

Lemma insertBy_Permutation x l : insertBy Z.ltb x l ≡ₚ x :: l.
Proof.
  induction l as [|y l IH]; simpl; [done|].
  destruct (x <? y); [done|].
  rewrite IH. apply Permutation_swap.
Qed.

Lemma sortSlice_Permutation l : sortSlice Z.ltb l ≡ₚ l.
Proof.
  induction l as [|x l IH]; simpl; [done|].
  rewrite insertBy_Permutation. by rewrite IH.
Qed.

Lemma insertBy_Sorted x l : Sorted Z.le l -> Sorted Z.le (insertBy Z.ltb x l).
Proof.
  induction l as [|y l IH]; simpl; intros Hsorted.
  - by repeat constructor.
  - destruct (Z.ltb_spec x y) as [Hlt|Hge].
    + constructor; [done|]. constructor. lia.
    + apply Sorted_inv in Hsorted as [Hl Hhd].
      constructor; [by apply IH|].
      destruct l as [|z l]; simpl.
      * by constructor.
      * apply HdRel_inv in Hhd. destruct (x <? z); by constructor.
Qed.

Lemma sortSlice_Sorted l : Sorted Z.le (sortSlice Z.ltb l).
Proof.
  induction l as [|x l IH]; simpl; [constructor | by apply insertBy_Sorted].
Qed.

Lemma ascending_strict l : Sorted Z.le l -> NoDup l -> StronglySorted Z.lt l.
Proof.
  intros Hsorted%Sorted_StronglySorted; [|intros ???; lia].
  induction Hsorted as [|x l Hl IH Hall]; intros Hnodup; [constructor|].
  apply NoDup_cons in Hnodup as [Hx Hnodup].
  constructor; [by apply IH|].
  rewrite Forall_forall in Hall |- *. intros y Hy.
  assert (x <> y) by (intros ->; by apply Hx).
  specialize (Hall y Hy). lia.
Qed.

Lemma strict_ascending l : StronglySorted Z.lt l -> Sorted Z.le l /\ NoDup l.
Proof.
  induction 1 as [|x l Hl [IHs IHn] Hall]; [split; constructor|].
  split.
  - constructor; [done|]. destruct l as [|y l]; constructor.
    apply Forall_cons in Hall as [Hxy _]. lia.
  - apply NoDup_cons. split; [|done].
    intros Hin. rewrite Forall_forall in Hall. specialize (Hall x Hin). lia.
Qed.

Lemma sortSlice_strict l : NoDup l -> StronglySorted Z.lt (sortSlice Z.ltb l).
Proof.
  intros Hnodup. apply ascending_strict; [apply sortSlice_Sorted|].
  by rewrite sortSlice_Permutation.
Qed.

(** Sorting a slice that is in ascending order already changes nothing. *)
Lemma sortSlice_ascending l : StronglySorted Z.lt l -> sortSlice Z.ltb l = l.
Proof.
  intros [Hsorted _]%strict_ascending.
  apply (Sorted_unique Z.le); [apply sortSlice_Sorted | done | apply sortSlice_Permutation].
Qed.

(** An ascending run of distinct values between two bounds is no longer
    than the interval. *)
Lemma ascending_length lo hi l :
  StronglySorted Z.lt l ->
  Forall (fun x => lo <= x <= hi) l ->
  Z.of_nat (length l) <= Z.max 0 (hi - lo + 1).
Proof.
  intros Hsorted. revert lo.
  induction Hsorted as [|x l Hl IH Hall]; intros lo Hrange; simpl; [lia|].
  apply Forall_cons in Hrange as [Hx Hrange].
  assert (Hrange' : Forall (fun y => x + 1 <= y <= hi) l).
  { rewrite Forall_forall in Hall, Hrange |- *. intros y Hy.
    specialize (Hall y Hy). specialize (Hrange y Hy). lia. }
  specialize (IH (x + 1) Hrange'). lia.
Qed.

Section Manager.
Context {StreamTracker : Type}.
Variable DefaultMaxLayerSpatial : Z.
Implicit Types s : StreamTrackerManager StreamTracker.

(** *** Lemmas on the layer list *)

Lemma hasLayer_spec layer layers : hasLayer layer layers = true <-> layer ∈ layers.
Proof.
  induction layers as [|l layers IH]; simpl.
  - split; [done | by intros ?%elem_of_nil].
  - destruct (Z.eqb_spec l layer) as [->|Hne].
    + split; [intros _; left | done].
    + rewrite IH. split; [by right|].
      intros [?|?]%elem_of_cons; [congruence | done].
Qed.

Lemma hasLayer_false layer layers : hasLayer layer layers = false <-> layer ∉ layers.
Proof.
  rewrite <- hasLayer_spec. destruct (hasLayer layer layers); split; congruence.
Qed.

Lemma seqZ_ascending m n : StronglySorted Z.lt (seqZ m n).
Proof.
  remember (Z.to_nat n) as k eqn:Hk. revert m n Hk.
  induction k as [|k IH]; intros m n Hk.
  - rewrite seqZ_nil by lia. constructor.
  - rewrite seqZ_cons by lia. constructor; [apply IH; lia|].
    rewrite Forall_forall. intros x Hx%elem_of_seqZ. lia.
Qed.

Lemma addAvailableLayer_layers layer s :
  StronglySorted Z.lt (availableLayers s) ->
  StronglySorted Z.lt (availableLayers (addAvailableLayer layer s))
  /\ (forall l, l ∈ availableLayers (addAvailableLayer layer s)
                <-> l = layer \/ l ∈ availableLayers s)
  /\ maxExpectedLayer (addAvailableLayer layer s) = maxExpectedLayer s
  /\ trackers (addAvailableLayer layer s) = trackers s.
Proof.
  intros Hsorted. unfold addAvailableLayer.
  destruct (hasLayer layer (availableLayers s)) eqn:Hhas.
  - apply hasLayer_spec in Hhas. repeat split; try done; [by right|].
    intros [->|?]; done.
  - apply hasLayer_false in Hhas.
    assert (Hlayers : StronglySorted Z.lt (sortSlice Z.ltb (availableLayers s ++ [layer]))
                      /\ forall l, l ∈ sortSlice Z.ltb (availableLayers s ++ [layer])
                                   <-> l = layer \/ l ∈ availableLayers s).
    { split.
      - apply sortSlice_strict. apply NoDup_app. split; [by apply strict_ascending|].
        split; [|apply NoDup_singleton].
        intros x Hx ->%list_elem_of_singleton. done.
      - intros l. rewrite sortSlice_Permutation, elem_of_app, list_elem_of_singleton.
        tauto. }
    destruct (onAvailableLayersChanged _); simpl; by destruct Hlayers.
Qed.

Lemma removeAvailableLayer_layers layer s :
  StronglySorted Z.lt (availableLayers s) ->
  StronglySorted Z.lt (availableLayers (removeAvailableLayer layer s))
  /\ (forall l, l ∈ availableLayers (removeAvailableLayer layer s)
                <-> l <> layer /\ l ∈ availableLayers s)
  /\ maxExpectedLayer (removeAvailableLayer layer s) = maxExpectedLayer s
  /\ trackers (removeAvailableLayer layer s) = trackers s.
Proof.
  intros Hsorted. unfold removeAvailableLayer.
  assert (Hlayers :
    StronglySorted Z.lt (sortSlice Z.ltb (filter (fun l => l <> layer) (availableLayers s)))
    /\ forall l, l ∈ sortSlice Z.ltb (filter (fun l => l <> layer) (availableLayers s))
                 <-> l <> layer /\ l ∈ availableLayers s).
  { split.
    - apply sortSlice_strict, NoDup_filter. by apply strict_ascending.
    - intros l. by rewrite sortSlice_Permutation, list_elem_of_filter. }
  destruct (onAvailableLayersChanged _); simpl; by destruct Hlayers.
Qed.

Lemma statusChanged_layers layer status s :
  StronglySorted Z.lt (availableLayers s) ->
  StronglySorted Z.lt (availableLayers (statusChanged layer status s))
  /\ (forall l, l ∈ availableLayers (statusChanged layer status s)
                <-> if bool_decide (status = StreamStatusStopped)
                    then l <> layer /\ l ∈ availableLayers s
                    else l = layer \/ l ∈ availableLayers s)
  /\ maxExpectedLayer (statusChanged layer status s) = maxExpectedLayer s
  /\ trackers (statusChanged layer status s) = trackers s.
Proof.
  intros Hsorted. unfold statusChanged. case_bool_decide.
  - by apply removeAvailableLayer_layers.
  - by apply addAvailableLayer_layers.
Qed.

Lemma SetMaxExpectedSpatialLayer_frame layer s s' :
  SetMaxExpectedSpatialLayer layer s = Returned s' ->
  availableLayers s' = availableLayers s
  /\ trackers s' = trackers s
  /\ onAvailableLayersChanged s' = onAvailableLayersChanged s
  /\ delivered s' = delivered s
  /\ maxExpectedLayer s' = layer
  /\ (layer <= maxExpectedLayer s \/ layer <> maxInt32).
Proof.
  unfold SetMaxExpectedSpatialLayer.
  destruct (Z.leb_spec layer (maxExpectedLayer s)) as [Hle|Hgt].
  - intros [= <-]. repeat split. by left.
  - destruct (collectTrackersToReset _ _ _) as [ts| |]; try done.
    destruct (Z.eqb_spec layer maxInt32) as [->|Hne]; [done|].
    intros [= <-]. repeat split. by right.
Qed.

(** Along a run the layer list stays in strictly ascending order, and a
    layer is in it exactly when the last status reported for it is not
    Stopped (or, without a report, when it was there at the start). *)
Lemma run_layers calls : forall s0 s,
  run calls s0 = Returned s ->
  StronglySorted Z.lt (availableLayers s0) ->
  StronglySorted Z.lt (availableLayers s)
  /\ forall l, l ∈ availableLayers s
               <-> match lastStatus calls l with
                   | Some status => status <> StreamStatusStopped
                   | None => l ∈ availableLayers s0
                   end.
Proof.
  induction calls as [|call calls IH]; intros s0 s Hrun Hsorted; simpl in Hrun.
  - injection Hrun as <-. by split.
  - destruct call as [layer status|layer].
    + destruct (statusChanged_layers layer status s0 Hsorted) as (Hs1 & Hmem & _).
      destruct (IH _ _ Hrun Hs1) as [Hs Hin]. split; [done|].
      intros l. rewrite Hin. simpl. destruct (lastStatus calls l); [done|].
      rewrite Hmem. destruct (Z.eqb_spec layer l) as [->|Hne].
      * case_bool_decide; [tauto|]. split; [done | by left].
      * case_bool_decide; [split; [tauto | by split; [congruence|]] |].
        split; [intros [?|?]; [congruence | done] | by right].
    + destruct (SetMaxExpectedSpatialLayer layer s0) as [s1| |] eqn:Hset; try done.
      apply SetMaxExpectedSpatialLayer_frame in Hset as (Hav & _).
      rewrite <- Hav in Hsorted. destruct (IH _ _ Hrun Hsorted) as [Hs Hin].
      split; [done|]. intros l. rewrite Hin. simpl.
      destruct (lastStatus calls l); [done | by rewrite Hav].
Qed.

(** Along a run of valid calls the layers stay within the slots and the
    expected layer stays below [maxInt32]. *)
Lemma run_bounds calls : forall s0 s,
  run calls s0 = Returned s ->
  Forall (validCall DefaultMaxLayerSpatial) calls ->
  StronglySorted Z.lt (availableLayers s0) ->
  Forall (fun l => 0 <= l <= DefaultMaxLayerSpatial) (availableLayers s0) ->
  minInt32 <= maxExpectedLayer s0 < maxInt32 ->
  Forall (fun l => 0 <= l <= DefaultMaxLayerSpatial) (availableLayers s)
  /\ minInt32 <= maxExpectedLayer s < maxInt32.
Proof.
  induction calls as [|call calls IH]; intros s0 s Hrun Hvalid Hsorted Hslots Hmax;
    simpl in Hrun.
  - injection Hrun as <-. by split.
  - apply Forall_cons in Hvalid as [Hcall Hvalid].
    destruct call as [layer status|layer]; simpl in Hcall.
    + destruct (statusChanged_layers layer status s0 Hsorted) as (Hs1 & Hmem & Hm & _).
      apply (IH _ _ Hrun Hvalid Hs1); [|by rewrite Hm].
      rewrite Forall_forall in Hslots |- *. intros l Hl%Hmem.
      case_bool_decide; [apply Hslots; tauto|].
      destruct Hl as [->|Hl]; [done | by apply Hslots].
    + destruct (SetMaxExpectedSpatialLayer layer s0) as [s1| |] eqn:Hset; try done.
      apply SetMaxExpectedSpatialLayer_frame in Hset as (Hav & _ & _ & _ & Hm & Hle).
      apply (IH _ _ Hrun Hvalid); rewrite ?Hav; try done.
      rewrite Hm. unfold inInt32 in Hcall. lia.
Qed.

Lemma IsReducedQuality_spec s :
  StronglySorted Z.lt (availableLayers s) ->
  Forall (fun l => 0 <= l <= DefaultMaxLayerSpatial) (availableLayers s) ->
  DefaultMaxLayerSpatial < maxInt32 ->
  minInt32 <= maxExpectedLayer s < maxInt32 ->
  IsReducedQuality s = true
  <-> Z.of_nat (length (availableLayers s)) < maxExpectedLayer s + 1.
Proof.
  intros Hsorted Hslots Hconst Hmax. unfold IsReducedQuality.
  pose proof (ascending_length 0 DefaultMaxLayerSpatial _ Hsorted Hslots) as Hlen.
  rewrite !wrap32_id, Z.ltb_lt; [done | |]; unfold inInt32, minInt32, maxInt32 in *; lia.
Qed.

Lemma run_status_changes_return calls : forall s0,
  onlyStatusChanges calls -> exists s, run calls s0 = Returned s.
Proof.
  induction calls as [|call calls IH]; intros s0 Honly; simpl.
  - by exists s0.
  - apply Forall_cons in Honly as [Hcall Honly].
    destruct call as [layer status|layer]; [by apply IH | done].
Qed.

(** C7.  A sequence of status notifications (each one an addAvailableLayer
    or a removeAvailableLayer) on a new manager always returns.  After any
    run, also one with SetMaxExpectedSpatialLayer calls in between, the
    available layers are in strictly ascending order without duplicates,
    and a layer is among them exactly when the last status reported for it
    was not Stopped.  When the reported layers are slot indices and the
    expected layers are int32 values, IsReducedQuality is true exactly when
    len(availableLayers) < maxExpectedLayer + 1, with no overflow on
    either side. *)
Theorem available_layers_follow_status (calls : list ManagerCall) :
  (onlyStatusChanges calls -> exists s, run calls (NewStreamTrackerManager DefaultMaxLayerSpatial) = Returned s)
  /\ forall s, run calls (NewStreamTrackerManager DefaultMaxLayerSpatial) = Returned s ->
       StronglySorted Z.lt (availableLayers s)
       /\ NoDup (availableLayers s)
       /\ (forall l, l ∈ availableLayers s
                     <-> exists status, lastStatus calls l = Some status
                                        /\ status <> StreamStatusStopped)
       /\ (minInt32 <= DefaultMaxLayerSpatial < maxInt32 ->
           Forall (validCall DefaultMaxLayerSpatial) calls ->
           (IsReducedQuality s = true
            <-> Z.of_nat (length (availableLayers s)) < maxExpectedLayer s + 1)).
Proof.
  split; [apply run_status_changes_return|].
  intros s Hrun.
  assert (Hnil : StronglySorted Z.lt (availableLayers (NewStreamTrackerManager (StreamTracker := StreamTracker) DefaultMaxLayerSpatial)))
    by apply SSorted_nil.
  destruct (run_layers _ _ _ Hrun Hnil) as [Hsorted Hmem].
  split; [done|]. split; [by apply strict_ascending|]. split.
  - intros l. rewrite Hmem. destruct (lastStatus calls l) as [status|].
    + split; [by exists status | by intros (? & [= <-] & ?)].
    + simpl. split; [by intros ?%elem_of_nil | by intros (? & ? & _)].
  - intros Hconst Hvalid.
    destruct (run_bounds _ _ _ Hrun Hvalid Hnil) as [Hslots Hmax];
      [apply Forall_nil_2 | done |].
    apply IsReducedQuality_spec; try done. lia.
Qed.

(** *** SetMaxExpectedSpatialLayer *)

Lemma trackerAt_in_range l s :
  0 <= l < Z.of_nat (length (trackers s)) ->
  exists slot, trackers s !! Z.to_nat l = Some slot /\ trackerAt l s = Returned slot.
Proof.
  intros Hrange. unfold trackerAt.
  destruct (Z.ltb_spec l 0); [lia|].
  destruct (Z.leb_spec (Z.of_nat (length (trackers s))) l); [lia|]. simpl.
  destruct (lookup_lt_is_Some_2 (trackers s) (Z.to_nat l)) as [slot Hslot]; [lia|].
  exists slot. by rewrite Hslot.
Qed.

(** The loop visits the layers in order and picks the tracker of each layer
    that is not available and whose slot is not nil. *)
Lemma collectTrackersToReset_spec s layers : forall acc,
  StronglySorted Z.lt layers ->
  Forall (fun l => 0 <= l < Z.of_nat (length (trackers s))) layers ->
  exists picked : list (Z * StreamTracker),
    collectTrackersToReset s layers acc = Returned (acc ++ (picked.*2))
    /\ StronglySorted Z.lt (picked.*1)
    /\ Forall (fun p => trackers s !! Z.to_nat p.1 = Some (Some p.2)) picked
    /\ forall l, l ∈ (picked.*1)
                 <-> l ∈ layers /\ (l ∉ availableLayers s)
                     /\ exists tracker, trackers s !! Z.to_nat l = Some (Some tracker).
Proof.
  induction layers as [|l layers IH]; intros acc Hsorted Hrange; simpl.
  - exists []. simpl. rewrite app_nil_r.
    split; [done|]. split; [constructor|]. split; [constructor|].
    intros l. split; [by intros ?%elem_of_nil | by intros [?%elem_of_nil _]].
  - apply StronglySorted_inv in Hsorted as [Hsorted Hfirst].
    apply Forall_cons in Hrange as [Hl Hrange].
    rewrite Forall_forall in Hfirst.
    assert (Hskip : forall acc',
      (l ∈ availableLayers s \/ trackers s !! Z.to_nat l = Some None) ->
      exists picked : list (Z * StreamTracker),
        collectTrackersToReset s layers acc' = Returned (acc' ++ (picked.*2))
        /\ StronglySorted Z.lt (picked.*1)
        /\ Forall (fun p => trackers s !! Z.to_nat p.1 = Some (Some p.2)) picked
        /\ forall l0, l0 ∈ (picked.*1)
                      <-> l0 ∈ l :: layers /\ (l0 ∉ availableLayers s)
                          /\ exists tracker,
                               trackers s !! Z.to_nat l0 = Some (Some tracker)).
    { intros acc' Hwhy.
      destruct (IH acc' Hsorted Hrange) as (picked & Hrun & Hasc & Hslots & Hmem).
      exists picked. do 3 (split; [done|]). intros l0. rewrite Hmem, elem_of_cons.
      split; [tauto|]. intros ([->|Hin] & Hno & tracker & Hslot); [|by eauto].
      destruct Hwhy as [?|Hnil]; [done | congruence]. }
    unfold hasSpatialLayerLocked.
    destruct (hasLayer l (availableLayers s)) eqn:Hhas.
    { apply Hskip. left. by apply hasLayer_spec. }
    apply hasLayer_false in Hhas.
    destruct (trackerAt_in_range l s Hl) as (slot & Hslot & ->).
    destruct slot as [tracker|]; [|apply Hskip; by right].
    destruct (IH (acc ++ [tracker]) Hsorted Hrange) as (picked & Hrun & Hasc & Hslots & Hmem).
    exists ((l, tracker) :: picked). simpl. split; [by rewrite Hrun, <- app_assoc|].
    split; [|split; [by constructor|]].
    + constructor; [done|]. rewrite Forall_forall.
      intros l0 Hl0%Hmem. apply Hfirst. tauto.
    + intros l0. rewrite !elem_of_cons, Hmem. split.
      * intros [->|?]; [|tauto]. split; [by left|]. split; [done | by exists tracker].
      * intros ([->|Hin] & Hno & Hsome); [by left | right; tauto].
Qed.

Lemma collectTrackersToReset_panics s layers : forall acc l,
  l ∈ layers ->
  l ∉ availableLayers s ->
  l < 0 \/ Z.of_nat (length (trackers s)) <= l ->
  collectTrackersToReset s layers acc = Panicked.
Proof.
  induction layers as [|l0 layers IH]; intros acc l Hin Hno Hout; simpl.
  - by apply elem_of_nil in Hin.
  - assert (Hrest : l = l0 \/ l ∈ layers) by (by apply elem_of_cons in Hin).
    unfold hasSpatialLayerLocked.
    destruct (hasLayer l0 (availableLayers s)) eqn:Hhas.
    + destruct Hrest as [->|Hrest]; [by apply hasLayer_spec in Hhas | by eapply IH].
    + unfold trackerAt.
      destruct ((l0 <? 0) || (Z.of_nat (length (trackers s)) <=? l0)) eqn:Hrange; [done|].
      destruct Hrest as [->|Hrest].
      * apply orb_false_iff in Hrange as [Hneg Hlen].
        apply Z.ltb_ge in Hneg. apply Z.leb_gt in Hlen. lia.
      * destruct (default None (trackers s !! Z.to_nat l0)); by eapply IH.
Qed.

(** C6.  SetMaxExpectedSpatialLayer(layer) with layer at most the current
    bound stores the bound, calls Reset on no tracker and changes nothing
    else.  With layer above the current bound, the bound at least -1, layer
    a slot index and below MaxInt32, it calls Reset on the tracker of every
    layer l with old < l <= layer that is not in availableLayers and whose
    slot is not nil, once each in ascending order of l, and on no other
    tracker; it stores the bound; availableLayers, the slots, the callback
    and what the callback received are as before.  When some layer in
    (old, layer] that is not in availableLayers has no slot, the call
    panics, so nothing is stored. *)
Theorem SetMaxExpectedSpatialLayer_resets (layer : Z) (s : StreamTrackerManager StreamTracker) :
  (layer <= maxExpectedLayer s ->
   exists s',
     SetMaxExpectedSpatialLayer layer s = Returned s'
     /\ maxExpectedLayer s' = layer
     /\ resets s' = resets s
     /\ availableLayers s' = availableLayers s
     /\ trackers s' = trackers s
     /\ onAvailableLayersChanged s' = onAvailableLayersChanged s
     /\ delivered s' = delivered s)
  /\ (maxExpectedLayer s < layer ->
      -1 <= maxExpectedLayer s ->
      layer < Z.of_nat (length (trackers s)) ->
      layer < maxInt32 ->
      exists s' (picked : list (Z * StreamTracker)),
        SetMaxExpectedSpatialLayer layer s = Returned s'
        /\ resets s' = resets s ++ picked.*2
        /\ StronglySorted Z.lt (picked.*1)
        /\ Forall (fun p => trackers s !! Z.to_nat p.1 = Some (Some p.2)) picked
        /\ (forall l, l ∈ (picked.*1)
                      <-> maxExpectedLayer s < l <= layer
                          /\ (l ∉ availableLayers s)
                          /\ exists tracker,
                               trackers s !! Z.to_nat l = Some (Some tracker))
        /\ maxExpectedLayer s' = layer
        /\ availableLayers s' = availableLayers s
        /\ trackers s' = trackers s
        /\ onAvailableLayersChanged s' = onAvailableLayersChanged s
        /\ delivered s' = delivered s)
  /\ (inInt32 (maxExpectedLayer s) ->
      inInt32 layer ->
      forall l, maxExpectedLayer s < l <= layer ->
                (l ∉ availableLayers s) ->
                l < 0 \/ Z.of_nat (length (trackers s)) <= l ->
                SetMaxExpectedSpatialLayer layer s = Panicked).
Proof.
  unfold SetMaxExpectedSpatialLayer. split; [|split].
  - intros Hle. destruct (Z.leb_spec layer (maxExpectedLayer s)); [|lia].
    eexists. split; [reflexivity|]. by do 5 (split; [reflexivity|]).
  - intros Hgt Hlow Hslot Hmax.
    destruct (Z.leb_spec layer (maxExpectedLayer s)); [lia|].
    rewrite wrap32_id by (unfold inInt32, minInt32, maxInt32 in *; lia).
    destruct (collectTrackersToReset_spec s
                (seqZ (maxExpectedLayer s + 1) (layer - (maxExpectedLayer s + 1) + 1)) [])
      as (picked & Hrun & Hasc & Hslots & Hmem).
    { apply seqZ_ascending. }
    { rewrite Forall_forall. intros l Hl%elem_of_seqZ. lia. }
    rewrite Hrun. simpl.
    destruct (Z.eqb_spec layer maxInt32); [lia|].
    eexists. exists picked. split; [reflexivity|]. simpl.
    do 3 (split; [done|]). split; [|by do 4 (split; [reflexivity|])].
    intros l. rewrite Hmem, elem_of_seqZ.
    split; intros (? & ? & ?); (split; [lia | by split]).
  - intros Hold Hnew l Hl Hno Hout.
    destruct (Z.leb_spec layer (maxExpectedLayer s)); [lia|].
    rewrite wrap32_id by (unfold inInt32, minInt32, maxInt32 in *; lia).
    rewrite (collectTrackersToReset_panics s _ [] l); [done | | done | done].
    apply elem_of_seqZ. lia.
Qed.

(** *** The change callback *)

(** C10.  With a callback registered, removeAvailableLayer calls it on
    every invocation, with the layer list it has just stored; when the
    layer was not in availableLayers the list it delivers holds the same
    layers as before (and is the same slice when the list was in ascending
    order).  addAvailableLayer for a layer that is already in
    availableLayers returns without calling the callback and without
    changing the manager. *)
Theorem stopped_always_notifies (layer : Z) (s : StreamTrackerManager StreamTracker)
    (handler : LayersHandler) :
  onAvailableLayersChanged s = Some handler ->
  delivered (removeAvailableLayer layer s)
  = delivered s ++ [availableLayers (removeAvailableLayer layer s)]
  /\ (layer ∉ availableLayers s ->
      availableLayers (removeAvailableLayer layer s) ≡ₚ availableLayers s
      /\ (StronglySorted Z.lt (availableLayers s) ->
          availableLayers (removeAvailableLayer layer s) = availableLayers s))
  /\ (layer ∈ availableLayers s -> addAvailableLayer layer s = s).
Proof.
  intros Hhandler. split; [|split].
  - unfold removeAvailableLayer. simpl. by rewrite Hhandler.
  - intros Hnot.
    assert (Hfilter : filter (fun l => l <> layer) (availableLayers s) = availableLayers s).
    { induction (availableLayers s) as [|x l IH]; [done|].
      apply not_elem_of_cons in Hnot as [Hx Hl].
      rewrite filter_cons_True by done. by rewrite IH. }
    unfold removeAvailableLayer. simpl. rewrite Hhandler. simpl. rewrite Hfilter.
    split; [apply sortSlice_Permutation | apply sortSlice_ascending].
  - intros Hin%hasLayer_spec. unfold addAvailableLayer. by rewrite Hin.
Qed.

(** A status other than Stopped for a layer that is not yet available
    stores the layer and calls the callback once. *)
Lemma started_notifies_once layer s handler :
  onAvailableLayersChanged s = Some handler ->
  layer ∉ availableLayers s ->
  delivered (addAvailableLayer layer s)
  = delivered s ++ [availableLayers (addAvailableLayer layer s)].
Proof.
  intros Hhandler Hnot%hasLayer_false. unfold addAvailableLayer.
  rewrite Hnot. simpl. by rewrite Hhandler.
Qed.

(** *** Further properties of the manager *)

Lemma ascending_unique (l1 l2 : list Z) :
  StronglySorted Z.lt l1 -> StronglySorted Z.lt l2 ->
  (forall x, x ∈ l1 <-> x ∈ l2) -> l1 = l2.
Proof.
  intros [Hs1 Hn1]%strict_ascending [Hs2 Hn2]%strict_ascending Hsame.
  apply (Sorted_unique Z.le); [done | done |].
  by apply NoDup_Permutation.
Qed.

Lemma trackerAt_set_trackers_eq layer slot s :
  0 <= layer < Z.of_nat (length (trackers s)) ->
  trackerAt layer (set_trackers (<[Z.to_nat layer := slot]> (trackers s)) s)
  = Returned slot.
Proof.
  intros Hrange. unfold trackerAt. simpl. rewrite length_insert.
  destruct (Z.ltb_spec layer 0); [lia|].
  destruct (Z.leb_spec (Z.of_nat (length (trackers s))) layer); [lia|]. simpl.
  rewrite list_lookup_insert_eq by lia. done.
Qed.

Lemma trackerAt_set_trackers_ne layer slot l s :
  0 <= layer ->
  l <> layer ->
  trackerAt l (set_trackers (<[Z.to_nat layer := slot]> (trackers s)) s)
  = trackerAt l s.
Proof.
  intros Hlayer Hne. unfold trackerAt. simpl. rewrite length_insert.
  destruct ((l <? 0) || (Z.of_nat (length (trackers s)) <=? l)) eqn:Hout; [done|].
  apply orb_false_iff in Hout as [Hneg _]. apply Z.ltb_ge in Hneg.
  rewrite list_lookup_insert_ne by lia. done.
Qed.

(** X8.  A tracker put into a slot is what GetTracker reads back, and
    RemoveTracker empties the slot again; neither touches another slot,
    the available layers or the callback, so a layer whose tracker is
    removed stays available.  A layer below 0 or past the last slot makes
    all three panic. *)
Theorem tracker_slot_round_trip (layer : Z) (tracker : StreamTracker)
    (s : StreamTrackerManager StreamTracker) :
  (0 <= layer < Z.of_nat (length (trackers s)) ->
   exists s',
     AddTracker layer tracker s = Returned s'
     /\ GetTracker layer s' = Returned (Some tracker)
     /\ (forall l, l <> layer -> GetTracker l s' = GetTracker l s)
     /\ availableLayers s' = availableLayers s
     /\ delivered s' = delivered s
     /\ exists s'',
          RemoveTracker layer s' = Returned s''
          /\ GetTracker layer s'' = Returned None
          /\ (forall l, l <> layer -> GetTracker l s'' = GetTracker l s)
          /\ availableLayers s'' = availableLayers s
          /\ delivered s'' = delivered s)
  /\ (layer < 0 \/ Z.of_nat (length (trackers s)) <= layer ->
      AddTracker layer tracker s = Panicked
      /\ RemoveTracker layer s = Panicked
      /\ GetTracker layer s = Panicked).
Proof.
  split.
  - intros Hrange.
    assert (Hin : (layer <? 0) || (Z.of_nat (length (trackers s)) <=? layer) = false).
    { apply orb_false_iff. split; [apply Z.ltb_ge | apply Z.leb_gt]; lia. }
    exists (set_trackers (<[Z.to_nat layer := Some tracker]> (trackers s)) s).
    unfold AddTracker, GetTracker. rewrite Hin.
    split; [done|]. split; [by apply trackerAt_set_trackers_eq|].
    split; [intros l Hl; apply trackerAt_set_trackers_ne; [lia | done]|].
    split; [done|]. split; [done|].
    exists (set_trackers (<[Z.to_nat layer := None]>
                            (<[Z.to_nat layer := Some tracker]> (trackers s))) s).
    unfold RemoveTracker. simpl. rewrite length_insert, Hin.
    split; [done|]. split; [|split; [|done]].
    + rewrite list_insert_insert_eq.
      by apply trackerAt_set_trackers_eq.
    + intros l Hl. rewrite list_insert_insert_eq.
      apply trackerAt_set_trackers_ne; [lia | done].
  - intros Hout.
    assert (Hpanic : (layer <? 0) || (Z.of_nat (length (trackers s)) <=? layer) = true).
    { apply orb_true_iff. destruct Hout; [left; apply Z.ltb_lt | right; apply Z.leb_le]; lia. }
    unfold AddTracker, RemoveTracker, GetTracker, trackerAt. by rewrite Hpanic.
Qed.


Lemma clear_slots (ts : list (option StreamTracker)) :
  foldl (fun ts layer => <[layer := None]> ts) ts (seq 0 (length ts))
  = replicate (length ts) None.
Proof.
  assert (Hk : forall k,
    (k <= length ts)%nat ->
    foldl (fun ts layer => <[layer := None]> ts) ts (seq 0 k)
    = replicate k None ++ drop k ts).
  { induction k as [|k IH]; intros Hle; [done|].
    rewrite seq_S, foldl_app. simpl. rewrite IH by lia.
    destruct (lookup_lt_is_Some_2 ts k) as [slot Hslot]; [lia|].
    rewrite (drop_S _ _ _ Hslot).
    rewrite insert_app_r_alt by (rewrite length_replicate; lia).
    rewrite length_replicate, Nat.sub_diag. simpl.
    rewrite (cons_middle None (replicate k None)), app_assoc, <- replicate_S_end.
    reflexivity. }
  rewrite Hk by lia. by rewrite drop_all, app_nil_r.
Qed.

Lemma occupied_slots (slots : list (option StreamTracker)) :
  Some <$> omap id slots = filter is_Some slots.
Proof.
  induction slots as [|[tracker|] rest IH]; [done| |].
  - rewrite filter_cons_True by (by eexists). cbn. by rewrite IH.
  - rewrite filter_cons_False by (by intros [? ?]). done.
Qed.

(** X9.  RemoveAllTrackers leaves every slot nil and stops the trackers
    that sat in a slot, each once and in slot order: the list of stopped
    trackers is the list of slots with the nil ones left out.  It leaves
    the available layers and the expected layer alone; called again it
    stops nothing. *)
Theorem RemoveAllTrackers_clears (s : StreamTrackerManager StreamTracker) :
  trackers (RemoveAllTrackers s).1 = replicate (length (trackers s)) None
  /\ (forall l, 0 <= l < Z.of_nat (length (trackers s)) ->
        GetTracker l (RemoveAllTrackers s).1 = Returned None)
  /\ Some <$> (RemoveAllTrackers s).2 = filter is_Some (trackers s)
  /\ (forall tracker, tracker ∈ (RemoveAllTrackers s).2 <-> Some tracker ∈ trackers s)
  /\ availableLayers (RemoveAllTrackers s).1 = availableLayers s
  /\ maxExpectedLayer (RemoveAllTrackers s).1 = maxExpectedLayer s
  /\ (RemoveAllTrackers (RemoveAllTrackers s).1).2 = [].
Proof.
  unfold RemoveAllTrackers. simpl. rewrite clear_slots.
  split; [done|]. split; [|split; [|split; [|split; [done|split; [done|]]]]].
  - intros l Hl. unfold GetTracker, trackerAt. simpl. rewrite length_replicate.
    destruct (Z.ltb_spec l 0); [lia|].
    destruct (Z.leb_spec (Z.of_nat (length (trackers s))) l); [lia|]. simpl.
    rewrite lookup_replicate_2 by lia. done.
  - apply occupied_slots.
  - intros tracker. rewrite list_elem_of_omap. split.
    + intros (slot & Hin & Hslot). simpl in Hslot. by subst slot.
    + intros Hin. by exists (Some tracker).
  - induction (length (trackers s)) as [|n IH]; [done|]. simpl. exact IH.
Qed.

Lemma statusChanged_delivery layer status s handler :
  onAvailableLayersChanged s = Some handler ->
  onAvailableLayersChanged (statusChanged layer status s) = Some handler
  /\ ((delivered (statusChanged layer status s) = delivered s
       /\ availableLayers (statusChanged layer status s) = availableLayers s)
      \/ delivered (statusChanged layer status s)
         = delivered s ++ [availableLayers (statusChanged layer status s)]).
Proof.
  intros Hhandler. unfold statusChanged. case_bool_decide.
  - unfold removeAvailableLayer. simpl. rewrite Hhandler. simpl. split; [done | by right].
  - unfold addAvailableLayer. destruct (hasLayer layer (availableLayers s)).
    + split; [done | by left].
    + simpl. rewrite Hhandler. simpl. split; [done | by right].
Qed.

Lemma run_deliveries calls : forall s0 s handler,
  run calls s0 = Returned s ->
  onAvailableLayersChanged s0 = Some handler ->
  StronglySorted Z.lt (availableLayers s0) ->
  Forall (StronglySorted Z.lt) (delivered s0) ->
  default [] (last (delivered s0)) = availableLayers s0 ->
  Forall (StronglySorted Z.lt) (delivered s)
  /\ default [] (last (delivered s)) = availableLayers s.
Proof.
  induction calls as [|call calls IH]; intros s0 s handler Hrun Hhandler Hsorted Hall Hlast;
    simpl in Hrun.
  - injection Hrun as <-. by split.
  - destruct call as [layer status|layer].
    + destruct (statusChanged_layers layer status s0 Hsorted) as (Hs1 & _).
      destruct (statusChanged_delivery layer status s0 handler Hhandler)
        as [Hh1 [[Hd Ha]|Hd]].
      * apply (IH _ _ handler Hrun Hh1 Hs1); rewrite Hd; [done|]. by rewrite Ha.
      * apply (IH _ _ handler Hrun Hh1 Hs1); rewrite Hd.
        -- apply Forall_app. split; [done|]. by repeat constructor.
        -- by rewrite last_snoc.
    + destruct (SetMaxExpectedSpatialLayer layer s0) as [s1| |] eqn:Hset; try done.
      apply SetMaxExpectedSpatialLayer_frame in Hset as (Hav & _ & Hh & Hd & _).
      apply (IH _ _ handler Hrun); rewrite ?Hav, ?Hd, ?Hh; done.
Qed.

(** X10.  Notifications handled one at a time.  On a manager whose
    callback was registered before the first notification, after any
    sequence of status notifications and SetMaxExpectedSpatialLayer calls
    in which each call, its callback included, returns before the next
    begins: every slice the callback received is in strictly ascending
    order, and the one it received last is the current list of available
    layers (none received means none available).  The callback is called
    after the lock is released, so notifications that overlap are outside
    this statement: their deliveries can arrive in another order than
    their updates. *)
Theorem last_delivery_is_current (calls : list ManagerCall) (handler : LayersHandler)
    (s : StreamTrackerManager StreamTracker) :
  run calls (OnAvailableLayersChanged (Some handler)
               (NewStreamTrackerManager DefaultMaxLayerSpatial)) = Returned s ->
  Forall (StronglySorted Z.lt) (delivered s)
  /\ default [] (last (delivered s)) = GetAvailableLayers s.
Proof.
  intros Hrun. unfold GetAvailableLayers.
  apply (run_deliveries _ _ _ handler Hrun); simpl; try done; constructor.
Qed.

(** X11.  Notifications for two different layers commute: whichever is
    handled first, the list of available layers ends up the same. *)
Theorem notifications_for_different_layers_commute (l1 l2 : Z) (status1 status2 : StreamStatus)
    (s : StreamTrackerManager StreamTracker) :
  StronglySorted Z.lt (availableLayers s) ->
  l1 <> l2 ->
  availableLayers (statusChanged l1 status1 (statusChanged l2 status2 s))
  = availableLayers (statusChanged l2 status2 (statusChanged l1 status1 s)).
Proof.
  intros Hsorted Hne.
  destruct (statusChanged_layers l1 status1 s Hsorted) as (Hs1 & Hm1 & _).
  destruct (statusChanged_layers l2 status2 s Hsorted) as (Hs2 & Hm2 & _).
  destruct (statusChanged_layers l1 status1 _ Hs2) as (Hs12 & Hm12 & _).
  destruct (statusChanged_layers l2 status2 _ Hs1) as (Hs21 & Hm21 & _).
  apply ascending_unique; [done | done |].
  intros x. rewrite Hm12, Hm21.
  destruct (bool_decide (status1 = StreamStatusStopped));
    destruct (bool_decide (status2 = StreamStatusStopped));
    rewrite Hm1, Hm2; intuition congruence.
Qed.

(** X12.  Adding a layer that was not available and removing it again, or
    removing one that was available and adding it again, gives back the
    list of available layers there was. *)
Theorem layer_add_remove_round_trip (layer : Z) (s : StreamTrackerManager StreamTracker) :
  StronglySorted Z.lt (availableLayers s) ->
  (layer ∉ availableLayers s ->
   availableLayers (removeAvailableLayer layer (addAvailableLayer layer s))
   = availableLayers s)
  /\ (layer ∈ availableLayers s ->
      availableLayers (addAvailableLayer layer (removeAvailableLayer layer s))
      = availableLayers s).
Proof.
  intros Hsorted.
  destruct (addAvailableLayer_layers layer s Hsorted) as (Hsa & Hma & _).
  destruct (removeAvailableLayer_layers layer s Hsorted) as (Hsr & Hmr & _).
  destruct (removeAvailableLayer_layers layer _ Hsa) as (Hsra & Hmra & _).
  destruct (addAvailableLayer_layers layer _ Hsr) as (Hsar & Hmar & _).
  split; intros Hin; (apply ascending_unique; [done | done |]); intros x.
  - rewrite Hmra, Hma. split; [intros [? [?|?]]; done|].
    intros Hx. split; [by intros -> | by right].
  - rewrite Hmar, Hmr. split; [intros [->|[_ ?]]; done|].
    intros Hx. destruct (decide (x = layer)); [by left | by right].
Qed.



(** X13.  Raising the expected layer over a layer that has no slot (below
    0, or past the last slot) and is not in the available layers panics
    with an index out of range; the bound is not stored. *)
Theorem SetMaxExpectedSpatialLayer_panics_without_slot (layer l : Z)
    (s : StreamTrackerManager StreamTracker) :
  inInt32 (maxExpectedLayer s) ->
  inInt32 layer ->
  maxExpectedLayer s < l <= layer ->
  l ∉ availableLayers s ->
  l < 0 \/ Z.of_nat (length (trackers s)) <= l ->
  SetMaxExpectedSpatialLayer layer s = Panicked.
Proof.
  intros Hmax Hlayer Hl Hno Hout. unfold SetMaxExpectedSpatialLayer.
  destruct (Z.leb_spec layer (maxExpectedLayer s)); [lia|].
  rewrite wrap32_id by (unfold inInt32, minInt32, maxInt32 in *; lia).
  rewrite (collectTrackersToReset_panics s _ [] l); [done | | done | done].
  apply elem_of_seqZ. lia.
Qed.

(** X14.  Setting the same expected layer a second time changes nothing
    and resets no tracker, also when the first call raised the bound and
    reset some. *)
Theorem SetMaxExpectedSpatialLayer_twice (layer : Z)
    (s s1 : StreamTrackerManager StreamTracker) :
  SetMaxExpectedSpatialLayer layer s = Returned s1 ->
  SetMaxExpectedSpatialLayer layer s1 = Returned s1.
Proof.
  intros Hfirst.
  pose proof (SetMaxExpectedSpatialLayer_frame _ _ _ Hfirst) as (_ & _ & _ & _ & Hmax & _).
  unfold SetMaxExpectedSpatialLayer. rewrite Hmax.
  destruct (Z.leb_spec layer layer); [|lia].
  f_equal. destruct s1. simpl in Hmax. by rewrite Hmax.
Qed.

(** X15.  While no layer above the expected one is available,
    IsReducedQuality is false exactly when every layer from 0 to the
    expected one is available. *)
Theorem full_quality_means_all_layers (s : StreamTrackerManager StreamTracker) :
  StronglySorted Z.lt (availableLayers s) ->
  Forall (fun l => 0 <= l <= maxExpectedLayer s) (availableLayers s) ->
  minInt32 <= maxExpectedLayer s < maxInt32 ->
  IsReducedQuality s = false <-> allAvailable 0 (maxExpectedLayer s) s.
Proof.
  intros Hsorted Hbelow Hmax. unfold IsReducedQuality, allAvailable.
  pose proof (ascending_length 0 (maxExpectedLayer s) _ Hsorted Hbelow) as Hlen.
  destruct (strict_ascending _ Hsorted) as [_ Hnodup].
  rewrite !wrap32_id by (unfold inInt32, minInt32, maxInt32 in *; lia).
  rewrite Z.ltb_ge.
  assert (Hsub : availableLayers s ⊆+ seqZ 0 (maxExpectedLayer s + 1)).
  { apply NoDup_submseteq; [done|]. intros x Hx. apply elem_of_seqZ.
    rewrite Forall_forall in Hbelow. specialize (Hbelow x Hx). lia. }
  split.
  - intros Hfull l Hl.
    assert (Hperm : availableLayers s ≡ₚ seqZ 0 (maxExpectedLayer s + 1)).
    { apply submseteq_length_Permutation; [done|]. rewrite length_seqZ. lia. }
    rewrite Hperm. apply elem_of_seqZ. lia.
  - intros Hall.
    assert (Hsup : seqZ 0 (maxExpectedLayer s + 1) ⊆+ availableLayers s).
    { apply NoDup_submseteq; [apply NoDup_seqZ|]. intros x Hx%elem_of_seqZ.
      apply Hall. lia. }
    apply submseteq_length in Hsup. rewrite length_seqZ in Hsup. lia.
Qed.


End Manager.

(** *** Scenarios: three slots, trackers named by strings *)

Example threeSlots_state :
  trackers threeSlots = [Some "tracker 0"; Some "tracker 1"; None]
  /\ availableLayers threeSlots = [0]
  /\ maxExpectedLayer threeSlots = 0
  /\ delivered threeSlots = [[0]].
Proof. repeat split. Qed.

Example expected_layer_bump :
  SetMaxExpectedSpatialLayer 2 threeSlots
  = Returned (resetAll ["tracker 1"] (set_maxExpectedLayer 2 threeSlots))
  /\ availableLayers (returned (SetMaxExpectedSpatialLayer 2 threeSlots) threeSlots) = [0]
  /\ IsReducedQuality (returned (SetMaxExpectedSpatialLayer 2 threeSlots) threeSlots) = true.
Proof. repeat split. Qed.

(** Past the last slot the index is out of range. *)
Example expected_layer_past_slots :
  SetMaxExpectedSpatialLayer 3 threeSlots = Panicked.
Proof. reflexivity. Qed.

Example layers_after_notifications :
  run fiveCalls (NewStreamTrackerManager (StreamTracker := string) 2)
  = Returned (mkStreamTrackerManager [None; None; None] [0; 1] 1 None [] []).
Proof. reflexivity. Qed.

(** C10 on S3: Stopped for layer 1, which is not available, delivers [0]
    again; Active for layer 0, which is available, delivers nothing. *)
Lemma stopped_always_notifies_witness :
  delivered (removeAvailableLayer 1 threeSlots) = [[0]; [0]]
  /\ availableLayers (removeAvailableLayer 1 threeSlots) = [0]
  /\ addAvailableLayer 0 threeSlots = threeSlots.
Proof.
  destruct (stopped_always_notifies 1 threeSlots 0%nat eq_refl) as (Hcalled & Hsame & _).
  destruct (stopped_always_notifies 0 threeSlots 0%nat eq_refl) as (_ & _ & Hquiet).
  split; [exact Hcalled|]. split.
  - apply Hsame; [|repeat constructor].
    intros Hin. apply list_elem_of_singleton in Hin. discriminate Hin.
  - apply Hquiet. by left.
Defined.

(** C6 on S3: lowering the expected layer resets nothing; raising it from
    0 to 2 resets the tracker of layer 1 and no other. *)
Lemma SetMaxExpectedSpatialLayer_resets_witness :
  (exists s',
     SetMaxExpectedSpatialLayer (-1) threeSlots = Returned s'
     /\ maxExpectedLayer s' = -1
     /\ resets s' = [])
  /\ (exists s',
        SetMaxExpectedSpatialLayer 2 threeSlots = Returned s'
        /\ resets s' = ["tracker 1"]
        /\ maxExpectedLayer s' = 2
        /\ availableLayers s' = [0]).
Proof.
  destruct (SetMaxExpectedSpatialLayer_resets (-1) threeSlots) as [Hlower _].
  destruct (SetMaxExpectedSpatialLayer_resets 2 threeSlots) as (_ & Hraise & _).
  split.
  - destruct Hlower as (s' & Hrun & Hmax & Hresets & _); [discriminate|].
    exists s'. split; [exact Hrun|]. split; [exact Hmax | exact Hresets].
  - destruct Hraise as (s' & picked & Hrun & Hresets & _ & _ & _ & Hmax & Hav & _);
      [reflexivity | discriminate | reflexivity | reflexivity |].
    exists s'. split; [exact Hrun|]. split; [|split; [exact Hmax | exact Hav]].
    vm_compute in Hrun. by injection Hrun as <-.
Defined.

(** C6 as worded fails on S3 when the new bound is past the last slot:
    layer 3 is not available and has no slot, the call panics, and no
    bound is stored. *)
Lemma raise_past_slots_stores_nothing :
  ~ resetsUnavailableLayers 3 threeSlots.
Proof.
  intros [_ Hraise].
  destruct Hraise as (s' & newly & Hrun & _); [reflexivity|].
  vm_compute in Hrun. discriminate Hrun.
Qed.

(** C7 on five calls: layers 0 and 1 remain, in order, and with the
    expected layer at 1 the quality is not reduced. *)
Lemma available_layers_follow_status_witness :
  let s := mkStreamTrackerManager (StreamTracker := string)
             [None; None; None] [0; 1] 1 None [] [] in
  StronglySorted Z.lt (availableLayers s)
  /\ (forall l, l ∈ availableLayers s
                <-> exists status, lastStatus fiveCalls l = Some status
                                   /\ status <> StreamStatusStopped)
  /\ (IsReducedQuality s = true
      <-> Z.of_nat (length (availableLayers s)) < maxExpectedLayer s + 1).
Proof.
  destruct (available_layers_follow_status (StreamTracker := string) 2 fiveCalls)
    as [_ Hafter].
  destruct (Hafter (mkStreamTrackerManager [None; None; None] [0; 1] 1 None [] []) eq_refl)
    as (Hsorted & _ & Hmem & Hreduced).
  split; [exact Hsorted|]. split; [exact Hmem|].
  apply Hreduced.
  - split; [discriminate | reflexivity].
  - unfold fiveCalls. repeat constructor; discriminate.
Defined.

(** X8 on S3: a tracker put into the empty slot 2 is read back and then
    removed; slot 3 does not exist. *)
Lemma tracker_slot_round_trip_witness :
  (exists s',
     AddTracker 2 "tracker 2" threeSlots = Returned s'
     /\ GetTracker 2 s' = Returned (Some "tracker 2")
     /\ availableLayers s' = availableLayers threeSlots)
  /\ AddTracker 3 "tracker 3" threeSlots = Panicked.
Proof.
  destruct (tracker_slot_round_trip 2 "tracker 2" threeSlots) as [Hput _].
  destruct (tracker_slot_round_trip 3 "tracker 3" threeSlots) as [_ Hout].
  split.
  - destruct Hput as (s' & Hadd & Hget & _ & Hav & _); [simpl; lia|].
    exists s'. split; [exact Hadd|]. split; [exact Hget | exact Hav].
  - apply Hout. right. simpl. lia.
Defined.

(** X9 on S3: both trackers are stopped, the one of slot 0 first; layer 0
    stays available. *)
Lemma RemoveAllTrackers_clears_witness :
  trackers (RemoveAllTrackers threeSlots).1 = [None; None; None]
  /\ Some <$> (RemoveAllTrackers threeSlots).2 = [Some "tracker 0"; Some "tracker 1"]
  /\ availableLayers (RemoveAllTrackers threeSlots).1 = [0].
Proof.
  destruct (RemoveAllTrackers_clears threeSlots) as (Hslots & _ & Horder & _ & Hav & _).
  split; [exact Hslots|]. split; [exact Horder | exact Hav].
Defined.

(** X10 on five calls with a callback registered first. *)
Lemma last_delivery_is_current_witness :
  let s := returned (run fiveCalls (OnAvailableLayersChanged (Some 0%nat)
                                      (NewStreamTrackerManager (StreamTracker := string) 2)))
             threeSlots in
  Forall (StronglySorted Z.lt) (delivered s)
  /\ default [] (last (delivered s)) = [0; 1].
Proof.
  exact (last_delivery_is_current (StreamTracker := string) 2 fiveCalls 0%nat _ eq_refl).
Defined.

(** X11 on S3: layer 2 starting and layer 0 stopping, in either order. *)
Lemma notifications_for_different_layers_commute_witness :
  availableLayers (statusChanged 2 StreamStatusActive
                     (statusChanged 0 StreamStatusStopped threeSlots))
  = availableLayers (statusChanged 0 StreamStatusStopped
                       (statusChanged 2 StreamStatusActive threeSlots)).
Proof.
  apply notifications_for_different_layers_commute; [|discriminate].
  simpl. repeat constructor.
Defined.

(** X12 on S3: layer 1 added and removed, layer 0 removed and added. *)
Lemma layer_add_remove_round_trip_witness :
  availableLayers (removeAvailableLayer 1 (addAvailableLayer 1 threeSlots)) = [0]
  /\ availableLayers (addAvailableLayer 0 (removeAvailableLayer 0 threeSlots)) = [0].
Proof.
  assert (Hsorted : StronglySorted Z.lt (availableLayers threeSlots))
    by (simpl; repeat constructor).
  destruct (layer_add_remove_round_trip 1 threeSlots Hsorted) as [Hadd _].
  destruct (layer_add_remove_round_trip 0 threeSlots Hsorted) as [_ Hremove].
  split.
  - apply Hadd. intros Hin. apply list_elem_of_singleton in Hin. discriminate Hin.
  - apply Hremove. by left.
Defined.

(** X13 on S3: layer 3 has no slot and is not available. *)
Lemma SetMaxExpectedSpatialLayer_panics_without_slot_witness :
  SetMaxExpectedSpatialLayer 3 threeSlots = Panicked.
Proof.
  apply (SetMaxExpectedSpatialLayer_panics_without_slot 3 3 threeSlots).
  - split; discriminate.
  - split; discriminate.
  - simpl. lia.
  - intros Hin. apply list_elem_of_singleton in Hin. discriminate Hin.
  - right. simpl. lia.
Defined.

(** X14 on S3: the second raise to layer 2 resets nothing. *)
Lemma SetMaxExpectedSpatialLayer_twice_witness :
  let s1 := resetAll ["tracker 1"] (set_maxExpectedLayer 2 threeSlots) in
  SetMaxExpectedSpatialLayer 2 threeSlots = Returned s1
  /\ SetMaxExpectedSpatialLayer 2 s1 = Returned s1.
Proof.
  split; [reflexivity|].
  apply (SetMaxExpectedSpatialLayer_twice 2 threeSlots). reflexivity.
Defined.

(** X15 on S3: with layer 0 expected and available the quality is full;
    trackers play no part in it. *)
Lemma full_quality_means_all_layers_witness :
  IsReducedQuality threeSlots = false.
Proof.
  apply full_quality_means_all_layers.
  - simpl. repeat constructor.
  - simpl. constructor; [lia | constructor].
  - unfold minInt32, maxInt32. simpl. lia.
  - intros l Hl. assert (l = 0) as -> by (simpl in Hl; lia). by left.
Defined.


End sfu_theory.

(** ** The configuration *)

Module config_theory.

Import config.

Section NewConfig.

Variable yamlUnmarshalConfig : string -> Config.t -> error + Config.t.
Variable yamlUnmarshalMap : string -> error + gmap string yaml.Value.
Variable ExpandEnv : string -> string.
Variable homedirExpand : string -> error + string.
Variable determineIP : Config.t -> error + string.

Local Abbreviation unmarshalKeys := (unmarshalKeys yamlUnmarshalMap).
Local Abbreviation updateFromCLI := (updateFromCLI yamlUnmarshalMap).
Local Abbreviation NewConfig :=
  (NewConfig yamlUnmarshalConfig yamlUnmarshalMap ExpandEnv homedirExpand determineIP).

(** The keys [unmarshalKeys] stores are the entries of the parsed document
    whose value is a string. *)
Lemma unmarshalKeys_keys keys conf conf' :
  unmarshalKeys keys conf = (None, conf') ->
  exists temp,
    yamlUnmarshalMap keys = inr temp
    /\ conf' = Config.set_Keys (Config.Keys conf') conf
    /\ forall key secret,
         Config.Keys conf' !! key = Some secret <-> temp !! key = Some (yaml.VString secret).
Proof.
  unfold config.unmarshalKeys. destruct (yamlUnmarshalMap keys) as [err|temp]; [done|].
  intros [= <-]. exists temp. split; [done|]. split; [done|]. simpl.
  apply (map_fold_weak_ind
           (fun (acc : gmap string string) (m : gmap string yaml.Value) =>
              forall key secret, acc !! key = Some secret <-> m !! key = Some (yaml.VString secret))).
  - intros key secret. by rewrite !lookup_empty.
  - intros i x m acc Hfresh IH key secret.
    destruct (decide (key = i)) as [->|Hne].
    + rewrite lookup_insert_eq.
      destruct x; rewrite ?lookup_insert_eq, ?IH, ?Hfresh; split; congruence.
    + rewrite lookup_insert_ne by done.
      destruct x; rewrite ?lookup_insert_ne by done; apply IH.
Qed.

(** One step of [updateFromCLI]: [name_step] names the configuration the
    step yields, [frame] carries a field of it back to the configuration
    before the step. *)
Ltac name_step name H :=
  lazymatch goal with
  | |- (let x := ?v in @?body x) = ?r -> ?Q =>
      remember v as name eqn:H; change (body name = r -> Q); cbv beta
  end.

Ltac frame H :=
  lazymatch type of H with
  | ?ci = ?step =>
      lazymatch goal with
      | |- ?lhs = _ =>
          lazymatch (eval pattern ci in lhs) with
          | ?p _ =>
              lazymatch step with
              | if ?b then _ else ?prev =>
                  first
                    [ replace lhs with (p prev) by (rewrite H; destruct b; reflexivity)
                    | rewrite H; destruct b; simpl; [reflexivity|] ]
              | Config.set_Keys _ ?prev =>
                  replace lhs with (p prev) by (rewrite H; reflexivity)
              end;
              cbv beta
          end
      end
  end.

Lemma updateFromCLI_fields c conf conf' :
  updateFromCLI c conf = (None, conf') ->
  Config.Development conf'
  = (if cli.IsSet c "dev" then cli.Bool c "dev" else Config.Development conf)
  /\ Config.KeyFile conf'
     = (if cli.IsSet c "key-file" then cli.String c "key-file" else Config.KeyFile conf)
  /\ Config.Region conf'
     = (if cli.IsSet c "region" then cli.String c "region" else Config.Region conf)
  /\ RedisConfig.Address (Config.Redis conf')
     = (if cli.IsSet c "redis-host" then cli.String c "redis-host"
        else RedisConfig.Address (Config.Redis conf))
  /\ RedisConfig.Password (Config.Redis conf')
     = (if cli.IsSet c "redis-password" then cli.String c "redis-password"
        else RedisConfig.Password (Config.Redis conf))
  /\ TURNConfig.CertFile (Config.TURN conf')
     = (if cli.IsSet c "turn-cert" then cli.String c "turn-cert"
        else TURNConfig.CertFile (Config.TURN conf))
  /\ TURNConfig.KeyFile (Config.TURN conf')
     = (if cli.IsSet c "turn-key" then cli.String c "turn-key"
        else TURNConfig.KeyFile (Config.TURN conf))
  /\ RTCConfig.NodeIP (Config.RTC conf')
     = (if cli.IsSet c "node-ip" then cli.String c "node-ip"
        else RTCConfig.NodeIP (Config.RTC conf))
  /\ RTCConfig.UDPPort (Config.RTC conf')
     = (if cli.IsSet c "udp-port" then uint32 (cli.Int c "udp-port")
        else RTCConfig.UDPPort (Config.RTC conf))
  /\ RTCConfig.ICEPortRangeStart (Config.RTC conf')
     = RTCConfig.ICEPortRangeStart (Config.RTC conf)
  /\ Config.LogLevel conf' = Config.LogLevel conf
  /\ Config.Logging conf' = Config.Logging conf
  /\ if cli.IsSet c "keys"
     then exists temp,
            yamlUnmarshalMap (cli.String c "keys") = inr temp
            /\ forall key secret,
                 Config.Keys conf' !! key = Some secret
                 <-> temp !! key = Some (yaml.VString secret)
     else Config.Keys conf' = Config.Keys conf.
Proof.
  cbv beta delta [config.updateFromCLI].
  name_step conf1 H1. name_step conf2 H2.
  destruct (if cli.IsSet c "keys" then _ else _) as [[err|] conf3] eqn:Hkeys; [done|].
  assert (H3 : conf3 = Config.set_Keys (Config.Keys conf3) conf2).
  { destruct (cli.IsSet c "keys").
    - by apply unmarshalKeys_keys in Hkeys as (temp & _ & Hrest & _).
    - injection Hkeys as <-. by destruct conf2. }
  assert (Hstored : if cli.IsSet c "keys"
                    then exists temp,
                           yamlUnmarshalMap (cli.String c "keys") = inr temp
                           /\ forall key secret,
                                Config.Keys conf3 !! key = Some secret
                                <-> temp !! key = Some (yaml.VString secret)
                    else Config.Keys conf3 = Config.Keys conf).
  { destruct (cli.IsSet c "keys").
    - apply unmarshalKeys_keys in Hkeys as (temp & Htemp & _ & Hlookup). by exists temp.
    - injection Hkeys as <-. frame H2. by frame H1. }
  clear Hkeys. cbv beta iota.
  name_step conf4 H4. name_step conf5 H5. name_step conf6 H6. name_step conf7 H7.
  name_step conf8 H8. name_step conf9 H9. name_step conf10 H10.
  intros [= <-].
  do 12 (split; [frame H10; frame H9; frame H8; frame H7; frame H6; frame H5; frame H4;
                 frame H3; frame H2; by frame H1|]).
  replace (Config.Keys conf10) with (Config.Keys conf3); [exact Hstored|].
  symmetry. frame H10. frame H9. frame H8. frame H7. frame H6. frame H5. by frame H4.
Qed.

(** Setters applied to a record literal, and the fields read back. *)
Tactic Notation "unfold_setters" "in" hyp(H) :=
  cbv beta iota delta
    [Config.set_RTC Config.set_KeyFile Config.set_Logging RTCConfig.set_UDPPort
     RTCConfig.set_NodeIP RTCConfig.set_ICEPortRangeStart RTCConfig.set_ICEPortRangeEnd
     LoggingConfig.set_Level
     Config.Port Config.PrometheusPort Config.RTC Config.Redis Config.Audio Config.Room
     Config.TURN Config.WebHook Config.NodeSelector Config.KeyFile Config.Keys
     Config.Region Config.LogLevel Config.Logging Config.Limit Config.Development
     RTCConfig.UDPPort RTCConfig.TCPPort RTCConfig.ICEPortRangeStart
     RTCConfig.ICEPortRangeEnd RTCConfig.NodeIP RTCConfig.STUNServers
     RTCConfig.TURNServers RTCConfig.UseExternalIP RTCConfig.UseICELite
     RTCConfig.PacketBufferSize RTCConfig.MaxBitrate RTCConfig.PLIThrottle
     RTCConfig.CongestionControl RTCConfig.ForceTCP
     LoggingConfig.JSON LoggingConfig.Level LoggingConfig.Sample LoggingConfig.PionLevel]
    in H.

Tactic Notation "unfold_setters" :=
  cbv beta iota delta
    [Config.set_RTC Config.set_KeyFile Config.set_Logging RTCConfig.set_UDPPort
     RTCConfig.set_NodeIP RTCConfig.set_ICEPortRangeStart RTCConfig.set_ICEPortRangeEnd
     LoggingConfig.set_Level
     Config.Port Config.PrometheusPort Config.RTC Config.Redis Config.Audio Config.Room
     Config.TURN Config.WebHook Config.NodeSelector Config.KeyFile Config.Keys
     Config.Region Config.LogLevel Config.Logging Config.Limit Config.Development
     RTCConfig.UDPPort RTCConfig.TCPPort RTCConfig.ICEPortRangeStart
     RTCConfig.ICEPortRangeEnd RTCConfig.NodeIP RTCConfig.STUNServers
     RTCConfig.TURNServers RTCConfig.UseExternalIP RTCConfig.UseICELite
     RTCConfig.PacketBufferSize RTCConfig.MaxBitrate RTCConfig.PLIThrottle
     RTCConfig.CongestionControl RTCConfig.ForceTCP
     LoggingConfig.JSON LoggingConfig.Level LoggingConfig.Sample LoggingConfig.PionLevel].

(** What the steps after the command line do to the configuration [conf0]
    they start from. *)
Lemma NewConfig_returns confString c conf :
  NewConfig confString c = inr conf ->
  exists parsed conf0,
    (if bool_decide (confString <> "")
     then yamlUnmarshalConfig confString defaults = inr parsed
     else parsed = defaults)
    /\ match c with
       | Some c => updateFromCLI c parsed = (None, conf0)
       | None => conf0 = parsed
       end
    /\ homedirExpand (ExpandEnv (Config.KeyFile conf0)) = inr (Config.KeyFile conf)
    /\ Config.Development conf = Config.Development conf0
    /\ Config.Keys conf = Config.Keys conf0
    /\ Config.Region conf = Config.Region conf0
    /\ Config.Redis conf = Config.Redis conf0
    /\ Config.TURN conf = Config.TURN conf0
    /\ Config.LogLevel conf = Config.LogLevel conf0
    /\ (RTCConfig.NodeIP (Config.RTC conf0) <> ""
        -> RTCConfig.NodeIP (Config.RTC conf) = RTCConfig.NodeIP (Config.RTC conf0))
    /\ (RTCConfig.NodeIP (Config.RTC conf0) = ""
        -> determineIP
             (Config.set_Logging (Config.Logging conf0)
                (Config.set_RTC (RTCConfig.set_NodeIP "" (Config.RTC conf)) conf))
           = inr (RTCConfig.NodeIP (Config.RTC conf)))
    /\ RTCConfig.UDPPort (Config.RTC conf)
       = (if (RTCConfig.UDPPort (Config.RTC conf0) =? 0)
             && (RTCConfig.ICEPortRangeStart (Config.RTC conf0) =? 0)
             && Config.Development conf0
          then 7882 else RTCConfig.UDPPort (Config.RTC conf0))
    /\ RTCConfig.ICEPortRangeStart (Config.RTC conf)
       = (if (RTCConfig.UDPPort (Config.RTC conf0) =? 0)
             && (RTCConfig.ICEPortRangeStart (Config.RTC conf0) =? 0)
             && negb (Config.Development conf0)
          then 50000 else RTCConfig.ICEPortRangeStart (Config.RTC conf0))
    /\ (Config.LogLevel conf <> ""
        -> LoggingConfig.Level (Config.Logging conf) = Config.LogLevel conf)
    /\ (Config.Development conf = true -> LoggingConfig.Level (Config.Logging conf) <> "").
Proof.
  unfold config.NewConfig.
  destruct (if bool_decide (confString <> "") then _ else _) as [err|parsed] eqn:Hparsed;
    [done|].
  destruct (match c with Some _ => _ | None => _ end) as [[err|] conf0] eqn:Hupdated;
    [done|].
  destruct (homedirExpand _) as [err|file] eqn:Hfile; [done|].
  intros Hrest. exists parsed, conf0.
  split; [destruct (bool_decide (confString <> "")); congruence|].
  split; [destruct c; congruence|].
  clear Hparsed Hupdated.
  destruct conf0 as [port prom [udp tcp start stop ip stun turns ext lite buf rate pli cc force]
                       redis audio room turn hook sel keyFile keys region logLevel
                       [json level sample pion] limit dev].
  simpl in *.
  destruct (udp =? 0), (start =? 0), dev; simpl in Hrest;
    repeat (first [ case_bool_decide
                  | destruct (determineIP _) as [err|found] eqn:Hdetected; [done|] ];
            simpl in Hrest);
    injection Hrest as <-; simpl;
    (split; [exact Hfile|]); (do 6 (split; [reflexivity|]));
    (split; [intros Hne; first [reflexivity | done]|]);
    (split; [intros Hempty; try unfold_setters in Hdetected; unfold_setters; congruence|]);
    (do 2 (split; [reflexivity|]));
    (split; [intros Hne; first [reflexivity | done]|]);
    intros Hdev; first [discriminate Hdev | done | congruence].
Qed.

(** X16.  A configuration NewConfig returns always names a UDP port or a
    port range for ICE, never neither; its KeyFile is the expansion
    (environment variables, then the home directory) of the key file the
    --key-file flag gives when set, and otherwise of the one the document
    left in place (the default, the empty string, without a document); the
    deprecated top-level log level, when given, is the logging level; and
    in development mode the logging level is never empty. *)
Theorem returned_config_is_complete (confString : string) (c : option cli.Context)
    (conf : Config.t) :
  NewConfig confString c = inr conf ->
  (RTCConfig.UDPPort (Config.RTC conf) <> 0
   \/ RTCConfig.ICEPortRangeStart (Config.RTC conf) <> 0)
  /\ (exists parsed,
        (if bool_decide (confString <> "")
         then yamlUnmarshalConfig confString defaults = inr parsed
         else parsed = defaults)
        /\ homedirExpand
             (ExpandEnv
                match c with
                | Some c => if cli.IsSet c "key-file" then cli.String c "key-file"
                            else Config.KeyFile parsed
                | None => Config.KeyFile parsed
                end)
           = inr (Config.KeyFile conf))
  /\ (Config.LogLevel conf <> ""
      -> LoggingConfig.Level (Config.Logging conf) = Config.LogLevel conf)
  /\ (Config.Development conf = true -> LoggingConfig.Level (Config.Logging conf) <> "").
Proof.
  intros Hnew.
  destruct (NewConfig_returns _ _ _ Hnew)
    as (parsed & conf0 & Hparsed & Hcli & Hfile & _ & _ & _ & _ & _ & _ & _ & _
        & Hudp & Hstart & Hlog & Hdev).
  split; [|split; [|by split]].
  2:{ exists parsed. split; [exact Hparsed|].
      destruct c as [c|]; [|by subst conf0].
      destruct (updateFromCLI_fields _ _ _ Hcli) as (_ & Fkey & _).
      by rewrite <- Fkey. }
  rewrite Hudp, Hstart.
  destruct (Z.eqb_spec (RTCConfig.UDPPort (Config.RTC conf0)) 0) as [Hu|Hu];
    destruct (Z.eqb_spec (RTCConfig.ICEPortRangeStart (Config.RTC conf0)) 0) as [Hs|Hs];
    destruct (Config.Development conf0); simpl; lia.
Qed.

(** X17.  A flag given on the command line wins over the configuration
    document, whatever the document says, with two exceptions the code
    makes.  An empty --node-ip is replaced by the detected address: the
    NodeIP returned is what determineIP gives for the configuration as it
    stands at that point, which is the returned one with an empty NodeIP
    and the logging section of the document.  A --udp-port that is 0 as a
    uint32 (0, or a multiple of 2^32) counts as not given, so that the
    development default 7882 may take its place. *)
Theorem cli_flags_take_precedence (confString : string) (c : cli.Context) (conf : Config.t) :
  NewConfig confString (Some c) = inr conf ->
  (cli.IsSet c "dev" = true -> Config.Development conf = cli.Bool c "dev")
  /\ (cli.IsSet c "key-file" = true
      -> homedirExpand (ExpandEnv (cli.String c "key-file")) = inr (Config.KeyFile conf))
  /\ (cli.IsSet c "region" = true -> Config.Region conf = cli.String c "region")
  /\ (cli.IsSet c "redis-host" = true
      -> RedisConfig.Address (Config.Redis conf) = cli.String c "redis-host")
  /\ (cli.IsSet c "redis-password" = true
      -> RedisConfig.Password (Config.Redis conf) = cli.String c "redis-password")
  /\ (cli.IsSet c "turn-cert" = true
      -> TURNConfig.CertFile (Config.TURN conf) = cli.String c "turn-cert")
  /\ (cli.IsSet c "turn-key" = true
      -> TURNConfig.KeyFile (Config.TURN conf) = cli.String c "turn-key")
  /\ (cli.IsSet c "node-ip" = true -> cli.String c "node-ip" <> ""
      -> RTCConfig.NodeIP (Config.RTC conf) = cli.String c "node-ip")
  /\ (cli.IsSet c "node-ip" = true -> cli.String c "node-ip" = ""
      -> exists parsed,
           (if bool_decide (confString <> "")
            then yamlUnmarshalConfig confString defaults = inr parsed
            else parsed = defaults)
           /\ determineIP
                (Config.set_Logging (Config.Logging parsed)
                   (Config.set_RTC (RTCConfig.set_NodeIP "" (Config.RTC conf)) conf))
              = inr (RTCConfig.NodeIP (Config.RTC conf)))
  /\ (cli.IsSet c "udp-port" = true -> uint32 (cli.Int c "udp-port") <> 0
      -> RTCConfig.UDPPort (Config.RTC conf) = uint32 (cli.Int c "udp-port"))
  /\ (cli.IsSet c "udp-port" = true -> uint32 (cli.Int c "udp-port") = 0
      -> RTCConfig.UDPPort (Config.RTC conf)
         = if Config.Development conf
              && (RTCConfig.ICEPortRangeStart (Config.RTC conf) =? 0)
           then 7882 else 0).
Proof.
  intros Hnew.
  destruct (NewConfig_returns _ _ _ Hnew)
    as (parsed & conf0 & Hparsed & Hcli & Hfile & Hdev & _ & Hregion & Hredis & Hturn & _
        & Hip & Hdetected & Hudp & Hstart & _).
  destruct (updateFromCLI_fields _ _ _ Hcli)
    as (Fdev & Fkey & Fregion & Fhost & Fpass & Fcert & Fturn & Fip & Fudp & _ & _
        & Flogging & _).
  split; [intros Hset; by rewrite Hdev, Fdev, Hset|].
  split; [intros Hset; by rewrite <- Hfile, Fkey, Hset|].
  split; [intros Hset; by rewrite Hregion, Fregion, Hset|].
  split; [intros Hset; by rewrite Hredis, Fhost, Hset|].
  split; [intros Hset; by rewrite Hredis, Fpass, Hset|].
  split; [intros Hset; by rewrite Hturn, Fcert, Hset|].
  split; [intros Hset; by rewrite Hturn, Fturn, Hset|].
  split.
  { intros Hset Hne. rewrite Hset in Fip. rewrite Hip; rewrite Fip; done. }
  split.
  { intros Hset Hempty. rewrite Hset, Hempty in Fip.
    exists parsed. split; [exact Hparsed|]. rewrite <- Flogging. by apply Hdetected. }
  split.
  - intros Hset Hne. rewrite Hset in Fudp. rewrite Hudp, Fudp.
    destruct (Z.eqb_spec (uint32 (cli.Int c "udp-port")) 0); done.
  - intros Hset Hzero. rewrite Hset, Hzero in Fudp.
    rewrite Hudp, Hstart, Hdev, Fudp. simpl.
    destruct (Z.eqb_spec (RTCConfig.ICEPortRangeStart (Config.RTC conf0)) 0) as [->|Hs];
      destruct (Config.Development conf0); simpl; try done.
    by destruct (Z.eqb_spec (RTCConfig.ICEPortRangeStart (Config.RTC conf0)) 0).
Qed.

(** X18.  Keys given with --keys replace the keys of the configuration
    document, they are not merged with them: the returned configuration
    holds exactly the entries of the flag's document whose value is a
    string. *)
Theorem cli_keys_replace_configured_keys (confString : string) (c : cli.Context)
    (conf : Config.t) :
  cli.IsSet c "keys" = true ->
  NewConfig confString (Some c) = inr conf ->
  exists temp,
    yamlUnmarshalMap (cli.String c "keys") = inr temp
    /\ forall key secret,
         Config.Keys conf !! key = Some secret <-> temp !! key = Some (yaml.VString secret).
Proof.
  intros Hset Hnew.
  destruct (NewConfig_returns _ _ _ Hnew) as (parsed & conf0 & _ & Hcli & _ & _ & Hkeys & _).
  destruct (updateFromCLI_fields _ _ _ Hcli) as (_ & _ & _ & _ & _ & _ & _ & _ & _ & _ & _ & _ & Fkeys).
  rewrite Hset in Fkeys. rewrite Hkeys. exact Fkeys.
Qed.

End NewConfig.

(** *** Scenarios *)

(** The document sets its own keys, the command line gives --keys, --region
    and a --udp-port of 2^32: the keys of the document are gone, the
    integer entry of the flag's document is skipped, and the port range is
    the default one. *)
Example flags_over_document :
  sampleNewConfig fileKeysDocument (Some sampleFlags) = inr flagsConfig
  /\ Config.Keys flagsConfig = {[ "cli" := "s3cret" ]}
  /\ Config.Region flagsConfig = "eu"
  /\ RTCConfig.UDPPort (Config.RTC flagsConfig) = 0
  /\ RTCConfig.ICEPortRangeStart (Config.RTC flagsConfig) = 50000
  /\ RTCConfig.ICEPortRangeEnd (Config.RTC flagsConfig) = 60000
  /\ RTCConfig.NodeIP (Config.RTC flagsConfig) = "127.0.0.1".
Proof. vm_compute. do 6 (split; [reflexivity|]). reflexivity. Qed.

Example unknown_document_is_an_error :
  sampleNewConfig "port: 1" None = inl "could not parse config: yaml: unknown document".
Proof. vm_compute. reflexivity. Qed.

(** X16 on the development document: port 7882 and level debug. *)
Lemma returned_config_is_complete_witness :
  sampleNewConfig devDocument None = inr devConfig
  /\ (RTCConfig.UDPPort (Config.RTC devConfig) <> 0
      \/ RTCConfig.ICEPortRangeStart (Config.RTC devConfig) <> 0)
  /\ LoggingConfig.Level (Config.Logging devConfig) <> "".
Proof.
  assert (Hnew : NewConfig knownDocuments knownMaps noEnvironment noHome localhost
                   devDocument None = inr devConfig)
    by (vm_compute; reflexivity).
  destruct (returned_config_is_complete knownDocuments knownMaps noEnvironment noHome
              localhost devDocument None devConfig Hnew) as (Hports & _ & _ & Hlevel).
  unfold sampleNewConfig. split; [exact Hnew|]. split; [exact Hports | by apply Hlevel].
Defined.

(** X17 on the sample flags: the region is the flag's, and the port flag,
    0 as a uint32, counts as not given.  With an empty --node-ip the
    address is the detected one. *)
Lemma cli_flags_take_precedence_witness :
  sampleNewConfig fileKeysDocument (Some sampleFlags) = inr flagsConfig
  /\ Config.Region flagsConfig = "eu"
  /\ RTCConfig.UDPPort (Config.RTC flagsConfig) = 0
  /\ sampleNewConfig "" (Some emptyNodeIPFlags) = inr detectedConfig
  /\ RTCConfig.NodeIP (Config.RTC detectedConfig) = "127.0.0.1".
Proof.
  assert (Hnew : NewConfig knownDocuments knownMaps noEnvironment noHome localhost
                   fileKeysDocument (Some sampleFlags) = inr flagsConfig)
    by (vm_compute; reflexivity).
  assert (Hempty : NewConfig knownDocuments knownMaps noEnvironment noHome localhost
                     "" (Some emptyNodeIPFlags) = inr detectedConfig)
    by (vm_compute; reflexivity).
  destruct (cli_flags_take_precedence knownDocuments knownMaps noEnvironment noHome
              localhost fileKeysDocument sampleFlags flagsConfig Hnew)
    as (_ & _ & Hregion & _ & _ & _ & _ & _ & _ & _ & Hport).
  destruct (cli_flags_take_precedence knownDocuments knownMaps noEnvironment noHome
              localhost "" emptyNodeIPFlags detectedConfig Hempty)
    as (_ & _ & _ & _ & _ & _ & _ & _ & Hdetected & _).
  unfold sampleNewConfig. split; [exact Hnew|].
  split; [apply Hregion; vm_compute; reflexivity|].
  split; [apply Hport; vm_compute; reflexivity|].
  split; [exact Hempty|].
  destruct Hdetected as (parsed & _ & Hip); [reflexivity | reflexivity |].
  unfold localhost in Hip. congruence.
Defined.

(** X18 on the sample flags: only the string entry of the flag's document
    is a key. *)
Lemma cli_keys_replace_configured_keys_witness :
  sampleNewConfig fileKeysDocument (Some sampleFlags) = inr flagsConfig
  /\ Config.Keys flagsConfig !! "cli" = Some "s3cret"
  /\ Config.Keys flagsConfig !! "file" = None.
Proof.
  assert (Hnew : NewConfig knownDocuments knownMaps noEnvironment noHome localhost
                   fileKeysDocument (Some sampleFlags) = inr flagsConfig)
    by (vm_compute; reflexivity).
  assert (Hset : cli.IsSet sampleFlags "keys" = true) by (vm_compute; reflexivity).
  destruct (cli_keys_replace_configured_keys knownDocuments knownMaps noEnvironment noHome
              localhost fileKeysDocument sampleFlags flagsConfig Hset Hnew)
    as (temp & Htemp & Hkeys).
  assert (Hdoc : knownMaps (cli.String sampleFlags "keys")
                 = inr {[ "cli" := yaml.VString "s3cret"; "port" := yaml.VInt 7880 ]})
    by (vm_compute; reflexivity).
  rewrite Hdoc in Htemp. injection Htemp as <-.
  unfold sampleNewConfig. split; [exact Hnew|]. split.
  - apply Hkeys. vm_compute. reflexivity.
  - destruct (Config.Keys flagsConfig !! "file") as [secret|] eqn:Hfile; [|reflexivity].
    apply Hkeys in Hfile. vm_compute in Hfile. discriminate Hfile.
Defined.

End config_theory.
